(** * Constant folding of SIL builtins (lib/SILOptimizer/Utils/ConstantFolding.cpp)

    A shallow embedding of the constant folder: the numeric kernel over
    arbitrary-width integers, the builtin folder with its diagnostics and its
    tri-state "results in error" flag, the comparison pattern folder and the
    per-user step of the worklist driver.

    Arbitrary-width integers are LLVM's [llvm::APInt] and floats its
    [llvm::APFloat]; neither is among the sources, the folder only calls
    their methods.  An APInt is embedded as a width and an unsigned value in
    [Z], every operation with its wrap-around written out. *)

From Stdlib Require Import ZArith Bool List String Lia.
Import ListNotations.

#[local] Open Scope Z_scope.
#[local] Set Warnings "-register-all".

(** ** llvm::APInt *)

Module APInt.

(** Modelled from the spec: [llvm::APInt] is not among the sources; it is the
    arbitrary-width integer of sections 3, 4.1 and 9, whose width is a
    property of the value.  An APInt is a bit width and the unsigned value
    of its bits. *)
Record t : Type := mk { BitWidth : Z; Val : Z }.

(** The values the constructors can build: [0 <= Val < 2^BitWidth]. *)
Definition wf (a : t) : Prop := 0 <= Val a < 2 ^ BitWidth a.

(** [APInt(numBits, val)]: the low [numBits] bits of [val]. *)
Definition make (numBits val : Z) : t := mk numBits (val mod 2 ^ numBits).

(** [APInt()]: "an uninteresting APInt representing a 1-bit zero value". *)
Definition default : t := mk 1 0.

Definition getBitWidth (a : t) : Z := BitWidth a.
Definition getZExtValue (a : t) : Z := Val a.

(** [operator==] and [operator!=] on values of one width; [operator!]. *)
Definition eqb (a b : t) : bool := Val a =? Val b.
Definition neb (a b : t) : bool := negb (eqb a b).
Definition eqz (a : t) (n : Z) : bool := Val a =? n.
Definition isNullValue (a : t) : bool := Val a =? 0.

(** Sign bit and the two's-complement reading. *)
Definition isNegative (a : t) : bool := Z.testbit (Val a) (BitWidth a - 1).
Definition isNonNegative (a : t) : bool := negb (isNegative a).
Definition isStrictlyPositive (a : t) : bool :=
  isNonNegative a && negb (isNullValue a).
Definition signed (a : t) : Z :=
  if isNegative a then Val a - 2 ^ BitWidth a else Val a.

Definition isAllOnesValue (a : t) : bool := Val a =? 2 ^ BitWidth a - 1.
Definition isMinSignedValue (a : t) : bool := Val a =? 2 ^ (BitWidth a - 1).
Definition isMaxSignedValue (a : t) : bool :=
  Val a =? 2 ^ (BitWidth a - 1) - 1.

(** Range of the two readings of a [w]-bit value. *)
Definition fitsUnsigned (w z : Z) : Prop := 0 <= z < 2 ^ w.
Definition fitsSigned (w z : Z) : Prop := - 2 ^ (w - 1) <= z < 2 ^ (w - 1).

(** Modular arithmetic on equal widths (the width is the left operand's). *)
Definition add (a b : t) : t := make (BitWidth a) (Val a + Val b).
Definition sub (a b : t) : t := make (BitWidth a) (Val a - Val b).
Definition mul (a b : t) : t := make (BitWidth a) (Val a * Val b).
Definition neg (a : t) : t := make (BitWidth a) (- Val a).

(** Bitwise operators. *)
Definition and (a b : t) : t := mk (BitWidth a) (Z.land (Val a) (Val b)).
Definition or (a b : t) : t := mk (BitWidth a) (Z.lor (Val a) (Val b)).
Definition xor (a b : t) : t := mk (BitWidth a) (Z.lxor (Val a) (Val b)).

(** Shifts by an APInt amount: the amount is limited to the bit width, and
    shifting by the whole width leaves no bit (or only sign bits). *)
Definition shl (a b : t) : t :=
  if BitWidth a <=? Val b then mk (BitWidth a) 0
  else make (BitWidth a) (Z.shiftl (Val a) (Val b)).
Definition lshr (a b : t) : t :=
  if BitWidth a <=? Val b then mk (BitWidth a) 0
  else mk (BitWidth a) (Z.shiftr (Val a) (Val b)).
Definition ashr (a b : t) : t :=
  if BitWidth a <=? Val b
  then mk (BitWidth a) (if isNegative a then 2 ^ BitWidth a - 1 else 0)
  else make (BitWidth a) (Z.shiftr (signed a) (Val b)).

(** Comparisons. *)
Definition ult (a b : t) : bool := Val a <? Val b.
Definition ugt (a b : t) : bool := Val b <? Val a.
Definition ule (a b : t) : bool := Val a <=? Val b.
Definition uge (a b : t) : bool := Val b <=? Val a.
Definition slt (a b : t) : bool := signed a <? signed b.
Definition sgt (a b : t) : bool := signed b <? signed a.
Definition sle (a b : t) : bool := signed a <=? signed b.
Definition sge (a b : t) : bool := signed b <=? signed a.

(** Width changes.  [trunc] keeps the low [width] bits, [zext] fills the
    new high bits with zeros, [sext] fills them with the sign bit. *)
Definition trunc (a : t) (width : Z) : t := mk width (Val a mod 2 ^ width).
Definition zext (a : t) (width : Z) : t := mk width (Val a).
Definition sext (a : t) (width : Z) : t :=
  mk width
     (if isNegative a
      then Z.lor (Val a) (Z.shiftl (Z.ones (width - BitWidth a)) (BitWidth a))
      else Val a).

(** [getLoBits(n)]. *)
Definition getLoBits (a : t) (n : Z) : t :=
  mk (BitWidth a) (Z.land (Val a) (Z.ones n)).

(** [countLeadingZeros]: the width minus the number of active bits. *)
Definition getActiveBits (a : t) : Z :=
  if Val a =? 0 then 0 else Z.log2 (Val a) + 1.
Definition countLeadingZeros (a : t) : Z := BitWidth a - getActiveBits a.

(** Modelled from the spec: APInt's division is not among the sources.
    Section 4.1: [SDIV, SREM] return [(result, overflow_flag)] where overflow
    is set iff the mathematical quotient does not fit (e.g. INT_MIN / -1);
    [UDIV, UREM] never overflow; a divisor of zero is a precondition.  The
    signed quotient rounds toward zero and the remainder takes the sign of
    the dividend. *)
Definition udiv (a b : t) : t := mk (BitWidth a) (Val a / Val b).
Definition urem (a b : t) : t := mk (BitWidth a) (Val a mod Val b).
Definition sdiv (a b : t) : t :=
  make (BitWidth a) (Z.quot (signed a) (signed b)).
Definition srem (a b : t) : t :=
  make (BitWidth a) (Z.rem (signed a) (signed b)).

(** Does [z] fit in [w] bits, read unsigned or signed? *)
Definition fitsUnsignedb (w z : Z) : bool := (0 <=? z) && (z <? 2 ^ w).
Definition fitsSignedb (w z : Z) : bool :=
  (- 2 ^ (w - 1) <=? z) && (z <? 2 ^ (w - 1)).

Definition sdiv_ov (a b : t) : t * bool :=
  (sdiv a b, negb (fitsSignedb (BitWidth a) (Z.quot (signed a) (signed b)))).

(** Modelled from the spec: APInt's checked arithmetic is not among the
    sources.  Section 4.1: for each of signed/unsigned x add/sub/mul, a
    function returning [(result, overflow_flag)] computed in two's-complement
    modular arithmetic, with the flag set iff the mathematical result does
    not fit in the operand width under the specified signedness. *)
Definition sadd_ov (a b : t) : t * bool :=
  (add a b, negb (fitsSignedb (BitWidth a) (signed a + signed b))).
Definition uadd_ov (a b : t) : t * bool :=
  (add a b, negb (fitsUnsignedb (BitWidth a) (Val a + Val b))).
Definition ssub_ov (a b : t) : t * bool :=
  (sub a b, negb (fitsSignedb (BitWidth a) (signed a - signed b))).
Definition usub_ov (a b : t) : t * bool :=
  (sub a b, negb (fitsUnsignedb (BitWidth a) (Val a - Val b))).
Definition smul_ov (a b : t) : t * bool :=
  (mul a b, negb (fitsSignedb (BitWidth a) (signed a * signed b))).
Definition umul_ov (a b : t) : t * bool :=
  (mul a b, negb (fitsUnsignedb (BitWidth a) (Val a * Val b))).

End APInt.


(** ** AST types, expressions and source locations

    Only what the folder reads of the AST when it words a diagnostic.  Types
    are kept canonical, so [getCanonicalType] is the identity. *)

Inductive FPKind : Type := IEEE32 | IEEE64 | IEEE80.

Inductive ASTType : Type :=
| BuiltinIntegerType (width : Z)
| BuiltinFloatType (kind : FPKind)
| NominalType (decl : string)
| InOutType (object : ASTType)
| TupleType (elements : list ASTType).

(** [getGreatestWidth] after [castTo<BuiltinIntegerType>] (which asserts the
    type is a builtin integer; the other types are given width 0). *)
Definition getGreatestWidth (T : ASTType) : Z :=
  match T with BuiltinIntegerType w => w | _ => 0 end.

Definition getInOutObjectType (T : ASTType) : ASTType :=
  match T with InOutType o => o | _ => T end.

(** The nominal declaration of a type, if it has one. *)
Definition getAnyNominal (T : ASTType) : option string :=
  match T with NominalType d => Some d | _ => None end.

Fixpoint ASTType_eqb (a b : ASTType) {struct a} : bool :=
  match a, b with
  | BuiltinIntegerType w1, BuiltinIntegerType w2 => w1 =? w2
  | BuiltinFloatType k1, BuiltinFloatType k2 =>
      match k1, k2 with
      | IEEE32, IEEE32 | IEEE64, IEEE64 | IEEE80, IEEE80 => true
      | _, _ => false
      end
  | NominalType d1, NominalType d2 => String.eqb d1 d2
  | InOutType o1, InOutType o2 => ASTType_eqb o1 o2
  | TupleType l1, TupleType l2 =>
      (fix all2 (l1 l2 : list ASTType) {struct l1} : bool :=
         match l1, l2 with
         | [], [] => true
         | x :: xs, y :: ys => ASTType_eqb x y && all2 xs ys
         | _, _ => false
         end) l1 l2
  | _, _ => false
  end.

(** Expressions.  [ApplyExpr] covers its subclasses, told apart by
    [ApplyKind]. *)
Inductive ApplyKind : Type :=
| CallExprKind | ConstructorRefCallExprKind | OtherApplyExprKind.

Inductive Expr : Type :=
| ApplyExpr (kind : ApplyKind) (implicit : bool) (fn arg : Expr) (ty : ASTType)
| TupleExpr (elements : list Expr) (ty : ASTType)
| FloatLiteralExpr (negative : bool) (digits : string) (ty : ASTType)
| OtherExpr (ty : ASTType).

Definition Expr_getType (e : Expr) : ASTType :=
  match e with
  | ApplyExpr _ _ _ _ ty | TupleExpr _ ty | FloatLiteralExpr _ _ ty
  | OtherExpr ty => ty
  end.

Definition isConstructorRefCallExpr (e : Expr) : bool :=
  match e with ApplyExpr ConstructorRefCallExprKind _ _ _ _ => true | _ => false end.

(** Number of arguments of a call: the elements of its argument tuple, one
    for a parenthesized argument. *)
Definition getNumArguments (arg : Expr) : nat :=
  match arg with TupleExpr elts _ => List.length elts | _ => 1%nat end.

(** A SIL location: the AST node it was lowered from, if any, and whether it
    has a valid source position. *)
Record SILLocation : Type :=
  mkLoc { ASTNode : option Expr; SourceLocValid : bool }.

(** [Loc.getAsASTNode<ApplyExpr>()], as the apply's argument and type. *)
Definition getAsApplyExpr (L : SILLocation) : option (Expr * ASTType) :=
  match ASTNode L with
  | Some (ApplyExpr _ _ _ arg ty) => Some (arg, ty)
  | _ => None
  end.

(** [Loc.getAsASTNode<CallExpr>()], as (implicit, callee, argument, type). *)
Definition getAsCallExpr (L : SILLocation)
  : option (bool * Expr * Expr * ASTType) :=
  match ASTNode L with
  | Some (ApplyExpr CallExprKind implicit fn arg ty) =>
      Some (implicit, fn, arg, ty)
  | _ => None
  end.

(** The AST context: the declaration of the standard library's [Double]. *)
Record ASTContext : Type := mkASTContext { getDoubleDecl : option string }.

(** ** llvm::APFloat *)

(** Modelled from the spec: [llvm::APFloat] is not among the sources.
    Section 3: a float literal carries an IEEE value at one of three widths,
    32-bit (8 exponent bits, 23 significand bits), 64-bit (11, 52) and 80-bit
    (15, 63 and an explicit integer bit).  A value is kept as a category, a
    sign, an exponent and a significand of [precision] bits; the arithmetic
    (rounding and status flags) enters the folder through [APFloatOps]. *)
Record fltSemantics : Type :=
  mkSem { maxExponent : Z; minExponent : Z; precision : Z; sizeInBits : Z }.

Definition IEEEsingle : fltSemantics := mkSem 127 (-126) 24 32.
Definition IEEEdouble : fltSemantics := mkSem 1023 (-1022) 53 64.
Definition x87DoubleExtended : fltSemantics := mkSem 16383 (-16382) 64 80.

Definition getAPFloatSemantics (k : FPKind) : fltSemantics :=
  match k with
  | IEEE32 => IEEEsingle | IEEE64 => IEEEdouble | IEEE80 => x87DoubleExtended
  end.

Inductive fltCategory : Type := fcInfinity | fcNaN | fcNormal | fcZero.

Record APFloat : Type :=
  mkAPFloat { semantics : fltSemantics; category : fltCategory; sign : bool;
              exponent : Z; significand : Z }.

Module APFloatM.
Definition isNegative (v : APFloat) : bool := sign v.
Definition isZero (v : APFloat) : bool :=
  match category v with fcZero => true | _ => false end.
Definition isNaN (v : APFloat) : bool :=
  match category v with fcNaN => true | _ => false end.
Definition isInfinity (v : APFloat) : bool :=
  match category v with fcInfinity => true | _ => false end.
Definition isFiniteNonZero (v : APFloat) : bool :=
  match category v with fcNormal => true | _ => false end.
Definition isDenormal (v : APFloat) : bool :=
  isFiniteNonZero v && (exponent v =? minExponent (semantics v))
  && negb (Z.testbit (significand v) (precision (semantics v) - 1)).
(** [ilogb]: the exponent of the value once normalized. *)
Definition ilogb (v : APFloat) : Z :=
  if isDenormal v
  then exponent v - (precision (semantics v) - 1 - Z.log2 (significand v))
  else exponent v.
(** The low [n] bits of [bitcastToAPInt()]: for a finite non-zero value of
    the three formats, the low bits of the significand. *)
Definition bitPatternLoBits (v : APFloat) (n : Z) : Z :=
  Z.land (significand v) (Z.ones n).
End APFloatM.

(** [APFloat::opStatus] is a bit mask. *)
Definition opStatus : Type := Z.
Definition opOK : opStatus := 0.
Definition opInvalidOp : opStatus := 1.
Definition opDivByZero : opStatus := 2.
Definition opOverflow : opStatus := 4.
Definition opUnderflow : opStatus := 8.
Definition opInexact : opStatus := 16.
Definition hasStatus (status flag : opStatus) : bool :=
  negb (Z.land status flag =? 0).

(** The APFloat operations the folder calls, all with the rounding mode the
    folder passes (nearest-ties-to-even, toward zero for float to int). *)
Class APFloatOps : Type := {
  fp_add : APFloat -> APFloat -> APFloat;
  fp_subtract : APFloat -> APFloat -> APFloat;
  fp_multiply : APFloat -> APFloat -> APFloat;
  fp_divide : APFloat -> APFloat -> APFloat;
  fp_convert : APFloat -> fltSemantics -> APFloat * opStatus;
  fp_convertToInteger : APFloat -> Z -> bool -> APInt.t * opStatus;
  fp_convertFromAPInt : fltSemantics -> APInt.t -> bool -> APFloat * opStatus
}.

(** ** SIL instructions *)

(** The builtin kinds the folder dispatches on; [OtherBuiltin] stands for
    every kind that falls to the [default] of its switches (the floating
    point comparison predicates among them, for which the comparison folder
    has no case either). *)
Inductive BuiltinValueKind : Type :=
| Add | Sub | Mul | SDiv | SRem | UDiv | URem | ExactSDiv | ExactUDiv
| And | Or | Xor | Shl | LShr | AShr
| FAdd | FSub | FMul | FDiv | FRem
| ICMP_EQ | ICMP_NE | ICMP_SLT | ICMP_SGT | ICMP_SLE | ICMP_SGE
| ICMP_ULT | ICMP_UGT | ICMP_ULE | ICMP_UGE
| SAddOver | UAddOver | SSubOver | USubOver | SMulOver | UMulOver
| Trunc | ZExt | SExt | TruncOrBitCast | ZExtOrBitCast | SExtOrBitCast
| SToSCheckedTrunc | UToUCheckedTrunc | SToUCheckedTrunc | UToSCheckedTrunc
| SUCheckedConversion | USCheckedConversion
| FPTrunc | IntToFPWithOverflow | FPToSI | FPToUI
| AssumeNonNegative | AssertConf | CondUnreachable
| OtherBuiltin.

Inductive IntrinsicID : Type :=
| not_intrinsic | expect | ctlz
| sadd_with_overflow | uadd_with_overflow
| ssub_with_overflow | usub_with_overflow
| smul_with_overflow | umul_with_overflow
| other_intrinsic.

Record BuiltinInfo : Type :=
  mkBuiltinInfo { ID : BuiltinValueKind; Types : list ASTType }.

(** [Builtin.Types[i]]; a builtin that reads it has been type checked to
    carry it, the missing entry reads as a zero-width integer type. *)
Definition TypesAt (B : BuiltinInfo) (i : nat) : ASTType :=
  nth i (Types B) (BuiltinIntegerType 0).

Definition SILType : Type := ASTType.

(** [FuncResType.getTupleElementType(i)]. *)
Definition getTupleElementType (T : SILType) (i : nat) : SILType :=
  match T with
  | TupleType elts => nth i elts (BuiltinIntegerType 0)
  | _ => BuiltinIntegerType 0
  end.

(** A builtin instruction: location, result type, whether the enclosing
    function is a specialization, the intrinsic and builtin it calls, and
    its operands. *)
Record BuiltinInstOf (V : Type) : Type :=
  mkBuiltinInst { getLoc : SILLocation; getType : SILType;
                  isSpecialization : bool;
                  getIntrinsicInfo : IntrinsicID;
                  getBuiltinInfo : BuiltinInfo;
                  getArguments : list V }.
Arguments mkBuiltinInst {V}.
Arguments getLoc {V}.
Arguments getType {V}.
Arguments isSpecialization {V}.
Arguments getIntrinsicInfo {V}.
Arguments getBuiltinInfo {V}.
Arguments getArguments {V}.

(** SIL values: the instructions the folder looks into, and [OtherValue]
    for everything it does not (function arguments, loads, calls...). *)
Inductive SILValue : Type :=
| IntegerLiteralInst (Loc : SILLocation) (Ty : SILType) (Value : APInt.t)
| FloatLiteralInst (Loc : SILLocation) (Ty : SILType) (Value : APFloat)
| BuiltinValue (BI : BuiltinInstOf SILValue)
| TupleInst (Loc : SILLocation) (Ty : SILType) (Elements : list SILValue)
| TupleExtractInst (Loc : SILLocation) (Ty : SILType) (Operand : SILValue)
                   (FieldNo : nat)
| StructInst (Loc : SILLocation) (Ty : SILType)
             (Fields : list (string * SILValue))
| StructExtractInst (Loc : SILLocation) (Ty : SILType) (Operand : SILValue)
                    (Field : string)
| IndexingInst (Loc : SILLocation) (Ty : SILType) (Base Index : SILValue)
| CondFailInst (Loc : SILLocation) (Operand : SILValue)
| OtherValue (id : nat) (Ty : SILType).

Definition BuiltinInst : Type := BuiltinInstOf SILValue.

(** [BI->getArguments()[i]] / [BI->getOperand(i)]. *)
Definition Arg (BI : BuiltinInst) (i : nat) : option SILValue :=
  nth_error (getArguments BI) i.

Definition isIntegerLiteral (v : option SILValue) : bool :=
  match v with Some (IntegerLiteralInst _ _ _) => true | _ => false end.

(** [SILBuilder::createIntegerLiteral] with an APInt, and with a host
    integer, which takes the width from the type. *)
Definition createIntegerLiteral (Loc : SILLocation) (Ty : SILType)
  (V : APInt.t) : SILValue := IntegerLiteralInst Loc Ty V.
Definition createIntegerLiteralOfInt (Loc : SILLocation) (Ty : SILType)
  (V : Z) : SILValue :=
  IntegerLiteralInst Loc Ty (APInt.make (getGreatestWidth Ty) V).
Definition createFloatLiteral (Loc : SILLocation) (Ty : SILType)
  (V : APFloat) : SILValue := FloatLiteralInst Loc Ty V.
Definition createTuple (Loc : SILLocation) (Ty : SILType)
  (Elts : list SILValue) : SILValue := TupleInst Loc Ty Elts.

(** ** Diagnostics

    The diagnostic kinds with their arguments.  An integer printed in
    decimal is kept as the number printed; the text of a float literal is
    the source text when it can be recovered, the printed value otherwise. *)

Inductive FPText : Type :=
| SourceText (s : string)
| PrintedValue (v : APFloat).

Inductive Diag : Type :=
| arithmetic_operation_overflow (lhs : Z) (op : string) (rhs : Z)
                                (ty : ASTType)
| arithmetic_operation_overflow_generic_type (lhs : Z) (op : string) (rhs : Z)
                                (isSigned : bool) (width : Z)
| division_by_zero
| division_overflow (num : Z) (op : string) (den : Z)
| shifting_all_significant_bits
| integer_literal_overflow (ty : ASTType) (src : Z)
| negative_integer_literal_overflow_unsigned (ty : ASTType) (src : Z)
| integer_literal_overflow_builtin_types (dstSigned : bool) (ty : ASTType)
                                         (src : Z)
| integer_conversion_overflow (srcTy : ASTType) (dstTy : option ASTType)
| integer_conversion_overflow_builtin_types (srcSigned : bool)
    (srcTy : ASTType) (dstSigned : bool) (dstTy : ASTType)
| integer_conversion_sign_error (ty : ASTType)
| integer_literal_overflow_warn (ty : ASTType)
| integer_conversion_overflow_warn (srcTy dstTy : ASTType)
| warning_int_to_fp_inexact (ty : ASTType) (src : Z) (dest : APFloat)
| warning_float_trunc_overflow (lit : FPText) (ty : ASTType) (negative : bool)
| warning_float_trunc_underflow (lit : FPText) (ty : ASTType)
                                (negative : bool)
| warning_float_trunc_hex_inexact (lit : FPText) (ty : ASTType)
                                  (negative : bool)
| negative_fp_literal_overflow_unsigned (lit : FPText) (ty : ASTType)
                                        (isUnsigned : bool)
| float_to_int_overflow (lit : FPText) (ty : ASTType) (implicit : bool)
| wrong_non_negative_assumption (v : Z).

(** [V.toString(10, Signed)], as the number it prints. *)
Definition toDecimal (V : APInt.t) (Signed : bool) : Z :=
  if Signed then APInt.signed V else APInt.Val V.

(** ** The folding monad

    Every folding routine receives [Optional<bool> &ResultsInError] and may
    emit diagnostics on the module's diagnostic engine: both are threaded as
    state.  A routine returns the replacement value, [None] for [nullptr]. *)

Record FoldState : Type :=
  mkFoldState { ResultsInError : option bool; Emitted : list Diag }.

Definition Fold (A : Type) : Type := FoldState -> A * FoldState.

Definition ret {A : Type} (a : A) : Fold A := fun s => (a, s).
Definition bind {A B : Type} (m : Fold A) (k : A -> Fold B) : Fold B :=
  fun s => let (a, s') := m s in k a s'.

Declare Scope fold_scope.
Delimit Scope fold_scope with fold.
Notation "x <- m ;; k" := (bind m (fun x => k))
  (at level 61, m at next level, right associativity) : fold_scope.
Notation "m ;; k" := (bind m (fun _ => k))
  (at level 61, right associativity) : fold_scope.
#[local] Open Scope fold_scope.

(** [diagnose(Context, loc, diag, args...)]. *)
Definition diagnose (d : Diag) : Fold unit :=
  fun s => (tt, mkFoldState (ResultsInError s) (Emitted s ++ [d])).
(** [ResultsInError = Optional<bool>(true)]. *)
Definition setResultsInError : Fold unit :=
  fun s => (tt, mkFoldState (Some true) (Emitted s)).
(** [ResultsInError.hasValue()]. *)
Definition hasValue : Fold bool :=
  fun s => (match ResultsInError s with Some _ => true | None => false end, s).

Definition nullptr : option SILValue := None.

(** Running a routine from a given flag, with nothing emitted yet. *)
Definition runFold {A : Type} (m : Fold A) (RIE : option bool) : A * FoldState :=
  m (mkFoldState RIE []).

Scheme Equality for BuiltinValueKind.

(** ** The numeric kernel: folding on values *)

(** [swift::constantFoldBitOperation]. *)
Definition constantFoldBitOperation (lhs rhs : APInt.t)
  (ID : BuiltinValueKind) : APInt.t :=
  match ID with
  | And => APInt.and lhs rhs
  | AShr => APInt.ashr lhs rhs
  | LShr => APInt.lshr lhs rhs
  | Or => APInt.or lhs rhs
  | Shl => APInt.shl lhs rhs
  | Xor => APInt.xor lhs rhs
  | _ => lhs (* llvm_unreachable("Not all cases are covered!") *)
  end.

(** [swift::constantFoldComparison]. *)
Definition constantFoldComparison (lhs rhs : APInt.t)
  (ID : BuiltinValueKind) : APInt.t :=
  let result :=
    match ID with
    | ICMP_EQ => APInt.eqb lhs rhs
    | ICMP_NE => APInt.neb lhs rhs
    | ICMP_SLT => APInt.slt lhs rhs
    | ICMP_SGT => APInt.sgt lhs rhs
    | ICMP_SLE => APInt.sle lhs rhs
    | ICMP_SGE => APInt.sge lhs rhs
    | ICMP_ULT => APInt.ult lhs rhs
    | ICMP_UGT => APInt.ugt lhs rhs
    | ICMP_ULE => APInt.ule lhs rhs
    | ICMP_UGE => APInt.uge lhs rhs
    | _ => false (* llvm_unreachable("Invalid integer compare kind") *)
    end in
  APInt.make 1 (Z.b2z result).

(** [swift::constantFoldBinaryWithOverflow] on values: the result and the
    [Overflow] out-parameter. *)
Definition constantFoldBinaryWithOverflow (lhs rhs : APInt.t)
  (ID : IntrinsicID) : APInt.t * bool :=
  match ID with
  | sadd_with_overflow => APInt.sadd_ov lhs rhs
  | uadd_with_overflow => APInt.uadd_ov lhs rhs
  | ssub_with_overflow => APInt.ssub_ov lhs rhs
  | usub_with_overflow => APInt.usub_ov lhs rhs
  | smul_with_overflow => APInt.smul_ov lhs rhs
  | umul_with_overflow => APInt.umul_ov lhs rhs
  | _ => (lhs, false) (* llvm_unreachable("Invalid case") *)
  end.

(** [swift::constantFoldDiv]; the caller has checked [rhs != 0]. *)
Definition constantFoldDiv (lhs rhs : APInt.t) (ID : BuiltinValueKind)
  : APInt.t * bool :=
  match ID with
  | SDiv => APInt.sdiv_ov lhs rhs
  | SRem =>
      (* Check for overflow *)
      let (Div, Overflow) := APInt.sdiv_ov lhs rhs in
      (APInt.srem lhs rhs, Overflow)
  | UDiv => (APInt.udiv lhs rhs, false)
  | URem => (APInt.urem lhs rhs, false)
  | _ => (lhs, false) (* llvm_unreachable("Invalid case") *)
  end.

(** [swift::constantFoldCast]. *)
Definition constantFoldCast (val : APInt.t) (BI : BuiltinInfo) : APInt.t :=
  let SrcTy := TypesAt BI 0 in
  let SrcBitWidth := getGreatestWidth SrcTy in
  let DestBitWidth :=
    if (List.length (Types BI) =? 2)%nat
    then getGreatestWidth (TypesAt BI 1) else 0 in
  if SrcBitWidth =? DestBitWidth then val
  else match ID BI with
       | Trunc | TruncOrBitCast => APInt.trunc val DestBitWidth
       | ZExt | ZExtOrBitCast => APInt.zext val DestBitWidth
       | SExt | SExtOrBitCast => APInt.sext val DestBitWidth
       | _ => val (* llvm_unreachable("Invalid case.") *)
       end.

(** ** The builtin folder *)

(** Construct the (int, overflow) result tuple. *)
Definition constructResultWithOverflowTuple (BI : BuiltinInst)
  (Res : APInt.t) (Overflow : bool) : SILValue :=
  let FuncResType := getType BI in
  let ResTy1 := getTupleElementType FuncResType 0 in
  let ResTy2 := getTupleElementType FuncResType 1 in
  let Loc := getLoc BI in
  createTuple Loc FuncResType
    [ createIntegerLiteral Loc ResTy1 Res;
      createIntegerLiteralOfInt Loc ResTy2 (Z.b2z Overflow) ].

(** The type of the user's operands, when the builtin was lowered from a
    call with two arguments of one type (lines 200-217). *)
Definition inferOperandType (Loc : SILLocation) : option ASTType :=
  match getAsApplyExpr Loc with
  | Some (TupleExpr [e0; e1] _, _) =>
      let LHSTy := getInOutObjectType (Expr_getType e0) in
      let RHSTy := Expr_getType e1 in
      if ASTType_eqb LHSTy RHSTy then Some (Expr_getType e1) else None
  | _ => None
  end.

(** Signedness and operator symbol of a checked intrinsic (lines 219-243). *)
Definition overflowOperator (ID : IntrinsicID) : bool * string :=
  match ID with
  | sadd_with_overflow => (true, "+")
  | uadd_with_overflow => (false, "+")
  | ssub_with_overflow => (true, "-")
  | usub_with_overflow => (false, "-")
  | smul_with_overflow => (true, "*")
  | umul_with_overflow => (false, "*")
  | _ => (false, "+") (* llvm_unreachable("Invalid case") *)
  end%string.

(** Fold arithmetic intrinsics with overflow. *)
Definition constantFoldBinaryWithOverflowInst (BI : BuiltinInst)
  (ID : IntrinsicID) (ReportOverflow : bool) : Fold (option SILValue) :=
  match Arg BI 0, Arg BI 1 with
  | Some (IntegerLiteralInst _ _ LHSInt), Some (IntegerLiteralInst _ _ RHSInt) =>
      (* Calculate the result. *)
      let (Res, Overflow) := constantFoldBinaryWithOverflow LHSInt RHSInt ID in
      has <- hasValue ;;
      if has && Overflow && ReportOverflow then
        if isSpecialization BI then
          (* Do not report any constant propagation issues in
             specializations. *)
          ret nullptr
        else
          let OpType := inferOperandType (getLoc BI) in
          let (Signed, Operator) := overflowOperator ID in
          diagnose
            match OpType with
            | Some T =>
                arithmetic_operation_overflow
                  (toDecimal LHSInt Signed) Operator (toDecimal RHSInt Signed) T
            | None =>
                arithmetic_operation_overflow_generic_type
                  (toDecimal LHSInt Signed) Operator (toDecimal RHSInt Signed)
                  Signed (APInt.getBitWidth LHSInt)
            end ;;
          setResultsInError ;;
          ret (Some (constructResultWithOverflowTuple BI Res Overflow))
      else
        ret (Some (constructResultWithOverflowTuple BI Res Overflow))
  | _, _ =>
      (* If either Op1 or Op2 is not a literal, we cannot do anything. *)
      ret nullptr
  end.

(** Modelled from the spec: [getLLVMIntrinsicIDForBuiltinWithOverflow]
    (lib/AST/Builtins.cpp) is not among the sources; each checked builtin
    [{S,U}{Add,Sub,Mul}Over] names the LLVM intrinsic
    [{s,u}{add,sub,mul}_with_overflow] of the same signedness and
    operation. *)
Definition getLLVMIntrinsicIDForBuiltinWithOverflow (ID : BuiltinValueKind)
  : IntrinsicID :=
  match ID with
  | SAddOver => sadd_with_overflow
  | UAddOver => uadd_with_overflow
  | SSubOver => ssub_with_overflow
  | USubOver => usub_with_overflow
  | SMulOver => smul_with_overflow
  | UMulOver => umul_with_overflow
  | _ => not_intrinsic
  end.

(** The overload on builtin kinds: the third operand is the "report
    overflow" flag. *)
Definition constantFoldBinaryWithOverflowBuiltin (BI : BuiltinInst)
  (ID : BuiltinValueKind) : Fold (option SILValue) :=
  let ShouldReportFlag :=
    match Arg BI 2 with
    | Some (IntegerLiteralInst _ _ V) => APInt.eqz V 1
    | _ => false
    end in
  constantFoldBinaryWithOverflowInst BI
    (getLLVMIntrinsicIDForBuiltinWithOverflow ID) ShouldReportFlag.

Definition constantFoldIntrinsic (BI : BuiltinInst) (ID : IntrinsicID)
  : Fold (option SILValue) :=
  match ID with
  | expect =>
      (* An expect of an integral constant is the constant itself. *)
      match Arg BI 0 with
      | Some (IntegerLiteralInst L T V) => ret (Some (IntegerLiteralInst L T V))
      | _ => ret nullptr
      end
  | ctlz =>
      match Arg BI 0 with
      | Some (IntegerLiteralInst _ LHSTy LHSI) =>
          (* Check corner-case of source == zero *)
          if APInt.eqz LHSI 0 then
            match Arg BI 1 with
            | Some (IntegerLiteralInst _ _ RHSV) =>
                if negb (APInt.eqz RHSV 0) then ret nullptr (* Undefined *)
                else
                  ret (Some (createIntegerLiteral (getLoc BI) LHSTy
                               (APInt.make (APInt.getBitWidth LHSI)
                                           (APInt.getBitWidth LHSI))))
            | _ => ret nullptr
            end
          else
            ret (Some (createIntegerLiteral (getLoc BI) LHSTy
                         (APInt.make (APInt.getBitWidth LHSI)
                                     (APInt.countLeadingZeros LHSI))))
      | _ => ret nullptr
      end
  | sadd_with_overflow | uadd_with_overflow
  | ssub_with_overflow | usub_with_overflow
  | smul_with_overflow | umul_with_overflow =>
      constantFoldBinaryWithOverflowInst BI ID (* ReportOverflow *) false
  | _ => ret nullptr
  end.

(** ** The pattern folder for comparisons

    The matchers of swift/SIL/PatternMatch.h the folder uses, on operands. *)

(** [m_Zero()] and [m_One()]: an integer literal of that value. *)
Definition m_Zero (v : option SILValue) : bool :=
  match v with Some (IntegerLiteralInst _ _ V) => APInt.eqz V 0 | _ => false end.
Definition m_One (v : option SILValue) : bool :=
  match v with Some (IntegerLiteralInst _ _ V) => APInt.eqz V 1 | _ => false end.

(** [m_SILValue(Other)] and [m_ValueBase()]: any operand. *)
Definition m_SILValue (v : option SILValue) : bool :=
  match v with Some _ => true | None => false end.

(** [m_IntegerLiteralInst(IntMax)]: binds the literal's value. *)
Definition m_IntegerLiteralInst (v : option SILValue) : option APInt.t :=
  match v with Some (IntegerLiteralInst _ _ V) => Some V | _ => None end.

(** [m_BuiltinInst(AssumeNonNegative, m_ValueBase())]. *)
Definition MatchNonNegative (v : option SILValue) : bool :=
  match v with
  | Some (BuiltinValue B) =>
      BuiltinValueKind_beq (ID (getBuiltinInfo B)) AssumeNonNegative
      && m_SILValue (Arg B 0)
  | _ => false
  end.

(** [m_BuiltinInst(LShr, m_ValueBase(), m_IntegerLiteralInst(ShiftCount))]. *)
Definition matchLShrByLiteral (v : option SILValue) : option APInt.t :=
  match v with
  | Some (BuiltinValue B) =>
      if BuiltinValueKind_beq (ID (getBuiltinInfo B)) LShr
         && m_SILValue (Arg B 0)
      then m_IntegerLiteralInst (Arg B 1) else None
  | _ => None
  end.

(** [m_TupleExtractInst(m_BuiltinInst(BIOp), 0)]. *)
Definition matchTupleExtract0OfBuiltin (v : option SILValue)
  : option BuiltinInst :=
  match v with
  | Some (TupleExtractInst _ _ (BuiltinValue B) 0%nat) => Some B
  | _ => None
  end.

(** [IntMax] bound by the matcher and [IntMax->getValue().isMaxSignedValue()]. *)
Definition isIntMax (v : option SILValue) : bool :=
  match m_IntegerLiteralInst v with
  | Some V => APInt.isMaxSignedValue V
  | None => false
  end.

(** Is the operand a logical shift right by a strictly positive literal? *)
Definition isLShrByPositive (v : option SILValue) : bool :=
  match matchLShrByLiteral v with
  | Some ShiftCount => APInt.isStrictlyPositive ShiftCount
  | None => false
  end.

(** Was [BIOp] an unsigned operation with an overflow check? *)
Definition isCheckedUnsignedOp (BIOp : option BuiltinInst) : bool :=
  match BIOp with
  | Some B =>
      match ID (getBuiltinInfo B) with
      | UAddOver | USubOver | UMulOver => m_One (Arg B 2)
      | _ => false
      end
  | None => false
  end.

(** [BI->getBuiltinInfo().ID]. *)
Definition getBuiltinKind (BI : BuiltinInst) : BuiltinValueKind :=
  ID (getBuiltinInfo BI).

Definition constantFoldCompare (BI : BuiltinInst) (ID : BuiltinValueKind)
  : option SILValue :=
  (* [m_BuiltinInst(Kind, ...)] reads the kind off the instruction. *)
  let is_ K := BuiltinValueKind_beq (getBuiltinKind BI) K in
  let A0 := Arg BI 0 in
  let A1 := Arg BI 1 in
  let false_ := Some (createIntegerLiteral (getLoc BI) (getType BI) APInt.default) in
  let true_ := Some (createIntegerLiteral (getLoc BI) (getType BI) (APInt.make 1 1)) in
  match A0, A1 with
  | Some (IntegerLiteralInst _ _ LHS), Some (IntegerLiteralInst _ _ RHS) =>
      (* Fold for integer constant arguments. *)
      Some (createIntegerLiteral (getLoc BI) (getType BI)
              (constantFoldComparison LHS RHS ID))
  | _, _ =>
  (* Comparisons of an unsigned value with 0. *)
  if (is_ ICMP_ULT && m_SILValue A0 && m_Zero A1)
     || (is_ ICMP_UGT && m_Zero A0 && m_SILValue A1)
     || (is_ ICMP_SLT && MatchNonNegative A0 && m_Zero A1)
     || (is_ ICMP_SGT && m_Zero A0 && MatchNonNegative A1)
  then false_
  else if (is_ ICMP_UGE && m_SILValue A0 && m_Zero A1)
     || (is_ ICMP_ULE && m_Zero A0 && m_SILValue A1)
     || (is_ ICMP_SGE && MatchNonNegative A0 && m_Zero A1)
     || (is_ ICMP_SLE && m_Zero A0 && MatchNonNegative A1)
  then true_
  (* Comparisons with Int.Max: check signed comparisons. *)
  else if (is_ ICMP_SLT && isIntMax A0 && m_SILValue A1)
     || (is_ ICMP_SGT && m_SILValue A0 && isIntMax A1)
  then false_
  else if (is_ ICMP_SGE && isIntMax A0 && m_SILValue A1)
     || (is_ ICMP_SLE && m_SILValue A0 && isIntMax A1)
  then true_
  (* For any x of the same size as Int.max and n>=1, (x>>n) is always
     <= Int.max. *)
  else if ((is_ ICMP_UGE || is_ ICMP_SGE) && isIntMax A0 && isLShrByPositive A1)
     || ((is_ ICMP_ULE || is_ ICMP_SLE) && isIntMax A1 && isLShrByPositive A0)
  then true_
  (* At the same time (x>>n) > Int.max and Int.max < (x>>n) is false. *)
  else if ((is_ ICMP_ULT || is_ ICMP_SLT) && isIntMax A0 && isLShrByPositive A1)
     || ((is_ ICMP_UGT || is_ ICMP_SGT) && isIntMax A1 && isLShrByPositive A0)
  then false_
  (* Fold x < 0 into false, if x is known to be a result of an unsigned
     operation with overflow checks enabled. *)
  else if is_ ICMP_SLT && m_Zero A1
          && isCheckedUnsignedOp (matchTupleExtract0OfBuiltin A0)
  then false_
  (* Fold x >= 0 into true, likewise. *)
  else if is_ ICMP_SGE && m_Zero A1
          && isCheckedUnsignedOp (matchTupleExtract0OfBuiltin A0)
  then true_
  else nullptr
  end.

(** ** Division *)

Definition constantFoldAndCheckDivision (BI : BuiltinInst)
  (ID : BuiltinValueKind) : Fold (option SILValue) :=
  (* Get the denominator. *)
  match Arg BI 1 with
  | Some (IntegerLiteralInst _ _ DenomVal) =>
      (* If the denominator is zero... *)
      if APInt.eqz DenomVal 0 then
        has <- hasValue ;;
        (* And if we are not asked to report errors, just return nullptr. *)
        if negb has then ret nullptr
        else
          (* Otherwise emit a diagnosis error and set ResultsInError. *)
          diagnose division_by_zero ;;
          setResultsInError ;;
          ret nullptr
      else
        (* Get the numerator. *)
        match Arg BI 0 with
        | Some (IntegerLiteralInst _ _ NumVal) =>
            let (ResVal, Overflowed) := constantFoldDiv NumVal DenomVal ID in
            (* If we overflowed... *)
            if Overflowed then
              has <- hasValue ;;
              if negb has then ret nullptr
              else
                let IsRem :=
                  BuiltinValueKind_beq ID SRem || BuiltinValueKind_beq ID URem in
                diagnose (division_overflow
                            (toDecimal NumVal true)
                            (if IsRem then "%" else "/")%string
                            (toDecimal DenomVal true)) ;;
                setResultsInError ;;
                ret nullptr
            else
              (* Add the literal instruction to represent the result of the
                 division. *)
              ret (Some (createIntegerLiteral (getLoc BI) (getType BI) ResVal))
        | _ => ret nullptr
        end
  | _ => ret nullptr
  end.

(** ** Checked integer conversions *)

Definition getTypeSignedness (Builtin : BuiltinInfo) : bool * bool :=
  let SrcTySigned :=
    match ID Builtin with
    | SToSCheckedTrunc | SToUCheckedTrunc | SUCheckedConversion => true
    | _ => false
    end in
  let DstTySigned :=
    match ID Builtin with
    | SToSCheckedTrunc | UToSCheckedTrunc | USCheckedConversion => true
    | _ => false
    end in
  (SrcTySigned, DstTySigned).

(** The value part of [constantFoldAndCheckIntegerConversions] (lines
    702-751): [Result], [OverflowError] and [DstTy] for a literal operand
    [SrcVal]. *)
Definition checkIntegerConversion (Builtin : BuiltinInfo) (SrcVal : APInt.t)
  : APInt.t * bool * ASTType :=
  let SrcTy := TypesAt Builtin 0 in
  let SrcBitWidth := getGreatestWidth SrcTy in
  match ID Builtin with
  | SUCheckedConversion | USCheckedConversion =>
      (* Process conversions signed <-> unsigned for same size integers.
         Report an error if the sign bit is set. *)
      (SrcVal, APInt.isNegative SrcVal, SrcTy)
  | UToSCheckedTrunc =>
      (* Process truncation from unsigned to signed:
           Result = trunc_IntTo(Val)
           Trunc  = trunc_'IntTo-1bit'(Val)
           zext_IntFrom(Trunc) == Val ? Result : overflow_error *)
      let DstTy := TypesAt Builtin 1 in
      let DstBitWidth := getGreatestWidth DstTy in
      let Result := APInt.trunc SrcVal DstBitWidth in
      let TruncVal := APInt.trunc SrcVal (DstBitWidth - 1) in
      (Result, APInt.neb SrcVal (APInt.zext TruncVal SrcBitWidth), DstTy)
  | _ =>
      (* The rest of truncations:
           Result = trunc_IntFrom_IntTo(Val)
           sext_IntFrom(Result) == Val ? Result : overflow_error, or
           zext_IntFrom(Result) == Val ? Result : overflow_error *)
      let DstTy := TypesAt Builtin 1 in
      let DstBitWidth := getGreatestWidth DstTy in
      let Result := APInt.trunc SrcVal DstBitWidth in
      let Signed :=
        match ID Builtin with SToSCheckedTrunc => true | _ => false end in
      let Ext := if Signed then APInt.sext Result SrcBitWidth
                 else APInt.zext Result SrcBitWidth in
      (Result, APInt.neb SrcVal Ext, DstTy)
  end.

(** Primitive heuristics to get the user-written types (lines 762-778). *)
Definition userConversionTypes (Loc : SILLocation)
  : option ASTType * option ASTType :=
  match getAsApplyExpr Loc with
  | Some (arg, ty) =>
      match Expr_getType arg with
      | TupleType [elt] => (Some elt, Some ty)
      | TupleType _ => (None, None)
      | argTy => (Some argTy, Some ty)
      end
  | None => (None, None)
  end.

Definition orElse (user : option ASTType) (builtinTy : ASTType) : ASTType :=
  match user with Some T => T | None => builtinTy end.

Definition constantFoldAndCheckIntegerConversions (BI : BuiltinInst)
  (Builtin : BuiltinInfo) : Fold (option SILValue) :=
  (* Check if we are converting a constant integer. *)
  match Arg BI 0 with
  | Some (IntegerLiteralInst _ _ SrcVal) =>
      let SrcTy := TypesAt Builtin 0 in
      let SrcBitWidth := getGreatestWidth SrcTy in
      let '(Result, OverflowError, DstTy) :=
        checkIntegerConversion Builtin SrcVal in
      (* Check for overflow. *)
      if OverflowError then
        has <- hasValue ;;
        if negb has then ret nullptr
        else
          let Loc := getLoc BI in
          let (UserSrcTy, UserDstTy) := userConversionTypes Loc in
          (* Assume that we are converting from a literal if the Source size
             is 2048. *)
          let Literal := SrcBitWidth =? 2048 in
          let (SrcTySigned, DstTySigned) := getTypeSignedness Builtin in
          diagnose
            (if negb (SourceLocValid Loc) then
               if Literal then integer_literal_overflow_warn (orElse UserDstTy DstTy)
               else integer_conversion_overflow_warn
                      (orElse UserSrcTy SrcTy) (orElse UserDstTy DstTy)
             else if Literal then
               let SrcAsString := toDecimal SrcVal SrcTySigned in
               match UserDstTy with
               | Some UDst =>
                   if SrcTySigned && negb DstTySigned && APInt.isNegative SrcVal
                   then negative_integer_literal_overflow_unsigned UDst SrcAsString
                   else integer_literal_overflow UDst SrcAsString
               | None =>
                   integer_literal_overflow_builtin_types DstTySigned DstTy
                     SrcAsString
               end
             else
               match ID Builtin with
               | SUCheckedConversion =>
                   integer_conversion_sign_error (orElse UserDstTy DstTy)
               | _ =>
                   match UserSrcTy with
                   | Some USrc => integer_conversion_overflow USrc UserDstTy
                   | None =>
                       integer_conversion_overflow_builtin_types
                         SrcTySigned SrcTy DstTySigned DstTy
                   end
               end) ;;
          setResultsInError ;;
          ret nullptr
      else
        (* The call to the builtin should be replaced with the constant
           value. *)
        ret (Some (constructResultWithOverflowTuple BI Result false))
  | _ => ret nullptr
  end.

(** ** Float literals in the source *)

(** The loop of [tryExtractLiteralText] and [isHexLiteralInSource]: step
    through folded single-argument constructor calls (only the implicit ones
    when [implicitOnly]) down to the expression they wrap. *)
Fixpoint lookThroughConstructorCalls (implicitOnly : bool) (expr : Expr)
  {struct expr} : Expr :=
  match expr with
  | ApplyExpr CallExprKind implicit fn arg _ =>
      if (implicitOnly && negb implicit)
         || negb (getNumArguments arg =? 1)%nat
         || negb (isConstructorRefCallExpr fn)
      then expr
      else match arg with
           | TupleExpr (e0 :: _) _ => lookThroughConstructorCalls implicitOnly e0
           | _ => expr
           end
  | _ => expr
  end.

(** [tryExtractLiteralText]: the literal text the way it appears in the AST,
    [None] when the extraction is unsuccessful. *)
Definition tryExtractLiteralText (flitLoc : SILLocation) : option string :=
  match ASTNode flitLoc with
  | None => None
  | Some expr =>
      match lookThroughConstructorCalls false expr with
      | FloatLiteralExpr negative digits _ =>
          Some ((if negative then "-" else "") ++ digits)%string
      | _ => None
      end
  end.

(** The text handed to a float-to-int diagnostic. *)
Definition literalTextOrValue (flitLoc : SILLocation) (v : APFloat) : FPText :=
  match tryExtractLiteralText flitLoc with
  | Some s => SourceText s
  | None => PrintedValue v
  end.

(** Is the float literal written in hex-float notation in the source? *)
Definition isHexLiteralInSource (flitLoc : SILLocation) : bool :=
  match ASTNode flitLoc with
  | None => false
  | Some expr =>
      match lookThroughConstructorCalls true expr with
      | FloatLiteralExpr _ digits _ => String.prefix "0x" digits
      | _ => false
      end
  end.

(** ** Lossy underflow *)

(** Captures the layout of IEEE754 floating point values. *)
Record IEEESemantics : Type :=
  mkIEEESemantics { bitWidth : Z; exponentBitWidth : Z;
                    significandBitWidth : Z; (* Ignores the integer part. *)
                    explicitIntegerPart : bool; minExponentOf : Z }.

Definition makeIEEESemantics (bits expBits sigBits : Z)
  (explicitIntPart : bool) : IEEESemantics :=
  mkIEEESemantics bits expBits sigBits explicitIntPart
                  (- (Z.shiftl 1 (expBits - 1)) + 2).

Definition getFPSemantics (fpType : FPKind) : IEEESemantics :=
  match fpType with
  | IEEE32 => makeIEEESemantics 32 8 23 false
  | IEEE64 => makeIEEESemantics 64 11 52 false
  | IEEE80 => makeIEEESemantics 80 15 63 true
  end.

(** Given the exponent and significand of a binary fraction equalling
    [1.srcSignificand x 2^srcExponent], does converting the value to
    [destSem] underflow with reduced significand precision?  The narrowing
    of the C integer types is written out ([uint8_t], [unsigned]); the
    mask [1 << additionalLoss] is an [int] shift, defined in C for counts
    below 31 only. *)
Definition isLossyUnderflowOf (srcExponent srcSignificand : Z)
  (srcSem destSem : IEEESemantics) : bool :=
  if minExponentOf destSem <=? srcExponent then false
  (* Is the value smaller than the smallest non-zero value of destSem? *)
  else if srcExponent <? minExponentOf destSem - significandBitWidth destSem
  then true
  else
    (* Truncate the significand to the significand width of destSem. *)
    let bitWidthDecrease :=
      (significandBitWidth srcSem - significandBitWidth destSem) mod 2 ^ 8 in
    let truncSignificand :=
      if 0 <? bitWidthDecrease then Z.shiftr srcSignificand bitWidthDecrease
      else srcSignificand in
    (* The significand bits lost due to subnormal form. *)
    let additionalLoss := (minExponentOf destSem - srcExponent + 1) mod 2 ^ 32 in
    (* Check whether a set LSB is lost due to subnormal representation. *)
    let lostLSBBitMask := (Z.shiftl 1 additionalLoss - 1) mod 2 ^ 32 in
    negb (Z.land truncSignificand lostLSBBitMask =? 0).

(** The same for an APFloat value. *)
Definition isLossyUnderflow (srcVal : APFloat) (srcType destType : FPKind)
  : bool :=
  if APFloatM.isNaN srcVal || APFloatM.isZero srcVal
     || APFloatM.isInfinity srcVal
  then false
  else
    let srcSem := getFPSemantics srcType in
    let destSem := getFPSemantics destType in
    if bitWidth srcSem <=? bitWidth destSem then false
    else if APFloatM.isDenormal srcVal then
      (* A denormal value of a larger IEEE FP type will definitely reduce to
         zero when truncated to smaller IEEE FP type. *)
      true
    else
      let significand_ :=
        APFloatM.bitPatternLoBits srcVal (significandBitWidth srcSem) in
      isLossyUnderflowOf (APFloatM.ilogb srcVal) significand_ srcSem destSem.

(** ** Explicit initializers *)

Definition optionString_eqb (a b : option string) : bool :=
  match a, b with
  | Some x, Some y => String.eqb x y
  | _, _ => false
  end.

Definition maybeExplicitFPCons (Ctx : ASTContext) (BI : BuiltinInst) : bool :=
  match getAsCallExpr (getLoc BI) with
  | None => true (* not enough information here, so err on the safer side. *)
  | Some (implicit, fn, _, ty) =>
      if negb (isConstructorRefCallExpr fn) then true
      else if negb implicit then true
      else
        (* Here, the 'callExpr' is an implicit FP construction.  An implicit
           construction of Double could be a part of an explicit conversion:
           suppress the warning. *)
        let typeDecl := getAnyNominal ty in
        optionString_eqb typeDecl (getDoubleDecl Ctx)
  end.

(** [castTo<BuiltinFloatType>()->getFPKind()] (the cast asserts the type is
    a builtin float). *)
Definition getFPKind (T : ASTType) : FPKind :=
  match T with BuiltinFloatType k => k | _ => IEEE32 end.

Section Folder.

Context {FP : APFloatOps}.
Variable Ctx : ASTContext.

(** ** Binary operations *)

(** Fold binary operations. *)
Definition constantFoldBinary (BI : BuiltinInst) (ID : BuiltinValueKind)
  : Fold (option SILValue) :=
  match ID with
  (* Not supported yet (not easily computable for APInt). *)
  | ExactSDiv | ExactUDiv => ret nullptr
  (* Not supported now. *)
  | FRem => ret nullptr
  (* Fold constant division operations and report div by zero. *)
  | SDiv | SRem | UDiv | URem => constantFoldAndCheckDivision BI ID
  (* Are there valid uses for these in stdlib? *)
  | Add | Mul | Sub => ret nullptr
  | And | AShr | LShr | Or | Shl | Xor =>
      match Arg BI 0, Arg BI 1 with
      | Some (IntegerLiteralInst _ _ LHSI), Some (IntegerLiteralInst _ _ RHSI) =>
          let IsShift :=
            match ID with AShr | LShr | Shl => true | _ => false end in
          (* Reject shifting all significant bits *)
          if IsShift && (APInt.getBitWidth LHSI <=? APInt.getZExtValue RHSI)
          then
            diagnose shifting_all_significant_bits ;;
            setResultsInError ;;
            ret nullptr
          else
            let ResI := constantFoldBitOperation LHSI RHSI ID in
            (* Add the literal instruction to represent the result. *)
            ret (Some (createIntegerLiteral (getLoc BI) (getType BI) ResI))
      | _, _ => ret nullptr
      end
  | FAdd | FDiv | FMul | FSub =>
      match Arg BI 0, Arg BI 1 with
      | Some (FloatLiteralInst _ _ LHSF), Some (FloatLiteralInst _ _ RHSF) =>
          let ResF :=
            match ID with
            | FAdd => fp_add LHSF RHSF
            | FDiv => fp_divide LHSF RHSF
            | FMul => fp_multiply LHSF RHSF
            | _ => fp_subtract LHSF RHSF
            end in
          (* Add the literal instruction to represent the result. *)
          ret (Some (createFloatLiteral (getLoc BI) (getType BI) ResF))
      | _, _ => ret nullptr
      end
  | _ => ret nullptr (* llvm_unreachable: not a BUILTIN_BINARY_OPERATION *)
  end.

(** ** Float to integer *)

Definition foldFPToIntConversion (BI : BuiltinInst) (Builtin : BuiltinInfo)
  : Fold (option SILValue) :=
  let conversionToUnsigned := BuiltinValueKind_beq (ID Builtin) FPToUI in
  match Arg BI 0 with
  | Some (FloatLiteralInst flitLoc _ fpVal) =>
      let destTy := TypesAt Builtin 1 in
      let CE := getAsApplyExpr (getLoc BI) in
      (* Check non-negativeness of 'fpVal' for conversion to unsigned int. *)
      if conversionToUnsigned && APFloatM.isNegative fpVal
         && negb (APFloatM.isZero fpVal)
      then
        (* Stop folding and emit diagnostics if enabled. *)
        has <- hasValue ;;
        (if has then
           diagnose (negative_fp_literal_overflow_unsigned
                       (literalTextOrValue flitLoc fpVal)
                       (match CE with Some (_, ty) => ty | None => destTy end)
                       (match CE with Some _ => false
                                    | None => conversionToUnsigned end)) ;;
           setResultsInError
         else ret tt) ;;
        ret nullptr
      else
        let (resInt, status) :=
          fp_convertToInteger fpVal (getGreatestWidth destTy)
                              conversionToUnsigned in
        if hasStatus status opInvalidOp then
          (* Stop folding and emit diagnostics if enabled. *)
          has <- hasValue ;;
          (if has then
             diagnose (float_to_int_overflow
                         (literalTextOrValue flitLoc fpVal)
                         (match CE with Some (_, ty) => ty | None => destTy end)
                         (match ASTNode (getLoc BI) with
                          | Some (ApplyExpr _ implicit _ _ _) => implicit
                          | _ => false
                          end)) ;;
             setResultsInError
           else ret tt) ;;
          ret nullptr
        else if negb (status =? opOK) && negb (status =? opInexact) then
          ret nullptr
        else
          (* The call to the builtin should be replaced with the constant
             value. *)
          ret (Some (createIntegerLiteral (getLoc BI) (getType BI) resInt))
  | _ => ret nullptr
  end.

(** ** Float truncation *)

Definition foldFPTrunc (BI : BuiltinInst) (Builtin : BuiltinInfo)
  : Fold (option SILValue) :=
  match Arg BI 0 with
  | Some (FloatLiteralInst flitLoc _ flitVal) =>
      let Loc := getLoc BI in
      let srcType := getFPKind (TypesAt Builtin 0) in
      let destType := getFPKind (TypesAt Builtin 1) in
      let (truncVal, status) :=
        fp_convert flitVal (getAPFloatSemantics destType) in
      (* Emit a warning if (a) the source value overflows the destination
         type, or (b) the source value is tiny and the tininess results in
         additional loss of precision, or (c) the source value is a hex-float
         literal that cannot be precisely represented in the destination
         type.  Suppress all warnings if the conversion is made through an
         explicit constructor invocation. *)
      has <- hasValue ;;
      (if has && negb (maybeExplicitFPCons Ctx BI) then
         let overflow := hasStatus status opOverflow in
         let tinynInexact := isLossyUnderflow flitVal srcType destType in
         let hexnInexact :=
           negb (status =? opOK) && isHexLiteralInSource flitLoc in
         if overflow || tinynInexact || hexnInexact then
           let fplitStr :=
             SourceText (match tryExtractLiteralText flitLoc with
                         | Some s => s | None => "" end) in
           let userType :=
             match getAsApplyExpr Loc with
             | Some (_, ty) => ty
             | None => TypesAt Builtin 1
             end in
           diagnose
             ((if overflow then warning_float_trunc_overflow
               else if hexnInexact then warning_float_trunc_hex_inexact
               else warning_float_trunc_underflow)
                fplitStr userType (APFloatM.isNegative truncVal)) ;;
           setResultsInError
         else ret tt
       else ret tt) ;;
      (* Abort folding if we have subnormality, NaN or opInvalid status. *)
      if hasStatus status opInvalidOp || hasStatus status opDivByZero
         || hasStatus status opUnderflow || APFloatM.isDenormal truncVal
      then ret nullptr
      else
        (* Allow folding if there is no loss, overflow or normal imprecision
           (i.e., opOverflow, opOk, or opInexact). *)
        ret (Some (createFloatLiteral Loc (getType BI) truncVal))
  | _ => ret nullptr (* We can fold only compile-time constant arguments. *)
  end.

(** ** Dispatch on the builtin *)

Definition constantFoldBuiltin (BI : BuiltinInst) : Fold (option SILValue) :=
  let Intrinsic := getIntrinsicInfo BI in
  (* If it's an llvm intrinsic, fold the intrinsic. *)
  match Intrinsic with
  | not_intrinsic =>
  (* Otherwise, it should be one of the builtin functions. *)
  let Builtin := getBuiltinInfo BI in
  match ID Builtin with
  (* Check and fold binary arithmetic with overflow. *)
  | SAddOver | UAddOver | SSubOver | USubOver | SMulOver | UMulOver =>
      constantFoldBinaryWithOverflowBuiltin BI (ID Builtin)
  | Add | FAdd | And | AShr | LShr | Or | FDiv | Mul | FMul | SDiv
  | ExactSDiv | Shl | SRem | Sub | FSub | UDiv | ExactUDiv | URem | FRem
  | Xor =>
      constantFoldBinary BI (ID Builtin)
  (* Fold comparison predicates. *)
  | ICMP_EQ | ICMP_NE | ICMP_SLT | ICMP_SGT | ICMP_SLE | ICMP_SGE
  | ICMP_ULT | ICMP_UGT | ICMP_ULE | ICMP_UGE =>
      ret (constantFoldCompare BI (ID Builtin))
  | Trunc | ZExt | SExt | TruncOrBitCast | ZExtOrBitCast | SExtOrBitCast =>
      (* We can fold if the value being cast is a constant. *)
      match Arg BI 0 with
      | Some (IntegerLiteralInst _ _ V) =>
          let CastResV := constantFoldCast V Builtin in
          (* Add the literal instruction to represent the result of the
             cast. *)
          ret (Some (createIntegerLiteral (getLoc BI) (getType BI) CastResV))
      | _ => ret nullptr
      end
  (* Process special builtins that are designed to check for overflows in
     integer conversions. *)
  | SToSCheckedTrunc | UToUCheckedTrunc | SToUCheckedTrunc | UToSCheckedTrunc
  | SUCheckedConversion | USCheckedConversion =>
      constantFoldAndCheckIntegerConversions BI Builtin
  | IntToFPWithOverflow =>
      (* Get the value. It should be a constant in most cases. *)
      match Arg BI 0 with
      | Some (IntegerLiteralInst _ _ SrcVal) =>
          let DestTy := TypesAt Builtin 1 in
          let (TruncVal, ConversionStatus) :=
            fp_convertFromAPInt (getAPFloatSemantics (getFPKind DestTy))
                                SrcVal (* IsSigned *) true in
          let Loc := getLoc BI in
          let userType :=
            match getAsApplyExpr Loc with
            | Some (_, ty) => ty
            | None => DestTy
            end in
          let overflow := hasStatus ConversionStatus opOverflow in
          let inexact := hasStatus ConversionStatus opInexact in
          if overflow || inexact then
            (* Check if diagnostics is enabled. If so, make sure to suppress
               warnings for conversions through explicit initializers, but do
               not suppress errors. *)
            has <- hasValue ;;
            (if has && (overflow || negb (maybeExplicitFPCons Ctx BI)) then
               let SrcAsString := toDecimal SrcVal true in
               diagnose
                 (if overflow then integer_literal_overflow userType SrcAsString
                  else warning_int_to_fp_inexact userType SrcAsString TruncVal) ;;
               setResultsInError
             else ret tt) ;;
            (* If there is an overflow, just return nullptr as this is
               undefined behavior. Otherwise, continue folding as in the
               normal workflow. *)
            if overflow then ret nullptr
            else ret (Some (createFloatLiteral Loc (getType BI) TruncVal))
          else
            (* The call to the builtin should be replaced with the constant
               value. *)
            ret (Some (createFloatLiteral Loc (getType BI) TruncVal))
      | _ => ret nullptr
      end
  | FPTrunc => foldFPTrunc BI Builtin
  (* Conversions from floating point to integer. *)
  | FPToSI | FPToUI => foldFPToIntConversion BI Builtin
  | AssumeNonNegative =>
      match Arg BI 0 with
      | Some (IntegerLiteralInst L T VInt) =>
          has <- hasValue ;;
          (if APInt.isNegative VInt && has then
             diagnose (wrong_non_negative_assumption (toDecimal VInt true)) ;;
             setResultsInError
           else ret tt) ;;
          ret (Some (IntegerLiteralInst L T VInt))
      | _ => ret nullptr
      end
  | AssertConf | CondUnreachable | OtherBuiltin => ret nullptr
  end
  | _ => constantFoldIntrinsic BI Intrinsic
  end.

(** [Struct->getOperandForField(Field)]. *)
Fixpoint getOperandForField (Fields : list (string * SILValue))
  (Field : string) : option SILValue :=
  match Fields with
  | [] => None
  | (f, v) :: rest =>
      if String.eqb f Field then Some v else getOperandForField rest Field
  end.

Definition constantFoldInstruction (I : SILValue) : Fold (option SILValue) :=
  match I with
  (* Constant fold function calls. *)
  | BuiltinValue BI => constantFoldBuiltin BI
  (* Constant fold extraction of a constant element. *)
  | TupleExtractInst _ _ (TupleInst _ _ Elements) FieldNo =>
      ret (nth_error Elements FieldNo)
  (* Constant fold extraction of a constant struct element. *)
  | StructExtractInst _ _ (StructInst _ _ Fields) Field =>
      ret (getOperandForField Fields Field)
  (* Constant fold indexing insts of a 0 integer literal. *)
  | IndexingInst _ _ Base (IntegerLiteralInst _ _ IntLiteral) =>
      if APInt.isNullValue IntLiteral then ret (Some Base) else ret nullptr
  | _ => ret nullptr
  end.

(** ** The driver's step on one user of a literal (lines 1585-1672)

    What [processWorkList] does with one user of the popped literal: whether
    the user is skipped because it is in the error set, enqueued because it
    is an aggregate, and otherwise the outcome of folding it. *)

Record UserStep : Type :=
  mkUserStep { skippedInErrorSet : bool;
               enqueuedAggregate : bool;
               condFailForDCE : bool;
               addedToErrorSet : bool;
               replacement : option SILValue;
               diagnostics : list Diag }.

Definition isAggregate (User : SILValue) : bool :=
  match User with StructInst _ _ _ | TupleInst _ _ _ => true | _ => false end.

Definition foldUser (EnableDiagnostics : bool) (inErrorSet : bool)
  (User : SILValue) : UserStep :=
  (* Do not try to fold it again if we had previously produced an error
     while folding it. *)
  if inErrorSet then mkUserStep true false false false None []
  (* Some constant users may indirectly cause folding of their users. *)
  else if isAggregate User then mkUserStep false true false false None []
  else
    (* Always consider cond_fail instructions as potential for DCE. *)
    let isCondFail :=
      match User with CondFailInst _ _ => true | _ => false end in
    (* Initialize ResultsInError as a None optional; if we are asked to emit
       diagnostics, override it with a Some optional initialized to false. *)
    let RIE := if EnableDiagnostics then Some false else None in
    (* Try to fold the user. *)
    let (C, st) := runFold (constantFoldInstruction User) RIE in
    (* If we did not pass in a None and the optional is set to true, add the
       user to our error set. *)
    let inError :=
      match ResultsInError st with Some true => true | _ => false end in
    (* With no [C] we failed to constant propagate; otherwise all users
       should use the new folded value. *)
    mkUserStep false false isCondFail inError C (Emitted st).

End Folder.

(** A kernel for running the folder on examples: every float operation
    answers with the fixed value [r], every conversion with status [st]. *)
Definition constAPFloatOps (r : APFloat) (st : opStatus) : APFloatOps :=
  {| fp_add := fun _ _ => r;
     fp_subtract := fun _ _ => r;
     fp_multiply := fun _ _ => r;
     fp_divide := fun _ _ => r;
     fp_convert := fun _ _ => (r, st);
     fp_convertToInteger := fun _ w _ => (APInt.mk w 0, st);
     fp_convertFromAPInt := fun _ _ _ => (r, st) |}.

(** ** The specification's wording of two tests

    Kept apart from the code's definitions, to be compared with them. *)

(** Section 4.1, checked integer conversion: "compute the trunc, then the
    inverse extension (sext if SrcSigned else zext, to width s) and compare
    with the input; overflow iff they differ". *)
Definition specConversionOverflow (Builtin : BuiltinInfo) (SrcVal : APInt.t)
  : bool :=
  let s := getGreatestWidth (TypesAt Builtin 0) in
  let d := getGreatestWidth (TypesAt Builtin 1) in
  let T := APInt.trunc SrcVal d in
  APInt.neb SrcVal
    (if fst (getTypeSignedness Builtin) then APInt.sext T s else APInt.zext T s).

(** Section 4.2, "maybeExplicit": "the source location resolves to a call
    expression whose callee is a constructor reference that is not marked
    implicit", or "the constructed type is the platform's canonical
    Double". *)
Definition specMaybeExplicit (Ctx : ASTContext) (BI : BuiltinInst) : bool :=
  match getAsCallExpr (getLoc BI) with
  | Some (implicit, fn, _, ty) =>
      isConstructorRefCallExpr fn
      && (negb implicit || optionString_eqb (getAnyNominal ty) (getDoubleDecl Ctx))
  | None => false
  end.

(** Section 8: the mathematical result of a checked operation on the
    operands read with its signedness, and whether a number fits the width
    under that signedness. *)
Definition isSignedIntrinsic (ID : IntrinsicID) : bool :=
  match ID with
  | sadd_with_overflow | ssub_with_overflow | smul_with_overflow => true
  | _ => false
  end.
Definition reading (isSigned : bool) (a : APInt.t) : Z :=
  if isSigned then APInt.signed a else APInt.Val a.
Definition mathResult (ID : IntrinsicID) (x y : APInt.t) : Z :=
  let rx := reading (isSignedIntrinsic ID) x in
  let ry := reading (isSignedIntrinsic ID) y in
  match ID with
  | sadd_with_overflow | uadd_with_overflow => rx + ry
  | ssub_with_overflow | usub_with_overflow => rx - ry
  | _ => rx * ry
  end.
Definition fitsWidth (isSigned : bool) (w z : Z) : Prop :=
  if isSigned then APInt.fitsSigned w z else APInt.fitsUnsigned w z.

(** The integer cast builtins. *)
Definition isIntegerCast (ID : BuiltinValueKind) : bool :=
  match ID with
  | Trunc | TruncOrBitCast | ZExt | ZExtOrBitCast | SExt | SExtOrBitCast => true
  | _ => false
  end.
Definition isTruncKind (ID : BuiltinValueKind) : bool :=
  match ID with Trunc | TruncOrBitCast => true | _ => false end.
Definition isZExtKind (ID : BuiltinValueKind) : bool :=
  match ID with ZExt | ZExtOrBitCast => true | _ => false end.
Definition isSExtKind (ID : BuiltinValueKind) : bool :=
  match ID with SExt | SExtOrBitCast => true | _ => false end.

(** The four checked truncations. *)
Definition isCheckedTrunc (ID : BuiltinValueKind) : bool :=
  match ID with
  | SToSCheckedTrunc | UToUCheckedTrunc | SToUCheckedTrunc
  | UToSCheckedTrunc => true
  | _ => false
  end.

(** The overflow flag [checkIntegerConversion] computes. *)
Definition conversionOverflow (Builtin : BuiltinInfo) (SrcVal : APInt.t)
  : bool := snd (fst (checkIntegerConversion Builtin SrcVal)).

(** The six checked arithmetic builtins and the division family. *)
Definition isCheckedArith (ID : BuiltinValueKind) : bool :=
  match ID with
  | SAddOver | UAddOver | SSubOver | USubOver | SMulOver | UMulOver => true
  | _ => false
  end.
Definition isDivision (ID : BuiltinValueKind) : bool :=
  match ID with SDiv | SRem | UDiv | URem => true | _ => false end.
Definition isSignedDivision (ID : BuiltinValueKind) : bool :=
  match ID with SDiv | SRem => true | _ => false end.

(** The result tuple of a checked operation. *)
Definition overflowTuple (BI : BuiltinInst) (w : Z) (r o : APInt.t)
  : SILValue :=
  TupleInst (getLoc BI) (getType BI)
    [ IntegerLiteralInst (getLoc BI) (BuiltinIntegerType w) r;
      IntegerLiteralInst (getLoc BI) (BuiltinIntegerType 1) o ].

(** Is the "results in error" flag present? *)
Definition present (RIE : option bool) : bool :=
  match RIE with Some _ => true | None => false end.

(** ** Values for the examples *)

(** A location with a valid source position and no AST node, the location
    of a binary operator applied to two [Int32] operands, and integer
    literals. *)
Definition plainLoc : SILLocation := mkLoc None true.
Definition Int32 : ASTType := NominalType "Int32".
Definition binaryInt32Loc : SILLocation :=
  mkLoc (Some (ApplyExpr OtherApplyExprKind false (OtherExpr Int32)
                 (TupleExpr [OtherExpr Int32; OtherExpr Int32]
                            (TupleType [Int32; Int32]))
                 Int32))
        true.
Definition intLit (w v : Z) : SILValue :=
  IntegerLiteralInst plainLoc (BuiltinIntegerType w) (APInt.make w v).
Definition overflowTupleType (w : Z) : SILType :=
  TupleType [BuiltinIntegerType w; BuiltinIntegerType 1].

(** The 32-bit checked signed add of 2147483647 and 1 with the report
    operand set, the 32-bit shift left of 1 by 32, and a float for the
    example kernel. *)
Definition checkedAdd32 (Loc : SILLocation) (inSpecialization : bool)
  : BuiltinInst :=
  mkBuiltinInst Loc (overflowTupleType 32) inSpecialization not_intrinsic
    (mkBuiltinInfo SAddOver [BuiltinIntegerType 32])
    [intLit 32 2147483647; intLit 32 1; intLit 1 1].
Definition shl32By32 : BuiltinInst :=
  mkBuiltinInst plainLoc (BuiltinIntegerType 32) false not_intrinsic
    (mkBuiltinInfo Shl [BuiltinIntegerType 32])
    [intLit 32 1; intLit 32 32].
Definition singleNaN : APFloat := mkAPFloat IEEEsingle fcNaN false 0 0.
Definition singleOne : APFloat := mkAPFloat IEEEsingle fcNormal false 0 8388608.
Definition doubleOne : APFloat :=
  mkAPFloat IEEEdouble fcNormal false 0 4503599627370496.

(** A shift of a literal by a literal count that is not less than the
    width: the case in which [constantFoldBinary] refuses to fold. *)
Definition isShiftKind (ID : BuiltinValueKind) : bool :=
  match ID with AShr | LShr | Shl => true | _ => false end.
Definition shiftsAllBits (BI : BuiltinInst) : bool :=
  match getIntrinsicInfo BI with
  | not_intrinsic =>
      isShiftKind (getBuiltinKind BI)
      && match Arg BI 0, Arg BI 1 with
         | Some (IntegerLiteralInst _ _ LHSI),
           Some (IntegerLiteralInst _ _ RHSI) =>
             APInt.getBitWidth LHSI <=? APInt.getZExtValue RHSI
         | _, _ => false
         end
  | _ => false
  end.

(** ** Vocabulary for the further properties *)

(** The bitwise builtins, the integer comparison predicates, and a
    predicate with its operands swapped or its answer negated. *)
Definition isBitOperation (ID : BuiltinValueKind) : bool :=
  match ID with And | Or | Xor | Shl | LShr | AShr => true | _ => false end.
Definition isICmp (ID : BuiltinValueKind) : bool :=
  match ID with
  | ICMP_EQ | ICMP_NE | ICMP_SLT | ICMP_SGT | ICMP_SLE | ICMP_SGE
  | ICMP_ULT | ICMP_UGT | ICMP_ULE | ICMP_UGE => true
  | _ => false
  end.
Definition swapPredicate (ID : BuiltinValueKind) : BuiltinValueKind :=
  match ID with
  | ICMP_SLT => ICMP_SGT | ICMP_SGT => ICMP_SLT
  | ICMP_SLE => ICMP_SGE | ICMP_SGE => ICMP_SLE
  | ICMP_ULT => ICMP_UGT | ICMP_UGT => ICMP_ULT
  | ICMP_ULE => ICMP_UGE | ICMP_UGE => ICMP_ULE
  | other => other
  end.
Definition negatePredicate (ID : BuiltinValueKind) : BuiltinValueKind :=
  match ID with
  | ICMP_EQ => ICMP_NE | ICMP_NE => ICMP_EQ
  | ICMP_SLT => ICMP_SGE | ICMP_SGE => ICMP_SLT
  | ICMP_SGT => ICMP_SLE | ICMP_SLE => ICMP_SGT
  | ICMP_ULT => ICMP_UGE | ICMP_UGE => ICMP_ULT
  | ICMP_UGT => ICMP_ULE | ICMP_ULE => ICMP_UGT
  | other => other
  end.

(** A builtin instruction that is not an LLVM intrinsic. *)
Definition builtinInst (Loc : SILLocation) (Ty : SILType)
  (ID : BuiltinValueKind) (Tys : list ASTType) (Args : list SILValue)
  : BuiltinInst :=
  mkBuiltinInst Loc Ty false not_intrinsic (mkBuiltinInfo ID Tys) Args.

(** The 8-bit unsigned checked add of 100 and 100 with the report operand
    set, and the signed test of its value [< 0]. *)
Definition uadd8 : BuiltinInst :=
  mkBuiltinInst plainLoc (overflowTupleType 8) false not_intrinsic
    (mkBuiltinInfo UAddOver [BuiltinIntegerType 8])
    [intLit 8 100; intLit 8 100; intLit 1 1].
Definition uadd8IsNegative : BuiltinInst :=
  builtinInst plainLoc (BuiltinIntegerType 1) ICMP_SLT [BuiltinIntegerType 8]
    [TupleExtractInst plainLoc (BuiltinIntegerType 8) (BuiltinValue uadd8) 0;
     intLit 8 0].

(** The two same-width signedness conversions, and the families of the
    conversion diagnostics: those worded for an integer literal, and those
    that are warnings. *)
Definition isSignednessConversion (ID : BuiltinValueKind) : bool :=
  match ID with SUCheckedConversion | USCheckedConversion => true | _ => false end.
Definition isLiteralOverflowDiag (d : Diag) : bool :=
  match d with
  | integer_literal_overflow _ _
  | negative_integer_literal_overflow_unsigned _ _
  | integer_literal_overflow_builtin_types _ _ _
  | integer_literal_overflow_warn _ => true
  | _ => false
  end.
Definition isConversionWarning (d : Diag) : bool :=
  match d with
  | integer_literal_overflow_warn _
  | integer_conversion_overflow_warn _ _ => true
  | _ => false
  end.

(** The diagnostics of the conversions between floats and integers that
    are errors. *)
Definition isFloatToIntError (d : Diag) : bool :=
  match d with
  | negative_fp_literal_overflow_unsigned _ _ _
  | float_to_int_overflow _ _ _ => true
  | _ => false
  end.
Definition isNegativeToUnsignedError (d : Diag) : bool :=
  match d with
  | negative_fp_literal_overflow_unsigned _ _ _ => true
  | _ => false
  end.
Definition isIntToFPOverflowError (d : Diag) : bool :=
  match d with integer_literal_overflow _ _ => true | _ => false end.
Definition isIntToFPInexactWarning (d : Diag) : bool :=
  match d with warning_int_to_fp_inexact _ _ _ => true | _ => false end.

(** * Properties *)

(** Case analysis on the scrutinee of a match in the goal. *)
Ltac break_match :=
  match goal with
  | |- context [match ?x with _ => _ end] => destruct x eqn:?
  end.

(** ** Facts on APInt *)

Lemma pow2_pos (w : Z) : 0 <= w -> 0 < 2 ^ w.
Proof. intros; apply Z.pow_pos_nonneg; lia. Qed.

Lemma pow2_half (w : Z) : 0 < w -> 2 ^ w = 2 * 2 ^ (w - 1).
Proof.
  intros H. replace w with (Z.succ (w - 1)) at 1 by lia.
  rewrite Z.pow_succ_r by lia. reflexivity.
Qed.

Lemma APInt_make_wf (w v : Z) : 0 <= w -> APInt.wf (APInt.make w v).
Proof.
  intros H. unfold APInt.wf, APInt.make; simpl.
  apply Z.mod_pos_bound, pow2_pos, H.
Qed.

(** The sign bit of a well-formed value is set exactly from [2^(w-1)] on. *)
Lemma APInt_isNegative_spec (a : APInt.t) :
  APInt.wf a -> 0 < APInt.BitWidth a ->
  APInt.isNegative a = (2 ^ (APInt.BitWidth a - 1) <=? APInt.Val a).
Proof.
  unfold APInt.wf, APInt.isNegative. destruct a as [w v]; simpl.
  intros [H0 H1] Hw.
  pose proof (pow2_half w Hw) as Hh.
  pose proof (pow2_pos (w - 1) ltac:(lia)) as Hp.
  rewrite Z.testbit_eqb by lia.
  destruct (Z.leb_spec (2 ^ (w - 1)) v) as [Hle | Hlt].
  - assert (Hq : v / 2 ^ (w - 1) = 1).
    { symmetry. apply Z.div_unique with (r := v - 2 ^ (w - 1)); lia. }
    rewrite Hq. reflexivity.
  - rewrite Z.div_small by lia. reflexivity.
Qed.

Lemma APInt_signed_range (a : APInt.t) :
  APInt.wf a -> 0 < APInt.BitWidth a ->
  APInt.fitsSigned (APInt.BitWidth a) (APInt.signed a).
Proof.
  intros Hwf Hw. unfold APInt.signed, APInt.fitsSigned.
  rewrite (APInt_isNegative_spec a Hwf Hw).
  pose proof (pow2_half _ Hw). unfold APInt.wf in Hwf.
  destruct (Z.leb_spec (2 ^ (APInt.BitWidth a - 1)) (APInt.Val a)); lia.
Qed.

Lemma APInt_signed_mod (a : APInt.t) :
  APInt.wf a -> 0 < APInt.BitWidth a ->
  APInt.signed a mod 2 ^ APInt.BitWidth a = APInt.Val a.
Proof.
  intros Hwf Hw. unfold APInt.signed. unfold APInt.wf in Hwf.
  destruct (APInt.isNegative a).
  - replace (APInt.Val a - 2 ^ APInt.BitWidth a)
      with (APInt.Val a + (-1) * 2 ^ APInt.BitWidth a) by lia.
    rewrite Z.mod_add by lia. apply Z.mod_small; lia.
  - apply Z.mod_small; lia.
Qed.

(** Two numbers in the signed range that agree modulo [2^w] are equal. *)
Lemma fitsSigned_unique (w x y : Z) :
  0 < w -> APInt.fitsSigned w x -> APInt.fitsSigned w y ->
  x mod 2 ^ w = y mod 2 ^ w -> x = y.
Proof.
  unfold APInt.fitsSigned. intros Hw Hx Hy Hm.
  pose proof (pow2_half w Hw) as Hh.
  pose proof (pow2_pos w ltac:(lia)) as Hp.
  pose proof (Z.div_mod x (2 ^ w) ltac:(lia)) as Ex.
  pose proof (Z.div_mod y (2 ^ w) ltac:(lia)) as Ey.
  pose proof (Z.mod_pos_bound x (2 ^ w) Hp).
  pose proof (Z.mod_pos_bound y (2 ^ w) Hp).
  rewrite Hm in Ex.
  assert (x / 2 ^ w = y / 2 ^ w) by nia.
  congruence.
Qed.

Lemma fitsSignedb_spec (w z : Z) :
  APInt.fitsSignedb w z = true <-> APInt.fitsSigned w z.
Proof. unfold APInt.fitsSignedb, APInt.fitsSigned. lia. Qed.

Lemma fitsUnsignedb_spec (w z : Z) :
  APInt.fitsUnsignedb w z = true <-> APInt.fitsUnsigned w z.
Proof. unfold APInt.fitsUnsignedb, APInt.fitsUnsigned. lia. Qed.

(** ** Width changes, bit by bit *)

Lemma APInt_wf_bits_high (a : APInt.t) (i : Z) :
  APInt.wf a -> 0 <= APInt.BitWidth a -> APInt.BitWidth a <= i ->
  Z.testbit (APInt.Val a) i = false.
Proof.
  unfold APInt.wf. intros Hwf Hw Hi.
  rewrite <- (Z.mod_small (APInt.Val a) (2 ^ APInt.BitWidth a)) by lia.
  apply Z.mod_pow2_bits_high. lia.
Qed.

Lemma APInt_trunc_bits (a : APInt.t) (d i : Z) :
  0 <= d -> 0 <= i ->
  Z.testbit (APInt.Val (APInt.trunc a d)) i
  = (i <? d) && Z.testbit (APInt.Val a) i.
Proof.
  intros Hd Hi. unfold APInt.trunc; simpl.
  destruct (Z.ltb_spec i d).
  - rewrite Z.mod_pow2_bits_low by lia. reflexivity.
  - rewrite Z.mod_pow2_bits_high by lia. reflexivity.
Qed.

Lemma APInt_zext_bits (a : APInt.t) (d i : Z) :
  APInt.wf a -> 0 <= APInt.BitWidth a -> 0 <= i ->
  Z.testbit (APInt.Val (APInt.zext a d)) i
  = (i <? APInt.BitWidth a) && Z.testbit (APInt.Val a) i.
Proof.
  intros Hwf Hw Hi. unfold APInt.zext; simpl.
  destruct (Z.ltb_spec i (APInt.BitWidth a)).
  - reflexivity.
  - apply APInt_wf_bits_high; assumption.
Qed.

Lemma APInt_sext_bits (a : APInt.t) (d i : Z) :
  APInt.wf a -> 0 < APInt.BitWidth a -> APInt.BitWidth a <= d -> 0 <= i ->
  Z.testbit (APInt.Val (APInt.sext a d)) i
  = if i <? APInt.BitWidth a then Z.testbit (APInt.Val a) i
    else (i <? d) && APInt.isNegative a.
Proof.
  intros Hwf Hw Hd Hi. unfold APInt.sext; simpl.
  destruct (APInt.isNegative a) eqn:Hneg.
  - rewrite Z.lor_spec, Z.shiftl_spec by lia.
    destruct (Z.ltb_spec i (APInt.BitWidth a)).
    + rewrite (Z.testbit_neg_r _ (i - APInt.BitWidth a)) by lia.
      apply orb_false_r.
    + rewrite (APInt_wf_bits_high a i) by (assumption || lia). simpl.
      destruct (Z.ltb_spec i d).
      * apply Z.ones_spec_low. lia.
      * apply Z.ones_spec_high. lia.
  - destruct (Z.ltb_spec i (APInt.BitWidth a)).
    + reflexivity.
    + rewrite andb_false_r. apply APInt_wf_bits_high; assumption || lia.
Qed.

(** C6.  An integer cast of a literal of source width [s] to destination
    width [d]: when [s = d] the value is returned unchanged whatever the
    kind; otherwise Trunc keeps the low [d] bits, ZExt has width [d], the
    source bits below [s] and zeros from [s] on ([d - s] zero bits added),
    and SExt has width [d], the source bits below [s] and copies of the sign
    bit from [s] up to [d]. *)
Theorem constantFoldCast_bits (B : BuiltinInfo) (val : APInt.t) (s d : Z) :
  isIntegerCast (ID B) = true ->
  Types B = [BuiltinIntegerType s; BuiltinIntegerType d] ->
  APInt.wf val -> APInt.BitWidth val = s -> 0 < s -> 0 < d ->
  (s = d -> constantFoldCast val B = val) /\
  (isTruncKind (ID B) = true -> d < s ->
   APInt.BitWidth (constantFoldCast val B) = d /\
   forall i, 0 <= i ->
     Z.testbit (APInt.Val (constantFoldCast val B)) i
     = (i <? d) && Z.testbit (APInt.Val val) i) /\
  (isZExtKind (ID B) = true -> s < d ->
   APInt.BitWidth (constantFoldCast val B) = d /\
   forall i, 0 <= i ->
     Z.testbit (APInt.Val (constantFoldCast val B)) i
     = (i <? s) && Z.testbit (APInt.Val val) i) /\
  (isSExtKind (ID B) = true -> s < d ->
   APInt.BitWidth (constantFoldCast val B) = d /\
   forall i, 0 <= i ->
     Z.testbit (APInt.Val (constantFoldCast val B)) i
     = if i <? s then Z.testbit (APInt.Val val) i
       else (i <? d) && Z.testbit (APInt.Val val) (s - 1)).
Proof.
  intros Hk HT Hwf Hws Hs Hd.
  unfold constantFoldCast, TypesAt. rewrite HT. simpl.
  repeat split.
  - intros ->. rewrite Z.eqb_refl. reflexivity.
  - destruct (Z.eqb_spec s d); [lia|].
    destruct (ID B); try discriminate; reflexivity.
  - intros i Hi. destruct (Z.eqb_spec s d); [lia|].
    destruct (ID B); try discriminate; apply APInt_trunc_bits; lia.
  - destruct (Z.eqb_spec s d); [lia|].
    destruct (ID B); try discriminate; reflexivity.
  - intros i Hi. destruct (Z.eqb_spec s d); [lia|]. subst s.
    destruct (ID B); try discriminate; apply APInt_zext_bits; assumption || lia.
  - destruct (Z.eqb_spec s d); [lia|].
    destruct (ID B); try discriminate; reflexivity.
  - intros i Hi. destruct (Z.eqb_spec s d); [lia|]. subst s.
    destruct (ID B); try discriminate;
      (rewrite APInt_sext_bits by (assumption || lia); reflexivity).
Qed.

Lemma constantFoldCast_bits_witness :
  let v := APInt.mk 8 200 in
  APInt.BitWidth
    (constantFoldCast v
       (mkBuiltinInfo SExt [BuiltinIntegerType 8; BuiltinIntegerType 16])) = 16
  /\ constantFoldCast v
       (mkBuiltinInfo SExt [BuiltinIntegerType 8; BuiltinIntegerType 8]) = v.
Proof.
  split.
  - refine (proj1 (proj2 (proj2 (proj2
      (constantFoldCast_bits
         (mkBuiltinInfo SExt [BuiltinIntegerType 8; BuiltinIntegerType 16])
         (APInt.mk 8 200) 8 16 eq_refl eq_refl _ eq_refl _ _))) eq_refl _));
      unfold APInt.wf; simpl; lia.
  - refine (proj1
      (constantFoldCast_bits
         (mkBuiltinInfo SExt [BuiltinIntegerType 8; BuiltinIntegerType 8])
         (APInt.mk 8 200) 8 8 eq_refl eq_refl _ eq_refl _ _) eq_refl);
      unfold APInt.wf; simpl; lia.
Defined.

(** ** Checked integer conversions *)

(** At SToUCheckedTrunc of the 8-bit literal 255 (-1) to 4 bits the code
    reports overflow, while the truncation sign-extended back (the source is
    signed) equals the input: the flag is not the one the sentence of
    section 4.1 describes. *)
Lemma conversionOverflow_not_by_source_sign :
  let B := mkBuiltinInfo SToUCheckedTrunc
             [BuiltinIntegerType 8; BuiltinIntegerType 4] in
  conversionOverflow B (APInt.mk 8 255) = true
  /\ specConversionOverflow B (APInt.mk 8 255) = false.
Proof. split; reflexivity. Qed.

(** Likewise at UToSCheckedTrunc of the 8-bit literal 15 to 4 bits: 15 is
    not a signed 4-bit value, but truncating to 4 bits and zero-extending
    gives 15 back. *)
Lemma conversionOverflow_unsigned_to_signed_example :
  let B := mkBuiltinInfo UToSCheckedTrunc
             [BuiltinIntegerType 8; BuiltinIntegerType 4] in
  conversionOverflow B (APInt.mk 8 15) = true
  /\ specConversionOverflow B (APInt.mk 8 15) = false.
Proof. split; reflexivity. Qed.

(** C1 (amended).  For the four checked truncations of a literal of width
    [s] to width [d], the overflow flag compares the input with an extension
    back to width [s] of a truncation of the input: for SToSCheckedTrunc the
    truncation to [d] bits, sign-extended; for UToUCheckedTrunc and
    SToUCheckedTrunc the truncation to [d] bits, zero-extended; for
    UToSCheckedTrunc the truncation to [d - 1] bits, zero-extended.
    Overflow holds if and only if the two differ. *)
Theorem conversionOverflow_computed (B : BuiltinInfo) (SrcVal : APInt.t)
  (s d : Z) :
  isCheckedTrunc (ID B) = true ->
  Types B = [BuiltinIntegerType s; BuiltinIntegerType d] ->
  let Ext :=
    match ID B with
    | SToSCheckedTrunc => APInt.sext (APInt.trunc SrcVal d) s
    | UToSCheckedTrunc => APInt.zext (APInt.trunc SrcVal (d - 1)) s
    | _ => APInt.zext (APInt.trunc SrcVal d) s
    end in
  conversionOverflow B SrcVal = true <-> APInt.Val SrcVal <> APInt.Val Ext.
Proof.
  intros Hk HT Ext. subst Ext.
  unfold conversionOverflow, checkIntegerConversion, TypesAt.
  rewrite HT. simpl.
  destruct (ID B); try discriminate; simpl;
    unfold APInt.neb, APInt.eqb; rewrite negb_true_iff, Z.eqb_neq; reflexivity.
Qed.

Lemma conversionOverflow_computed_witness :
  conversionOverflow
    (mkBuiltinInfo SToUCheckedTrunc [BuiltinIntegerType 8; BuiltinIntegerType 4])
    (APInt.mk 8 255) = true
  <-> 255 <> 15.
Proof.
  exact (conversionOverflow_computed
           (mkBuiltinInfo SToUCheckedTrunc
              [BuiltinIntegerType 8; BuiltinIntegerType 4])
           (APInt.mk 8 255) 8 4 eq_refl eq_refl).
Defined.

(** Sign extension is the signed reading again, taken modulo the new
    width. *)
Lemma APInt_sext_val (a : APInt.t) (d : Z) :
  APInt.wf a -> 0 < APInt.BitWidth a -> APInt.BitWidth a <= d ->
  APInt.Val (APInt.sext a d) = APInt.signed a mod 2 ^ d.
Proof.
  intros Hwf Hw Hd. apply Z.bits_inj'. intros i Hi.
  rewrite APInt_sext_bits by assumption.
  pose proof (APInt_signed_range a Hwf Hw) as Hr. unfold APInt.fitsSigned in Hr.
  pose proof (pow2_half _ Hw) as Hh. pose proof Hwf as [Hv0 Hv1].
  destruct (Z.ltb_spec i d) as [Hid | Hid].
  - rewrite Z.mod_pow2_bits_low by lia.
    unfold APInt.signed. destruct (APInt.isNegative a) eqn:Hneg.
    + destruct (Z.ltb_spec i (APInt.BitWidth a)) as [Hlt | Hge].
      * rewrite <- (Z.mod_pow2_bits_low (APInt.Val a - _) (APInt.BitWidth a) i)
          by lia.
        replace (APInt.Val a - 2 ^ APInt.BitWidth a)
          with (APInt.Val a + (-1) * 2 ^ APInt.BitWidth a) by lia.
        rewrite Z.mod_add by lia. rewrite Z.mod_small by lia. reflexivity.
      * simpl. symmetry. apply Z.bits_above_log2_neg; [lia|].
        destruct (Z.eq_dec (Z.pred (- (APInt.Val a - 2 ^ APInt.BitWidth a))) 0)
          as [E | E].
        -- rewrite E. simpl. lia.
        -- assert (Z.log2 (Z.pred (- (APInt.Val a - 2 ^ APInt.BitWidth a)))
                   < APInt.BitWidth a) by (apply Z.log2_lt_pow2; lia).
           lia.
    + destruct (Z.ltb_spec i (APInt.BitWidth a)) as [Hlt | Hge].
      * reflexivity.
      * destruct (i <? d); simpl; symmetry;
          apply APInt_wf_bits_high; assumption || lia.
  - rewrite Z.mod_pow2_bits_high by lia.
    destruct (Z.ltb_spec i (APInt.BitWidth a)); [lia | reflexivity].
Qed.

Lemma mod_fixed_iff (v m : Z) : 0 <= v -> 0 < m -> (v = v mod m <-> v < m).
Proof.
  intros Hv Hm. split.
  - intros ->. apply Z.mod_pos_bound; lia.
  - intros H. rewrite Z.mod_small; lia.
Qed.

(** The signed reading and the unsigned value agree modulo every power of
    two up to the width. *)
Lemma APInt_signed_mod_low (a : APInt.t) (d : Z) :
  APInt.wf a -> 0 <= d <= APInt.BitWidth a ->
  APInt.signed a mod 2 ^ d = APInt.Val a mod 2 ^ d.
Proof.
  intros Hwf Hd. unfold APInt.signed. destruct (APInt.isNegative a); [|reflexivity].
  replace (2 ^ APInt.BitWidth a) with (2 ^ (APInt.BitWidth a - d) * 2 ^ d).
  - replace (APInt.Val a - 2 ^ (APInt.BitWidth a - d) * 2 ^ d)
      with (APInt.Val a + (- 2 ^ (APInt.BitWidth a - d)) * 2 ^ d) by lia.
    apply Z.mod_add. pose proof (pow2_pos d); lia.
  - rewrite <- Z.pow_add_r by lia. f_equal. lia.
Qed.

Lemma fitsSigned_mono (d s z : Z) :
  0 < d <= s -> APInt.fitsSigned d z -> APInt.fitsSigned s z.
Proof.
  unfold APInt.fitsSigned. intros Hd Hz.
  assert (2 ^ (d - 1) <= 2 ^ (s - 1)) by (apply Z.pow_le_mono_r; lia).
  lia.
Qed.

(** X11.  What the flag means.  For a truncation to a strictly narrower width,
    the conversion overflows exactly when the source value, read with the
    source's signedness, is not representable in [d] bits with the
    destination's signedness. *)
Theorem conversionOverflow_iff_unrepresentable (B : BuiltinInfo)
  (SrcVal : APInt.t) (s d : Z) :
  isCheckedTrunc (ID B) = true ->
  Types B = [BuiltinIntegerType s; BuiltinIntegerType d] ->
  APInt.wf SrcVal -> APInt.BitWidth SrcVal = s -> 0 < d < s ->
  conversionOverflow B SrcVal = false
  <-> fitsWidth (snd (getTypeSignedness B)) d
                (reading (fst (getTypeSignedness B)) SrcVal).
Proof.
  intros Hk HT Hwf Hws Hd.
  assert (Hs : 0 < APInt.BitWidth SrcVal) by lia.
  pose proof (APInt_signed_range SrcVal Hwf Hs) as Hsr.
  pose proof (APInt_isNegative_spec SrcVal Hwf Hs) as Hneg.
  pose proof Hwf as [Hv0 Hv1].
  pose proof (pow2_half _ Hs) as Hhs.
  pose proof (pow2_half d ltac:(lia)) as Hhd.
  pose proof (pow2_pos (d - 1) ltac:(lia)) as Hpd.
  assert (Hle : 2 ^ d <= 2 ^ (APInt.BitWidth SrcVal - 1))
    by (apply Z.pow_le_mono_r; lia).
  unfold conversionOverflow, checkIntegerConversion, TypesAt, getTypeSignedness.
  rewrite HT. simpl. subst s.
  destruct (ID B); try discriminate; simpl;
    unfold APInt.neb, APInt.eqb, fitsWidth, reading;
    rewrite negb_false_iff, Z.eqb_eq.
  - (* SToSCheckedTrunc *)
    set (t := APInt.trunc SrcVal d).
    assert (Htw : APInt.wf t) by (apply (APInt_make_wf d); lia).
    assert (Htd : 0 < APInt.BitWidth t) by (simpl; lia).
    pose proof (APInt_signed_range t Htw Htd) as Htr. simpl in Htr.
    rewrite APInt_sext_val by (assumption || simpl; lia).
    assert (Hcong : APInt.signed t mod 2 ^ d = APInt.signed SrcVal mod 2 ^ d).
    { rewrite (APInt_signed_mod_low SrcVal d) by (assumption || lia).
      pose proof (APInt_signed_mod t Htw Htd) as X. simpl in X.
      rewrite X. reflexivity. }
    split.
    + intros E.
      assert (APInt.signed SrcVal = APInt.signed t).
      { apply (fitsSigned_unique (APInt.BitWidth SrcVal)); try assumption.
        - apply (fitsSigned_mono d); [lia | assumption].
        - rewrite APInt_signed_mod by assumption. exact E. }
      congruence.
    + intros Hfit.
      assert (APInt.signed t = APInt.signed SrcVal)
        by (apply (fitsSigned_unique d); assumption || lia).
      rewrite H. symmetry. apply APInt_signed_mod; assumption.
  - (* UToUCheckedTrunc *)
    unfold APInt.zext, APInt.trunc; simpl.
    rewrite mod_fixed_iff by lia. unfold APInt.fitsUnsigned. lia.
  - (* SToUCheckedTrunc *)
    unfold APInt.zext, APInt.trunc; simpl.
    rewrite mod_fixed_iff by lia. unfold APInt.fitsUnsigned, APInt.signed.
    rewrite Hneg.
    destruct (Z.leb_spec (2 ^ (APInt.BitWidth SrcVal - 1)) (APInt.Val SrcVal));
      lia.
  - (* UToSCheckedTrunc *)
    unfold APInt.zext, APInt.trunc; simpl.
    rewrite mod_fixed_iff by lia. unfold APInt.fitsSigned. lia.
Qed.

(** ** Checked arithmetic *)

Lemma signed_op_mod (f : Z -> Z -> Z) (x y : APInt.t) (w : Z) :
  (forall a b m, (f a b) mod m = (f (a mod m) (b mod m)) mod m) ->
  APInt.wf x -> APInt.wf y ->
  APInt.BitWidth x = w -> APInt.BitWidth y = w -> 0 < w ->
  f (APInt.signed x) (APInt.signed y) mod 2 ^ w
  = f (APInt.Val x) (APInt.Val y) mod 2 ^ w.
Proof.
  intros Hf Hx Hy Hwx Hwy Hw.
  rewrite Hf.
  pose proof (APInt_signed_mod x Hx ltac:(lia)) as Ex.
  pose proof (APInt_signed_mod y Hy ltac:(lia)) as Ey.
  rewrite Hwx in Ex. rewrite Hwy in Ey. rewrite Ex, Ey.
  reflexivity.
Qed.

(** The value kernel of the checked operations: the result is the
    mathematical result modulo [2^w], and the flag is raised exactly when
    that result does not fit the width under the operation's signedness. *)
Lemma constantFoldBinaryWithOverflow_value (I : IntrinsicID)
  (x y : APInt.t) (w : Z) :
  (exists ID, isCheckedArith ID = true
              /\ I = getLLVMIntrinsicIDForBuiltinWithOverflow ID) ->
  APInt.wf x -> APInt.wf y ->
  APInt.BitWidth x = w -> APInt.BitWidth y = w -> 0 < w ->
  let (r, ov) := constantFoldBinaryWithOverflow x y I in
  APInt.BitWidth r = w /\ APInt.wf r
  /\ APInt.Val r = mathResult I x y mod 2 ^ w
  /\ (ov = true <-> ~ fitsWidth (isSignedIntrinsic I) w (mathResult I x y)).
Proof.
  intros [ID [Hk ->]] Hx Hy Hwx Hwy Hw.
  assert (Hne : forall b P, (b = true <-> P) -> (negb b = true <-> ~ P)).
  { intros b P H. rewrite negb_true_iff, <- not_true_iff_false, H. tauto. }
  destruct ID; try discriminate; simpl;
    unfold APInt.add, APInt.sub, APInt.mul, mathResult, fitsWidth;
    simpl; rewrite Hwx;
    (split; [reflexivity|]); (split; [apply APInt_make_wf; lia|]);
    (split; [| apply Hne; (apply fitsSignedb_spec || apply fitsUnsignedb_spec)]);
    simpl; try reflexivity; symmetry.
  - apply (signed_op_mod Z.add); auto using Zplus_mod.
  - apply (signed_op_mod Z.sub); auto using Zminus_mod.
  - apply (signed_op_mod Z.mul); auto using Zmult_mod.
Qed.

(** C5.  Folding a signed or unsigned checked add, sub or mul of two
    literals [x], [y] of width [w]: the folded tuple [(r, o)] has
    [r] congruent to the mathematical result modulo [2^w], and [o = 1] if
    and only if the mathematical result does not fit in width [w] under the
    operation's signedness.  The tuple is produced in every case but one:
    inside a specialization, with diagnostics on, the report operand the
    literal 1 and an overflow, the folder returns nothing. *)
Theorem checked_arith_fold_tuple (BI : BuiltinInst) (ID : BuiltinValueKind)
  (L0 L1 : SILLocation) (T0 T1 : SILType) (x y : APInt.t) (w : Z)
  (RIE : option bool) :
  isCheckedArith ID = true ->
  Arg BI 0 = Some (IntegerLiteralInst L0 T0 x) ->
  Arg BI 1 = Some (IntegerLiteralInst L1 T1 y) ->
  getType BI = TupleType [BuiltinIntegerType w; BuiltinIntegerType 1] ->
  APInt.wf x -> APInt.wf y ->
  APInt.BitWidth x = w -> APInt.BitWidth y = w -> 0 < w ->
  let I := getLLVMIntrinsicIDForBuiltinWithOverflow ID in
  let res := fst (runFold (constantFoldBinaryWithOverflowBuiltin BI ID) RIE) in
  exists r o : APInt.t,
    APInt.BitWidth r = w /\ APInt.wf r
    /\ APInt.Val r mod 2 ^ w = mathResult I x y mod 2 ^ w
    /\ APInt.BitWidth o = 1 /\ (APInt.Val o = 0 \/ APInt.Val o = 1)
    /\ (APInt.Val o = 1
        <-> ~ fitsWidth (isSignedIntrinsic I) w (mathResult I x y))
    /\ (res = Some (overflowTuple BI w r o)
        \/ (res = None /\ isSpecialization BI = true /\ present RIE = true
            /\ m_One (Arg BI 2) = true /\ APInt.Val o = 1)).
Proof.
  intros Hk H0 H1 HT Hx Hy Hwx Hwy Hw I res.
  pose proof (constantFoldBinaryWithOverflow_value I x y w
                (ex_intro _ ID (conj Hk eq_refl)) Hx Hy Hwx Hwy Hw) as Hv.
  subst res. unfold constantFoldBinaryWithOverflowBuiltin,
    constantFoldBinaryWithOverflowInst, runFold.
  rewrite H0, H1. fold I.
  destruct (constantFoldBinaryWithOverflow x y I) as [r ov].
  destruct Hv as (Hrw & Hrwf & Hrv & Hov).
  exists r, (APInt.make 1 (Z.b2z ov)).
  assert (Ho : APInt.Val (APInt.make 1 (Z.b2z ov)) = Z.b2z ov)
    by (destruct ov; reflexivity).
  split; [assumption|]. split; [assumption|].
  split; [rewrite Hrv; apply Z.mod_mod; pose proof (pow2_pos w); lia|].
  split; [reflexivity|].
  split; [rewrite Ho; destruct ov; auto|].
  split.
  { rewrite Ho, <- Hov. destruct ov; simpl; split; congruence || lia. }
  unfold overflowTuple, constructResultWithOverflowTuple, createTuple,
    createIntegerLiteral, createIntegerLiteralOfInt, bind, hasValue, ret,
    diagnose, setResultsInError, nullptr.
  rewrite HT. simpl.
  set (report := match Arg BI 2 with
                 | Some (IntegerLiteralInst _ _ V) => APInt.eqz V 1
                 | _ => false
                 end).
  assert (Hrep : report = m_One (Arg BI 2)) by reflexivity.
  destruct RIE as [b|]; simpl; [| left; reflexivity].
  destruct ov; simpl; [| left; reflexivity].
  destruct report; simpl; [| left; reflexivity].
  destruct (isSpecialization BI) eqn:Hspec.
  - right. simpl. repeat split; auto.
  - left. destruct (overflowOperator I). reflexivity.
Qed.

Lemma checked_arith_fold_tuple_witness :
  exists r o : APInt.t,
    APInt.Val r mod 2 ^ 8 = 300 mod 2 ^ 8
    /\ (APInt.Val o = 1 <-> ~ APInt.fitsUnsigned 8 300).
Proof.
  destruct (checked_arith_fold_tuple
              (mkBuiltinInst plainLoc (overflowTupleType 8) false not_intrinsic
                 (mkBuiltinInfo UAddOver [BuiltinIntegerType 8])
                 [intLit 8 200; intLit 8 100; intLit 1 1])
              UAddOver plainLoc plainLoc (BuiltinIntegerType 8)
              (BuiltinIntegerType 8) (APInt.make 8 200) (APInt.make 8 100) 8
              None eq_refl eq_refl eq_refl eq_refl
              (APInt_make_wf 8 200 ltac:(lia)) (APInt_make_wf 8 100 ltac:(lia))
              eq_refl eq_refl ltac:(lia))
    as (r & o & _ & _ & Hr & _ & _ & Ho & _).
  exists r, o. split; [exact Hr | exact Ho].
Defined.

(** ** Division *)

Lemma APInt_signed_make (w z : Z) :
  0 < w -> APInt.fitsSigned w z -> APInt.signed (APInt.make w z) = z.
Proof.
  intros Hw Hz.
  pose proof (APInt_make_wf w z ltac:(lia)) as Hwf.
  apply (fitsSigned_unique w); try assumption.
  - apply (APInt_signed_range (APInt.make w z)); simpl; assumption.
  - pose proof (APInt_signed_mod (APInt.make w z) Hwf) as H. simpl in H.
    exact (H Hw).
Qed.

(** The signed quotient leaves the width only for INT_MIN / -1. *)
Lemma signed_quotient_overflow (w a b : Z) :
  0 < w -> APInt.fitsSigned w a -> APInt.fitsSigned w b -> b <> 0 ->
  ~ APInt.fitsSigned w (Z.quot a b) <-> a = - 2 ^ (w - 1) /\ b = -1.
Proof.
  unfold APInt.fitsSigned. intros Hw Ha Hb Hb0.
  pose proof (pow2_pos (w - 1) ltac:(lia)) as Hp.
  split.
  - intros Hq.
    destruct (Z.eq_dec b 1) as [-> | Hb1]; [rewrite Z.quot_1_r in Hq; lia|].
    destruct (Z.eq_dec b (-1)) as [-> | Hbm1].
    { change (-1) with (- (1)) in Hq.
      rewrite Z.quot_opp_r, Z.quot_1_r in Hq by lia. lia. }
    exfalso. apply Hq.
    assert (Habs : Z.abs (Z.quot a b) < 2 ^ (w - 1)).
    { rewrite <- Z.quot_abs by lia.
      rewrite Z.quot_div_nonneg by lia.
      assert (2 <= Z.abs b) by lia.
      assert (Z.abs a <= 2 ^ (w - 1)) by lia.
      apply Z.div_lt_upper_bound; [lia | nia]. }
    lia.
  - intros [-> ->] Hq.
    change (-1) with (- (1)) in Hq.
    rewrite Z.quot_opp_r, Z.quot_1_r in Hq by lia. lia.
Qed.

Lemma signed_remainder_fits (w a b : Z) :
  0 < w -> APInt.fitsSigned w b -> b <> 0 -> APInt.fitsSigned w (Z.rem a b).
Proof.
  unfold APInt.fitsSigned. intros Hw Hb Hb0.
  pose proof (Z.rem_bound_abs a b Hb0). lia.
Qed.

(** C4.  SDiv, SRem, UDiv and URem.  With a literal zero divisor nothing is
    folded and, when diagnostics are enabled, division_by_zero is emitted.
    With both operands literal, a non-zero divisor and a signed quotient
    that does not fit the width, nothing is folded and, when diagnostics are
    enabled, division_overflow is emitted.  Otherwise, with both operands
    literal, the instruction is replaced by the literal of the quotient or
    remainder and nothing is emitted; the unsigned kinds never overflow. *)
Theorem division_fold (BI : BuiltinInst) (ID : BuiltinValueKind)
  (RIE : option bool) :
  isDivision ID = true ->
  (forall L T D,
      Arg BI 1 = Some (IntegerLiteralInst L T D) -> APInt.Val D = 0 ->
      runFold (constantFoldAndCheckDivision BI ID) RIE
      = (None, if present RIE then mkFoldState (Some true) [division_by_zero]
               else mkFoldState None []))
  /\
  (forall L0 T0 N L1 T1 D w,
      Arg BI 0 = Some (IntegerLiteralInst L0 T0 N) ->
      Arg BI 1 = Some (IntegerLiteralInst L1 T1 D) ->
      APInt.wf N -> APInt.wf D ->
      APInt.BitWidth N = w -> APInt.BitWidth D = w -> 0 < w ->
      APInt.Val D <> 0 ->
      let q := Z.quot (APInt.signed N) (APInt.signed D) in
      (isSignedDivision ID = true /\ ~ APInt.fitsSigned w q ->
       runFold (constantFoldAndCheckDivision BI ID) RIE
       = (None,
          if present RIE
          then mkFoldState (Some true)
                 [division_overflow (APInt.signed N)
                    (match ID with SRem => "%" | _ => "/" end)%string
                    (APInt.signed D)]
          else mkFoldState None []))
      /\
      (isSignedDivision ID = false \/ APInt.fitsSigned w q ->
       exists R,
         runFold (constantFoldAndCheckDivision BI ID) RIE
         = (Some (IntegerLiteralInst (getLoc BI) (getType BI) R),
            mkFoldState RIE [])
         /\ APInt.BitWidth R = w /\ APInt.wf R
         /\ match ID with
            | SDiv => APInt.signed R = q
            | SRem => APInt.signed R = Z.rem (APInt.signed N) (APInt.signed D)
            | UDiv => APInt.Val R = APInt.Val N / APInt.Val D
            | _ => APInt.Val R = APInt.Val N mod APInt.Val D
            end)).
Proof.
  intros Hk. split.
  - intros L T D H1 HD.
    unfold constantFoldAndCheckDivision, runFold. rewrite H1.
    unfold APInt.eqz. rewrite HD. simpl.
    destruct RIE; reflexivity.
  - intros L0 T0 N L1 T1 D w H0 H1 HN HD HwN HwD Hw HD0 q.
    assert (HwN' : 0 < APInt.BitWidth N) by lia.
    assert (HwD' : 0 < APInt.BitWidth D) by lia.
    pose proof (APInt_signed_range N HN HwN') as HNr. rewrite HwN in HNr.
    pose proof (APInt_signed_range D HD HwD') as HDr. rewrite HwD in HDr.
    assert (HsD : APInt.signed D <> 0).
    { intros E. pose proof (APInt_signed_mod D HD HwD') as Hm.
      rewrite E in Hm. rewrite Z.mod_0_l in Hm; [congruence|].
      pose proof (pow2_pos (APInt.BitWidth D)); lia. }
    pose proof HN as [HN0 HN1]. pose proof HD as [HD0' HD1].
    unfold constantFoldAndCheckDivision, runFold. rewrite H0, H1.
    unfold APInt.eqz. destruct (Z.eqb_spec (APInt.Val D) 0) as [|_]; [lia|].
    split.
    + intros [Hs Hq].
      assert (Hov : APInt.fitsSignedb (APInt.BitWidth N) q = false).
      { apply not_true_iff_false. rewrite fitsSignedb_spec, HwN. exact Hq. }
      destruct ID; try discriminate; simpl; fold q; rewrite Hov; simpl;
        destruct RIE; reflexivity.
    + intros Hq.
      destruct ID; try discriminate; simpl; fold q.
      * (* SDiv *)
        destruct Hq as [Hq | Hq]; [discriminate|].
        assert (Hov : APInt.fitsSignedb (APInt.BitWidth N) q = true)
          by (rewrite fitsSignedb_spec, HwN; exact Hq).
        rewrite Hov. simpl. eexists. split; [reflexivity|].
        unfold APInt.sdiv. fold q. rewrite HwN.
        split; [reflexivity|]. split; [apply APInt_make_wf; lia|].
        apply APInt_signed_make; assumption.
      * (* SRem *)
        destruct Hq as [Hq | Hq]; [discriminate|].
        assert (Hov : APInt.fitsSignedb (APInt.BitWidth N) q = true)
          by (rewrite fitsSignedb_spec, HwN; exact Hq).
        rewrite Hov. simpl. eexists. split; [reflexivity|].
        unfold APInt.srem. rewrite HwN.
        split; [reflexivity|]. split; [apply APInt_make_wf; lia|].
        apply APInt_signed_make; [assumption|].
        apply signed_remainder_fits; assumption.
      * (* UDiv *)
        eexists. split; [reflexivity|]. simpl.
        split; [assumption|]. split; [|reflexivity].
        unfold APInt.wf; simpl. split.
        -- apply Z.div_pos; lia.
        -- apply Z.div_lt_upper_bound; [lia|]. rewrite HwN in *. nia.
      * (* URem *)
        eexists. split; [reflexivity|]. simpl.
        split; [assumption|]. split; [|reflexivity].
        unfold APInt.wf; simpl.
        pose proof (Z.mod_pos_bound (APInt.Val N) (APInt.Val D) ltac:(lia)).
        rewrite HwN, <- HwD. lia.
Qed.

(** The scenarios of section 8: 32-bit UDiv of 10 by 0, and 32-bit SDiv of
    -2147483648 by -1, with diagnostics enabled. *)
Lemma division_fold_witness :
  runFold (constantFoldAndCheckDivision
             (mkBuiltinInst plainLoc (BuiltinIntegerType 32) false
                not_intrinsic (mkBuiltinInfo UDiv [BuiltinIntegerType 32])
                [intLit 32 10; intLit 32 0])
             UDiv) (Some false)
  = (None, mkFoldState (Some true) [division_by_zero])
  /\
  runFold (constantFoldAndCheckDivision
             (mkBuiltinInst plainLoc (BuiltinIntegerType 32) false
                not_intrinsic (mkBuiltinInfo SDiv [BuiltinIntegerType 32])
                [intLit 32 (-2147483648); intLit 32 (-1)])
             SDiv) (Some false)
  = (None, mkFoldState (Some true)
             [division_overflow (-2147483648) "/" (-1)]).
Proof.
  split.
  - exact (proj1 (division_fold
             (mkBuiltinInst plainLoc (BuiltinIntegerType 32) false
                not_intrinsic (mkBuiltinInfo UDiv [BuiltinIntegerType 32])
                [intLit 32 10; intLit 32 0])
             UDiv (Some false) eq_refl)
           plainLoc (BuiltinIntegerType 32) (APInt.make 32 0)
           eq_refl eq_refl).
  - refine (proj1 (proj2 (division_fold
             (mkBuiltinInst plainLoc (BuiltinIntegerType 32) false
                not_intrinsic (mkBuiltinInfo SDiv [BuiltinIntegerType 32])
                [intLit 32 (-2147483648); intLit 32 (-1)])
             SDiv (Some false) eq_refl)
           plainLoc (BuiltinIntegerType 32) (APInt.make 32 (-2147483648))
           plainLoc (BuiltinIntegerType 32) (APInt.make 32 (-1)) 32
           eq_refl eq_refl
           (APInt_make_wf 32 _ ltac:(lia)) (APInt_make_wf 32 _ ltac:(lia))
           eq_refl eq_refl ltac:(lia) _) (conj eq_refl _)).
    + vm_compute. discriminate.
    + vm_compute. intros [H1 H2]. discriminate H2.
Defined.

(** ** Checked add that overflows *)

(** The scenario of section 8, outside a specialization and at the location
    of [a + b] on [Int32]: the folder reports the overflow and still returns
    the result tuple, so a replacement value is produced. *)
Lemma checked_add_overflow_has_replacement :
  runFold (constantFoldBinaryWithOverflowBuiltin
             (checkedAdd32 binaryInt32Loc false) SAddOver) (Some false)
  = (Some (overflowTuple (checkedAdd32 binaryInt32Loc false) 32
             (APInt.mk 32 2147483648) (APInt.mk 1 1)),
     mkFoldState (Some true)
       [arithmetic_operation_overflow 2147483647 "+" 1 Int32])
  /\ fst (runFold (constantFoldBinaryWithOverflowBuiltin
                     (checkedAdd32 binaryInt32Loc false) SAddOver) (Some false))
     <> None.
Proof. split; [reflexivity | discriminate]. Qed.

(** C2 (amended).  Folding the 32-bit checked signed add of the literals
    2147483647 and 1, report operand the literal 1, diagnostics enabled, in
    a function that is not a specialization and at a location whose two
    operands have one recoverable type: exactly one
    arithmetic_operation_overflow diagnostic is emitted, the instruction
    enters the error set, and the folder produces the replacement tuple of
    the wrapped sum (bits 0x80000000) and the 1-bit literal 1, which the
    driver substitutes for the instruction. *)
Theorem checked_add_overflow_reported_and_folded {FP : APFloatOps}
  (Ctx : ASTContext) (Loc : SILLocation) (T : ASTType) :
  inferOperandType Loc = Some T ->
  foldUser Ctx true false (BuiltinValue (checkedAdd32 Loc false))
  = mkUserStep false false false true
      (Some (overflowTuple (checkedAdd32 Loc false) 32
               (APInt.mk 32 2147483648) (APInt.mk 1 1)))
      [arithmetic_operation_overflow 2147483647 "+" 1 T].
Proof.
  intros HT. unfold foldUser, runFold. simpl.
  unfold constantFoldBinaryWithOverflowBuiltin,
    constantFoldBinaryWithOverflowInst. simpl.
  unfold bind, hasValue. simpl. rewrite HT. reflexivity.
Qed.

Lemma checked_add_overflow_reported_and_folded_witness :
  foldUser (FP := constAPFloatOps singleNaN opInvalidOp)
    (mkASTContext (Some "Double"%string)) true false
    (BuiltinValue (checkedAdd32 binaryInt32Loc false))
  = mkUserStep false false false true
      (Some (overflowTuple (checkedAdd32 binaryInt32Loc false) 32
               (APInt.mk 32 2147483648) (APInt.mk 1 1)))
      [arithmetic_operation_overflow 2147483647 "+" 1 Int32].
Proof.
  exact (checked_add_overflow_reported_and_folded
           (FP := constAPFloatOps singleNaN opInvalidOp)
           (mkASTContext (Some "Double"%string)) binaryInt32Loc Int32 eq_refl).
Defined.

(** When the operand type cannot be recovered the diagnostic is the
    generic one, and inside a specialization nothing is emitted and nothing
    is folded. *)
Lemma checked_add_overflow_generic_type :
  runFold (constantFoldBinaryWithOverflowBuiltin
             (checkedAdd32 plainLoc false) SAddOver) (Some false)
  = (Some (overflowTuple (checkedAdd32 plainLoc false) 32
             (APInt.mk 32 2147483648) (APInt.mk 1 1)),
     mkFoldState (Some true)
       [arithmetic_operation_overflow_generic_type 2147483647 "+" 1 true 32]).
Proof. reflexivity. Qed.

Lemma checked_add_overflow_in_specialization (Loc : SILLocation) :
  runFold (constantFoldBinaryWithOverflowBuiltin
             (checkedAdd32 Loc true) SAddOver) (Some false)
  = (None, mkFoldState (Some false) []).
Proof. reflexivity. Qed.

(** With diagnostics disabled the same instruction folds silently. *)
Lemma checked_add_overflow_diagnostics_off (Loc : SILLocation) (spec : bool) :
  runFold (constantFoldBinaryWithOverflowBuiltin
             (checkedAdd32 Loc spec) SAddOver) None
  = (Some (overflowTuple (checkedAdd32 Loc spec) 32
             (APInt.mk 32 2147483648) (APInt.mk 1 1)),
     mkFoldState None []).
Proof. reflexivity. Qed.

(** ** The absent "results in error" flag *)

(** C3 (at its failing input).  A 32-bit Shl of the literal 1 by the literal
    32, folded with the flag absent: shifting_all_significant_bits is
    emitted all the same, and the absent flag is overwritten with "true". *)
Theorem shift_diagnosed_with_absent_flag {FP : APFloatOps} :
  runFold (constantFoldBinary shl32By32 Shl) None
  = (None, mkFoldState (Some true) [shifting_all_significant_bits]).
Proof. reflexivity. Qed.

(** The driver, run with diagnostics disabled, therefore still reports the
    shift and still records the instruction in its error set. *)
Lemma shift_diagnosed_with_diagnostics_off {FP : APFloatOps}
  (Ctx : ASTContext) :
  foldUser Ctx false false (BuiltinValue shl32By32)
  = mkUserStep false false false true None [shifting_all_significant_bits].
Proof. reflexivity. Qed.

(** X22.  Every other path keeps the promise: with the flag absent, a builtin
    that is not a shift of all bits emits nothing and leaves the flag
    absent. *)
Theorem absent_flag_is_silent_except_shift {FP : APFloatOps}
  (Ctx : ASTContext) (BI : BuiltinInst) :
  shiftsAllBits BI = false ->
  snd (runFold (constantFoldBuiltin Ctx BI) None) = mkFoldState None [].
Proof.
  intros Hs. unfold shiftsAllBits, getBuiltinKind in Hs.
  unfold runFold, constantFoldBuiltin.
  destruct (getIntrinsicInfo BI).
  - (* builtins *)
    destruct (ID (getBuiltinInfo BI)) eqn:Hid; simpl in Hs;
      unfold constantFoldBinary, constantFoldAndCheckDivision,
        constantFoldBinaryWithOverflowBuiltin,
        constantFoldBinaryWithOverflowInst,
        constantFoldAndCheckIntegerConversions, foldFPTrunc,
        foldFPToIntConversion, bind, ret, hasValue, diagnose,
        setResultsInError;
      simpl; rewrite ?andb_false_r; try reflexivity;
      repeat (break_match; simpl; rewrite ?andb_false_r; try reflexivity;
              try discriminate).
  - (* expect *)
    unfold constantFoldIntrinsic, ret.
    repeat (break_match; simpl; try reflexivity).
  - (* ctlz *)
    unfold constantFoldIntrinsic, ret.
    repeat (break_match; simpl; try reflexivity).
  - unfold constantFoldIntrinsic, constantFoldBinaryWithOverflowInst, bind,
      ret, hasValue; simpl.
    repeat (break_match; simpl; try reflexivity).
  - unfold constantFoldIntrinsic, constantFoldBinaryWithOverflowInst, bind,
      ret, hasValue; simpl.
    repeat (break_match; simpl; try reflexivity).
  - unfold constantFoldIntrinsic, constantFoldBinaryWithOverflowInst, bind,
      ret, hasValue; simpl.
    repeat (break_match; simpl; try reflexivity).
  - unfold constantFoldIntrinsic, constantFoldBinaryWithOverflowInst, bind,
      ret, hasValue; simpl.
    repeat (break_match; simpl; try reflexivity).
  - unfold constantFoldIntrinsic, constantFoldBinaryWithOverflowInst, bind,
      ret, hasValue; simpl.
    repeat (break_match; simpl; try reflexivity).
  - unfold constantFoldIntrinsic, constantFoldBinaryWithOverflowInst, bind,
      ret, hasValue; simpl.
    repeat (break_match; simpl; try reflexivity).
  - reflexivity.
Qed.

(** ** Float truncation *)

(** C7.  FPTrunc of a float literal refuses to fold exactly when the status
    of the conversion includes invalid-op, div-by-zero or underflow, or the
    converted value is denormal; otherwise it folds to the literal of the
    converted value, in particular for the statuses OK, inexact and
    overflow (with or without inexact) with a result that is not
    denormal. *)
Theorem foldFPTrunc_decision {FP : APFloatOps} (Ctx : ASTContext)
  (BI : BuiltinInst) (Builtin : BuiltinInfo) (L : SILLocation) (T : SILType)
  (v : APFloat) (s : FoldState) :
  Arg BI 0 = Some (FloatLiteralInst L T v) ->
  let truncVal :=
    fst (fp_convert v (getAPFloatSemantics (getFPKind (TypesAt Builtin 1)))) in
  let status :=
    snd (fp_convert v (getAPFloatSemantics (getFPKind (TypesAt Builtin 1)))) in
  let refuses :=
    hasStatus status opInvalidOp || hasStatus status opDivByZero
    || hasStatus status opUnderflow || APFloatM.isDenormal truncVal in
  let folded := fst (foldFPTrunc Ctx BI Builtin s) in
  (folded = None <-> refuses = true)
  /\ (refuses = false ->
      folded = Some (FloatLiteralInst (getLoc BI) (getType BI) truncVal))
  /\ (In status [opOK; opInexact; opOverflow; opOverflow + opInexact] ->
      APFloatM.isDenormal truncVal = false ->
      folded = Some (FloatLiteralInst (getLoc BI) (getType BI) truncVal)).
Proof.
  intros HA truncVal status refuses folded.
  assert (Hfold : folded
                  = if refuses then None
                    else Some (FloatLiteralInst (getLoc BI) (getType BI)
                                                truncVal)).
  { subst folded refuses truncVal status. unfold foldFPTrunc. rewrite HA.
    destruct (fp_convert v _) as [tv st]. simpl.
    unfold bind, hasValue.
    match goal with
    | |- context [(if ?c then _ else ret tt) ?st0] =>
        destruct ((if c then _ else ret tt) st0) as [u st1]
    end.
    destruct (_ || _); reflexivity. }
  split; [| split].
  - rewrite Hfold. destruct refuses; split; congruence.
  - intros Hr. rewrite Hfold, Hr. reflexivity.
  - intros Hst Hden. rewrite Hfold.
    assert (Hr : refuses = false).
    { subst refuses. rewrite Hden.
      simpl in Hst. destruct Hst as [<- | [<- | [<- | [<- | []]]]];
        reflexivity. }
    rewrite Hr. reflexivity.
Qed.

Lemma foldFPTrunc_decision_witness :
  fst (foldFPTrunc (FP := constAPFloatOps singleOne opOK)
         (mkASTContext (Some "Double"%string))
         (mkBuiltinInst plainLoc (BuiltinFloatType IEEE32) false not_intrinsic
            (mkBuiltinInfo FPTrunc [BuiltinFloatType IEEE64;
                                    BuiltinFloatType IEEE32])
            [FloatLiteralInst plainLoc (BuiltinFloatType IEEE64) doubleOne])
         (mkBuiltinInfo FPTrunc [BuiltinFloatType IEEE64;
                                 BuiltinFloatType IEEE32])
         (mkFoldState (Some false) []))
  = Some (FloatLiteralInst plainLoc (BuiltinFloatType IEEE32) singleOne).
Proof.
  refine (proj2 (proj2
    (foldFPTrunc_decision (FP := constAPFloatOps singleOne opOK)
       (mkASTContext (Some "Double"%string))
       (mkBuiltinInst plainLoc (BuiltinFloatType IEEE32) false not_intrinsic
          (mkBuiltinInfo FPTrunc [BuiltinFloatType IEEE64;
                                  BuiltinFloatType IEEE32])
          [FloatLiteralInst plainLoc (BuiltinFloatType IEEE64) doubleOne])
       (mkBuiltinInfo FPTrunc [BuiltinFloatType IEEE64;
                               BuiltinFloatType IEEE32])
       plainLoc (BuiltinFloatType IEEE64) doubleOne
       (mkFoldState (Some false) []) eq_refl)) _ eq_refl).
  simpl. left. reflexivity.
Defined.

(** ** Explicit initializers *)

(** At a location that does not resolve to a call expression the code
    answers "maybe explicit" (not enough information), while the sentence of
    section 4.2 requires a call to a constructor. *)
Lemma maybeExplicit_without_call_expression :
  let BI := mkBuiltinInst plainLoc (BuiltinFloatType IEEE32) false
              not_intrinsic
              (mkBuiltinInfo FPTrunc [BuiltinFloatType IEEE64;
                                      BuiltinFloatType IEEE32])
              [FloatLiteralInst plainLoc (BuiltinFloatType IEEE64) doubleOne] in
  maybeExplicitFPCons (mkASTContext (Some "Double"%string)) BI = true
  /\ specMaybeExplicit (mkASTContext (Some "Double"%string)) BI = false.
Proof. split; reflexivity. Qed.

(** C8 (amended).  [maybeExplicit] holds if and only if the source location
    does not resolve to a call expression whose callee is a constructor
    reference, or that call expression is not marked implicit, or the
    nominal declaration of its type is the standard library's Double. *)
Theorem maybeExplicitFPCons_iff (Ctx : ASTContext) (BI : BuiltinInst) :
  maybeExplicitFPCons Ctx BI = true
  <-> match getAsCallExpr (getLoc BI) with
      | None => True
      | Some (implicit, fn, _, ty) =>
          isConstructorRefCallExpr fn = false
          \/ implicit = false
          \/ exists d, getAnyNominal ty = Some d /\ getDoubleDecl Ctx = Some d
      end.
Proof.
  unfold maybeExplicitFPCons.
  destruct (getAsCallExpr (getLoc BI)) as [[[[implicit fn] arg] ty]|];
    [| tauto].
  destruct (isConstructorRefCallExpr fn); simpl; [| tauto].
  destruct implicit; simpl; [| tauto].
  unfold optionString_eqb.
  destruct (getAnyNominal ty) as [d|], (getDoubleDecl Ctx) as [d'|].
  - rewrite String.eqb_eq. split.
    + intros ->. right; right. exists d'. auto.
    + intros [H | [H | [x [H1 H2]]]]; congruence.
  - split; [discriminate|]. intros [H | [H | [x [H1 H2]]]]; congruence.
  - split; [discriminate|]. intros [H | [H | [x [H1 H2]]]]; congruence.
  - split; [discriminate|]. intros [H | [H | [x [H1 H2]]]]; congruence.
Qed.

(** ** Unsigned comparisons with zero *)

(** C9.  With [x] not a literal, [ICMP_ULT(x, 0)] and [ICMP_UGT(0, x)] are
    replaced by the 1-bit literal 0, and [ICMP_UGE(x, 0)] and
    [ICMP_ULE(0, x)] by the 1-bit literal 1; the fold state is returned
    unchanged, so no diagnostic is emitted. *)
Theorem compare_unsigned_with_zero {FP : APFloatOps} (Ctx : ASTContext)
  (BI : BuiltinInst) (x : SILValue) (L : SILLocation) (T : SILType)
  (Zero : APInt.t) (s : FoldState) :
  isIntegerLiteral (Some x) = false ->
  APInt.Val Zero = 0 ->
  getIntrinsicInfo BI = not_intrinsic ->
  let literal b :=
    Some (IntegerLiteralInst (getLoc BI) (getType BI) (APInt.mk 1 b)) in
  (getBuiltinKind BI = ICMP_ULT ->
   getArguments BI = [x; IntegerLiteralInst L T Zero] ->
   constantFoldBuiltin Ctx BI s = (literal 0, s))
  /\ (getBuiltinKind BI = ICMP_UGT ->
      getArguments BI = [IntegerLiteralInst L T Zero; x] ->
      constantFoldBuiltin Ctx BI s = (literal 0, s))
  /\ (getBuiltinKind BI = ICMP_UGE ->
      getArguments BI = [x; IntegerLiteralInst L T Zero] ->
      constantFoldBuiltin Ctx BI s = (literal 1, s))
  /\ (getBuiltinKind BI = ICMP_ULE ->
      getArguments BI = [IntegerLiteralInst L T Zero; x] ->
      constantFoldBuiltin Ctx BI s = (literal 1, s)).
Proof.
  intros Hx HZ HI literal. subst literal.
  unfold constantFoldBuiltin, getBuiltinKind. rewrite HI.
  repeat split; intros Hk HA; rewrite Hk;
    unfold constantFoldCompare, getBuiltinKind, Arg, ret;
    rewrite Hk, HA; simpl; unfold APInt.eqz; rewrite HZ; simpl;
    destruct x; try discriminate; reflexivity.
Qed.

Lemma compare_unsigned_with_zero_witness :
  constantFoldBuiltin (FP := constAPFloatOps singleNaN opInvalidOp)
    (mkASTContext (Some "Double"%string))
    (mkBuiltinInst plainLoc (BuiltinIntegerType 1) false not_intrinsic
       (mkBuiltinInfo ICMP_ULT [BuiltinIntegerType 32])
       [OtherValue 0 (BuiltinIntegerType 32); intLit 32 0])
    (mkFoldState (Some false) [])
  = (Some (IntegerLiteralInst plainLoc (BuiltinIntegerType 1) (APInt.mk 1 0)),
     mkFoldState (Some false) []).
Proof.
  exact (proj1
    (compare_unsigned_with_zero (FP := constAPFloatOps singleNaN opInvalidOp)
       (mkASTContext (Some "Double"%string))
       (mkBuiltinInst plainLoc (BuiltinIntegerType 1) false not_intrinsic
          (mkBuiltinInfo ICMP_ULT [BuiltinIntegerType 32])
          [OtherValue 0 (BuiltinIntegerType 32); intLit 32 0])
       (OtherValue 0 (BuiltinIntegerType 32)) plainLoc (BuiltinIntegerType 32)
       (APInt.make 32 0) (mkFoldState (Some false) [])
       eq_refl eq_refl eq_refl) eq_refl eq_refl).
Defined.

(** ** Unchecked add, sub and mul *)

(** C10.  The binary folder returns no fold for Add, Sub and Mul, whatever
    the operands (two integer literals included) and whatever the state of
    the flag, and emits nothing; the dispatch on the builtin does the
    same. *)
Theorem add_sub_mul_never_fold {FP : APFloatOps} (Ctx : ASTContext)
  (BI : BuiltinInst) (s : FoldState) :
  constantFoldBinary BI Add s = (None, s)
  /\ constantFoldBinary BI Sub s = (None, s)
  /\ constantFoldBinary BI Mul s = (None, s)
  /\ (getIntrinsicInfo BI = not_intrinsic ->
      getBuiltinKind BI = Add \/ getBuiltinKind BI = Sub
      \/ getBuiltinKind BI = Mul ->
      constantFoldBuiltin Ctx BI s = (None, s)).
Proof.
  repeat split.
  intros HI Hk. unfold constantFoldBuiltin, getBuiltinKind in *. rewrite HI.
  destruct Hk as [-> | [-> | ->]]; reflexivity.
Qed.

Lemma add_sub_mul_never_fold_witness :
  constantFoldBuiltin (FP := constAPFloatOps singleNaN opInvalidOp)
    (mkASTContext (Some "Double"%string))
    (mkBuiltinInst plainLoc (BuiltinIntegerType 32) false not_intrinsic
       (mkBuiltinInfo Add [BuiltinIntegerType 32])
       [intLit 32 2; intLit 32 3])
    (mkFoldState (Some false) [])
  = (None, mkFoldState (Some false) []).
Proof.
  exact (proj2 (proj2 (proj2
    (add_sub_mul_never_fold (FP := constAPFloatOps singleNaN opInvalidOp)
       (mkASTContext (Some "Double"%string))
       (mkBuiltinInst plainLoc (BuiltinIntegerType 32) false not_intrinsic
          (mkBuiltinInfo Add [BuiltinIntegerType 32])
          [intLit 32 2; intLit 32 3])
       (mkFoldState (Some false) [])))) eq_refl (or_introl eq_refl)).
Defined.

(** * Further properties of the folder *)

(** ** The integer kernel keeps values within their width *)

Lemma bits_high_bound (x w : Z) :
  0 <= x -> 0 <= w -> (forall i, w <= i -> Z.testbit x i = false) -> x < 2 ^ w.
Proof.
  intros Hx Hw Hb.
  assert (E : x mod 2 ^ w = x).
  { apply Z.bits_inj'. intros i Hi.
    destruct (Z.lt_ge_cases i w).
    - apply Z.mod_pow2_bits_low; lia.
    - rewrite Z.mod_pow2_bits_high by lia. symmetry. apply Hb. lia. }
  rewrite <- E. apply Z.mod_pos_bound, pow2_pos, Hw.
Qed.

Lemma APInt_bitwise_wf (f : Z -> Z -> Z) (g : bool -> bool -> bool)
  (a b : APInt.t) :
  (forall x y i, Z.testbit (f x y) i = g (Z.testbit x i) (Z.testbit y i)) ->
  g false false = false ->
  (forall x y, 0 <= x -> 0 <= y -> 0 <= f x y) ->
  APInt.wf a -> APInt.wf b -> APInt.BitWidth a = APInt.BitWidth b ->
  0 <= APInt.BitWidth a ->
  APInt.wf (APInt.mk (APInt.BitWidth a) (f (APInt.Val a) (APInt.Val b))).
Proof.
  intros Hf Hg Hn Ha Hb Hw H0. unfold APInt.wf; simpl.
  split; [apply Hn; [apply Ha | apply Hb]|].
  apply bits_high_bound; [apply Hn; [apply Ha | apply Hb] | assumption |].
  intros i Hi. rewrite Hf.
  rewrite (APInt_wf_bits_high a i), (APInt_wf_bits_high b i);
    try assumption; lia.
Qed.

(** X1.  The bitwise and shift kernel returns a value of the width of its
    left operand whose bits all lie within that width, for well-formed
    operands of one width. *)
Theorem constantFoldBitOperation_wf (lhs rhs : APInt.t)
  (ID : BuiltinValueKind) :
  isBitOperation ID = true ->
  APInt.wf lhs -> APInt.wf rhs ->
  APInt.BitWidth lhs = APInt.BitWidth rhs -> 0 < APInt.BitWidth lhs ->
  APInt.BitWidth (constantFoldBitOperation lhs rhs ID) = APInt.BitWidth lhs
  /\ APInt.wf (constantFoldBitOperation lhs rhs ID).
Proof.
  intros Hk Ha Hb Hw H0.
  pose proof (pow2_pos (APInt.BitWidth lhs) ltac:(lia)) as Hp.
  destruct ID; try discriminate; simpl.
  - (* And *)
    split; [reflexivity|].
    apply (APInt_bitwise_wf Z.land andb); auto using Z.land_spec; try lia.
    intros; apply Z.land_nonneg; auto.
  - (* Or *)
    split; [reflexivity|].
    apply (APInt_bitwise_wf Z.lor orb); auto using Z.lor_spec; try lia.
    intros; apply Z.lor_nonneg; auto.
  - (* Xor *)
    split; [reflexivity|].
    apply (APInt_bitwise_wf Z.lxor xorb); auto using Z.lxor_spec; try lia.
    intros; apply Z.lxor_nonneg; tauto.
  - (* Shl *)
    unfold APInt.shl. destruct (_ <=? _); simpl.
    + split; [reflexivity | unfold APInt.wf; simpl; lia].
    + split; [reflexivity | apply APInt_make_wf; lia].
  - (* LShr *)
    unfold APInt.lshr. destruct (Z.leb_spec (APInt.BitWidth lhs) (APInt.Val rhs)); simpl.
    + split; [reflexivity | unfold APInt.wf; simpl; lia].
    + split; [reflexivity|]. unfold APInt.wf in *; simpl.
      rewrite Z.shiftr_div_pow2 by lia.
      pose proof (pow2_pos (APInt.Val rhs) ltac:(lia)).
      split; [apply Z.div_pos; lia|].
      apply Z.div_lt_upper_bound; [lia | nia].
  - (* AShr *)
    unfold APInt.ashr. destruct (_ <=? _); simpl.
    + split; [reflexivity|]. unfold APInt.wf; simpl.
      destruct (APInt.isNegative lhs); lia.
    + split; [reflexivity | apply APInt_make_wf; lia].
Qed.

Lemma constantFoldBitOperation_wf_witness :
  APInt.BitWidth (constantFoldBitOperation (APInt.make 8 200) (APInt.make 8 3) AShr) = 8
  /\ APInt.wf (constantFoldBitOperation (APInt.make 8 200) (APInt.make 8 3) AShr).
Proof.
  exact (constantFoldBitOperation_wf (APInt.make 8 200) (APInt.make 8 3) AShr
           eq_refl (APInt_make_wf 8 200 ltac:(lia))
           (APInt_make_wf 8 3 ltac:(lia)) eq_refl ltac:(simpl; lia)).
Defined.

(** ** Shifts *)




(** ** Comparisons on values *)

Lemma APInt_make_bit (b : bool) : APInt.make 1 (Z.b2z b) = APInt.mk 1 (Z.b2z b).
Proof. destruct b; reflexivity. Qed.

(** X3.  The comparison kernel answers with a 1-bit 0 or 1; swapping the
    operands together with the predicate ([<] with [>], [<=] with [>=])
    leaves the answer unchanged, and a predicate and its negation ([=] and
    [!=], [<] and [>=], [>] and [<=]) always give opposite answers. *)
Theorem constantFoldComparison_laws (lhs rhs : APInt.t)
  (ID : BuiltinValueKind) :
  isICmp ID = true ->
  APInt.BitWidth (constantFoldComparison lhs rhs ID) = 1
  /\ constantFoldComparison lhs rhs ID
     = constantFoldComparison rhs lhs (swapPredicate ID)
  /\ APInt.Val (constantFoldComparison lhs rhs ID)
     + APInt.Val (constantFoldComparison lhs rhs (negatePredicate ID)) = 1.
Proof.
  intros Hk. unfold constantFoldComparison.
  split; [reflexivity|].
  destruct ID; try discriminate; simpl; rewrite !APInt_make_bit; simpl;
    unfold APInt.eqb, APInt.neb, APInt.eqb, APInt.slt, APInt.sgt, APInt.sle,
      APInt.sge, APInt.ult, APInt.ugt, APInt.ule, APInt.uge;
    (split; [try reflexivity; rewrite Z.eqb_sym; reflexivity|]);
    repeat match goal with
           | |- context [?a =? ?b] => destruct (Z.eqb_spec a b)
           | |- context [?a <? ?b] => destruct (Z.ltb_spec a b)
           | |- context [?a <=? ?b] => destruct (Z.leb_spec a b)
           end; first [lia | reflexivity].
Qed.

Lemma constantFoldComparison_laws_witness :
  constantFoldComparison (APInt.make 8 200) (APInt.make 8 3) ICMP_SLT
  = constantFoldComparison (APInt.make 8 3) (APInt.make 8 200) ICMP_SGT.
Proof.
  exact (proj1 (proj2 (constantFoldComparison_laws
                         (APInt.make 8 200) (APInt.make 8 3) ICMP_SLT eq_refl))).
Defined.

(** ** The comparison patterns agree with the comparison of values *)

(** What the folder answers for "false" and "true". *)
Lemma compare_literal (BI : BuiltinInst) (ID : BuiltinValueKind)
  (L0 L1 : SILLocation) (T0 T1 : SILType) (A B : APInt.t) :
  getArguments BI = [IntegerLiteralInst L0 T0 A; IntegerLiteralInst L1 T1 B] ->
  constantFoldCompare BI ID
  = Some (IntegerLiteralInst (getLoc BI) (getType BI)
            (constantFoldComparison A B ID)).
Proof. intros HA. unfold constantFoldCompare, Arg. rewrite HA. reflexivity. Qed.

(** X4.  The unsigned comparisons with zero fold to the same constant
    whether or not the other operand [x] is a literal: [x <u 0] and
    [0 >u x] to 0, [x >=u 0] and [0 <=u x] to 1.  The pattern never
    contradicts the value fold of a well-formed literal. *)
Theorem unsigned_zero_patterns_agree (BI : BuiltinInst) (x : SILValue)
  (L : SILLocation) (T : SILType) (Zero : APInt.t) :
  (forall Lx Tx V, x = IntegerLiteralInst Lx Tx V -> APInt.wf V) ->
  APInt.Val Zero = 0 ->
  let answer b :=
    Some (IntegerLiteralInst (getLoc BI) (getType BI) (APInt.mk 1 b)) in
  (getBuiltinKind BI = ICMP_ULT ->
   getArguments BI = [x; IntegerLiteralInst L T Zero] ->
   constantFoldCompare BI ICMP_ULT = answer 0)
  /\ (getBuiltinKind BI = ICMP_UGT ->
      getArguments BI = [IntegerLiteralInst L T Zero; x] ->
      constantFoldCompare BI ICMP_UGT = answer 0)
  /\ (getBuiltinKind BI = ICMP_UGE ->
      getArguments BI = [x; IntegerLiteralInst L T Zero] ->
      constantFoldCompare BI ICMP_UGE = answer 1)
  /\ (getBuiltinKind BI = ICMP_ULE ->
      getArguments BI = [IntegerLiteralInst L T Zero; x] ->
      constantFoldCompare BI ICMP_ULE = answer 1).
Proof.
  intros Hx HZ answer. subst answer.
  assert (Hv : forall Lx Tx V, x = IntegerLiteralInst Lx Tx V ->
                               0 <= APInt.Val V).
  { intros Lx Tx V E. apply (Hx Lx Tx V E). }
  repeat split; intros Hk HA;
    unfold constantFoldCompare, Arg; rewrite Hk, HA; simpl;
    unfold APInt.eqz; rewrite HZ; simpl;
    (destruct x as [Lx Tx V| | | | | | | | |]; try reflexivity);
    specialize (Hv Lx Tx V eq_refl);
    unfold createIntegerLiteral, constantFoldComparison, APInt.ult,
      APInt.ugt, APInt.uge, APInt.ule; rewrite HZ;
    rewrite ?(proj2 (Z.ltb_ge (APInt.Val V) 0) Hv),
            ?(proj2 (Z.leb_le 0 (APInt.Val V)) Hv);
    reflexivity.
Qed.

Lemma unsigned_zero_patterns_agree_witness :
  constantFoldCompare
    (builtinInst plainLoc (BuiltinIntegerType 1) ICMP_UGE
       [BuiltinIntegerType 8] [intLit 8 200; intLit 8 0]) ICMP_UGE
  = Some (IntegerLiteralInst plainLoc (BuiltinIntegerType 1) (APInt.mk 1 1)).
Proof.
  refine (proj1 (proj2 (proj2
    (unsigned_zero_patterns_agree
       (builtinInst plainLoc (BuiltinIntegerType 1) ICMP_UGE
          [BuiltinIntegerType 8] [intLit 8 200; intLit 8 0])
       (intLit 8 200) plainLoc (BuiltinIntegerType 8) (APInt.make 8 0)
       _ eq_refl))) eq_refl eq_refl).
  intros Lx Tx V E. injection E as _ _ <-. apply APInt_make_wf. lia.
Defined.

Lemma APInt_signed_nonneg (a : APInt.t) :
  APInt.wf a -> 0 < APInt.BitWidth a ->
  APInt.Val a < 2 ^ (APInt.BitWidth a - 1) -> APInt.signed a = APInt.Val a.
Proof.
  intros Hwf Hw Hlt. unfold APInt.signed.
  rewrite (APInt_isNegative_spec a Hwf Hw).
  destruct (Z.leb_spec (2 ^ (APInt.BitWidth a - 1)) (APInt.Val a)); [lia|].
  reflexivity.
Qed.

(** X5.  Signed comparisons with the largest signed value [MAX] of the
    width fold to the same constant whether or not the other operand [x] is
    a literal: [MAX <s x] and [x >s MAX] to 0, [MAX >=s x] and [x <=s MAX]
    to 1. *)
Theorem signed_max_patterns_agree (BI : BuiltinInst) (x : SILValue)
  (L : SILLocation) (T : SILType) (MAX : APInt.t) :
  APInt.wf MAX -> 0 < APInt.BitWidth MAX ->
  APInt.isMaxSignedValue MAX = true ->
  (forall Lx Tx V, x = IntegerLiteralInst Lx Tx V ->
                   APInt.wf V /\ APInt.BitWidth V = APInt.BitWidth MAX) ->
  let answer b :=
    Some (IntegerLiteralInst (getLoc BI) (getType BI) (APInt.mk 1 b)) in
  (getBuiltinKind BI = ICMP_SLT ->
   getArguments BI = [IntegerLiteralInst L T MAX; x] ->
   constantFoldCompare BI ICMP_SLT = answer 0)
  /\ (getBuiltinKind BI = ICMP_SGT ->
      getArguments BI = [x; IntegerLiteralInst L T MAX] ->
      constantFoldCompare BI ICMP_SGT = answer 0)
  /\ (getBuiltinKind BI = ICMP_SGE ->
      getArguments BI = [IntegerLiteralInst L T MAX; x] ->
      constantFoldCompare BI ICMP_SGE = answer 1)
  /\ (getBuiltinKind BI = ICMP_SLE ->
      getArguments BI = [x; IntegerLiteralInst L T MAX] ->
      constantFoldCompare BI ICMP_SLE = answer 1).
Proof.
  intros HM Hw Hmax Hx answer. subst answer.
  assert (HsM : APInt.signed MAX = 2 ^ (APInt.BitWidth MAX - 1) - 1).
  { unfold APInt.isMaxSignedValue in Hmax. apply Z.eqb_eq in Hmax.
    rewrite APInt_signed_nonneg; try assumption; lia. }
  assert (Hv : forall Lx Tx V, x = IntegerLiteralInst Lx Tx V ->
                               APInt.signed V <= APInt.signed MAX).
  { intros Lx Tx V E. destruct (Hx Lx Tx V E) as [HV HwV].
    pose proof (APInt_signed_range V HV ltac:(lia)) as Hr.
    unfold APInt.fitsSigned in Hr. rewrite HwV in Hr. lia. }
  repeat split; intros Hk HA;
    unfold constantFoldCompare, Arg; rewrite Hk, HA; simpl;
    unfold isIntMax; simpl; rewrite ?Hmax;
    (destruct x as [Lx Tx V| | | | | | | | |]; try reflexivity);
    specialize (Hv Lx Tx V eq_refl);
    unfold createIntegerLiteral, constantFoldComparison, APInt.slt,
      APInt.sgt, APInt.sge, APInt.sle;
    rewrite ?(proj2 (Z.ltb_ge (APInt.signed MAX) (APInt.signed V)) Hv),
            ?(proj2 (Z.leb_le (APInt.signed V) (APInt.signed MAX)) Hv);
    reflexivity.
Qed.

Lemma signed_max_patterns_agree_witness :
  constantFoldCompare
    (builtinInst plainLoc (BuiltinIntegerType 1) ICMP_SLE
       [BuiltinIntegerType 8]
       [OtherValue 0 (BuiltinIntegerType 8); intLit 8 127]) ICMP_SLE
  = Some (IntegerLiteralInst plainLoc (BuiltinIntegerType 1) (APInt.mk 1 1)).
Proof.
  refine (proj2 (proj2 (proj2
    (signed_max_patterns_agree
       (builtinInst plainLoc (BuiltinIntegerType 1) ICMP_SLE
          [BuiltinIntegerType 8]
          [OtherValue 0 (BuiltinIntegerType 8); intLit 8 127])
       (OtherValue 0 (BuiltinIntegerType 8)) plainLoc (BuiltinIntegerType 8)
       (APInt.make 8 127) (APInt_make_wf 8 127 ltac:(lia))
       ltac:(vm_compute; reflexivity) eq_refl _))) eq_refl eq_refl).
  intros Lx Tx V E. discriminate E.
Defined.

(** X6.  A logical shift right by a strictly positive literal count is at
    most the largest signed value: against such an operand the unsigned
    comparisons with [MAX] fold to constants ([MAX >=u s] and [s <=u MAX]
    to 1, [MAX <u s] and [s >u MAX] to 0), and these constants are what
    the comparison gives on the shifted value of every literal. *)
Theorem lshr_max_patterns_sound (BI S : BuiltinInst) (y : SILValue)
  (L Ln : SILLocation) (T Tn : SILType) (MAX n : APInt.t) :
  APInt.wf MAX -> 0 < APInt.BitWidth MAX ->
  APInt.isMaxSignedValue MAX = true ->
  APInt.wf n -> APInt.isStrictlyPositive n = true ->
  getBuiltinKind S = LShr ->
  getArguments S = [y; IntegerLiteralInst Ln Tn n] ->
  let answer b :=
    Some (IntegerLiteralInst (getLoc BI) (getType BI) (APInt.mk 1 b)) in
  ((getBuiltinKind BI = ICMP_UGE ->
    getArguments BI = [IntegerLiteralInst L T MAX; BuiltinValue S] ->
    constantFoldCompare BI ICMP_UGE = answer 1)
   /\ (getBuiltinKind BI = ICMP_ULE ->
       getArguments BI = [BuiltinValue S; IntegerLiteralInst L T MAX] ->
       constantFoldCompare BI ICMP_ULE = answer 1)
   /\ (getBuiltinKind BI = ICMP_ULT ->
       getArguments BI = [IntegerLiteralInst L T MAX; BuiltinValue S] ->
       constantFoldCompare BI ICMP_ULT = answer 0)
   /\ (getBuiltinKind BI = ICMP_UGT ->
       getArguments BI = [BuiltinValue S; IntegerLiteralInst L T MAX] ->
       constantFoldCompare BI ICMP_UGT = answer 0))
  /\ forall Y, APInt.wf Y -> APInt.BitWidth Y = APInt.BitWidth MAX ->
       let shifted := constantFoldBitOperation Y n LShr in
       constantFoldComparison MAX shifted ICMP_UGE = APInt.mk 1 1
       /\ constantFoldComparison shifted MAX ICMP_ULE = APInt.mk 1 1
       /\ constantFoldComparison MAX shifted ICMP_ULT = APInt.mk 1 0
       /\ constantFoldComparison shifted MAX ICMP_UGT = APInt.mk 1 0.
Proof.
  intros HM Hw Hmax Hn Hpos HkS HAS answer. subst answer.
  assert (HS : isLShrByPositive (Some (BuiltinValue S)) = true).
  { unfold isLShrByPositive, matchLShrByLiteral, Arg.
    unfold getBuiltinKind in HkS. rewrite HkS, HAS. simpl. exact Hpos. }
  split.
  - repeat split; intros Hk HA;
      unfold constantFoldCompare, Arg; rewrite Hk, HA; simpl;
      change (nth_error (getArguments S) 0) with (Arg S 0);
      unfold isIntMax; simpl; rewrite ?Hmax;
      cbv beta iota;
      try rewrite HS; simpl; rewrite ?andb_false_r; simpl;
      try rewrite HS; reflexivity.
  - intros Y HY HwY shifted.
    assert (Hle : APInt.Val shifted <= APInt.Val MAX).
    { unfold APInt.isMaxSignedValue in Hmax. apply Z.eqb_eq in Hmax.
      unfold APInt.isStrictlyPositive, APInt.isNullValue in Hpos.
      apply andb_prop in Hpos. destruct Hpos as [_ Hnz].
      apply negb_true_iff, Z.eqb_neq in Hnz.
      destruct Hn as [Hn0 _]. destruct HY as [HY0 HY1].
      pose proof (pow2_half _ Hw) as Hh.
      pose proof (pow2_pos (APInt.BitWidth MAX - 1) ltac:(lia)) as Hp.
      subst shifted. simpl. unfold APInt.lshr.
      destruct (_ <=? _); simpl; [lia|].
      rewrite Z.shiftr_div_pow2 by lia.
      assert (2 <= 2 ^ APInt.Val n).
      { change 2 with (2 ^ 1) at 1. apply Z.pow_le_mono_r; lia. }
      assert (APInt.Val Y / 2 ^ APInt.Val n < 2 ^ (APInt.BitWidth MAX - 1)).
      { apply Z.div_lt_upper_bound; [lia|]. rewrite HwY in HY1. nia. }
      lia. }
    unfold constantFoldComparison, APInt.uge, APInt.ule, APInt.ult, APInt.ugt.
    rewrite (proj2 (Z.leb_le _ _) Hle), (proj2 (Z.ltb_ge _ _) Hle).
    repeat split; reflexivity.
Qed.

Lemma lshr_max_patterns_sound_witness :
  constantFoldCompare
    (builtinInst plainLoc (BuiltinIntegerType 1) ICMP_UGT
       [BuiltinIntegerType 8]
       [BuiltinValue
          (builtinInst plainLoc (BuiltinIntegerType 8) LShr
             [BuiltinIntegerType 8]
             [OtherValue 0 (BuiltinIntegerType 8); intLit 8 1]);
        intLit 8 127]) ICMP_UGT
  = Some (IntegerLiteralInst plainLoc (BuiltinIntegerType 1) (APInt.mk 1 0))
  /\ constantFoldComparison
       (constantFoldBitOperation (APInt.make 8 255) (APInt.make 8 1) LShr)
       (APInt.make 8 127) ICMP_UGT = APInt.mk 1 0.
Proof.
  pose proof (lshr_max_patterns_sound
    (builtinInst plainLoc (BuiltinIntegerType 1) ICMP_UGT
       [BuiltinIntegerType 8]
       [BuiltinValue
          (builtinInst plainLoc (BuiltinIntegerType 8) LShr
             [BuiltinIntegerType 8]
             [OtherValue 0 (BuiltinIntegerType 8); intLit 8 1]);
        intLit 8 127])
    (builtinInst plainLoc (BuiltinIntegerType 8) LShr
       [BuiltinIntegerType 8]
       [OtherValue 0 (BuiltinIntegerType 8); intLit 8 1])
    (OtherValue 0 (BuiltinIntegerType 8)) plainLoc plainLoc
    (BuiltinIntegerType 8) (BuiltinIntegerType 8)
    (APInt.make 8 127) (APInt.make 8 1)
    (APInt_make_wf 8 127 ltac:(lia)) ltac:(vm_compute; reflexivity) eq_refl
    (APInt_make_wf 8 1 ltac:(lia)) eq_refl eq_refl eq_refl) as [Hp Hs].
  split.
  - exact (proj2 (proj2 (proj2 Hp)) eq_refl eq_refl).
  - exact (proj2 (proj2 (proj2
             (Hs (APInt.make 8 255) (APInt_make_wf 8 255 ltac:(lia)) eq_refl)))).
Defined.

(** ** The sign test on the result of a checked unsigned operation *)

(** X7.  [x <s 0] folds to 0 and [x >=s 0] to 1 when [x] is field 0 of an
    unsigned checked add, sub or mul whose report operand is the literal 1,
    whatever that operation's operands are.  The answer is not the one the
    values give: for literals [a], [b] whose sum does not overflow but has
    its top bit set, folding the addition first leaves the literal [a + b],
    and [a + b <s 0] then folds to 1. *)
Theorem checked_unsigned_sign_pattern {FP : APFloatOps} (Ctx : ASTContext)
  (BI Op : BuiltinInst) (a b : SILValue)
  (Lx L L1 : SILLocation) (Tx T T1 : SILType) (Zero One : APInt.t) :
  APInt.Val Zero = 0 -> APInt.Val One = 1 ->
  getBuiltinKind Op = UAddOver \/ getBuiltinKind Op = USubOver
  \/ getBuiltinKind Op = UMulOver ->
  getArguments Op = [a; b; IntegerLiteralInst L1 T1 One] ->
  getArguments BI = [TupleExtractInst Lx Tx (BuiltinValue Op) 0;
                     IntegerLiteralInst L T Zero] ->
  let answer (B : BuiltinInst) v :=
    Some (IntegerLiteralInst (getLoc B) (getType B) (APInt.mk 1 v)) in
  (getBuiltinKind BI = ICMP_SLT -> constantFoldCompare BI ICMP_SLT = answer BI 0)
  /\ (getBuiltinKind BI = ICMP_SGE ->
      constantFoldCompare BI ICMP_SGE = answer BI 1)
  /\ forall La Lb Ta Tb A B w (RIE : option bool) (BI' : BuiltinInst),
       a = IntegerLiteralInst La Ta A -> b = IntegerLiteralInst Lb Tb B ->
       APInt.wf A -> APInt.wf B ->
       APInt.BitWidth A = w -> APInt.BitWidth B = w -> 0 < w ->
       getBuiltinKind Op = UAddOver ->
       getType Op = TupleType [BuiltinIntegerType w; BuiltinIntegerType 1] ->
       2 ^ (w - 1) <= APInt.Val A + APInt.Val B < 2 ^ w ->
       let sum := APInt.mk w (APInt.Val A + APInt.Val B) in
       let folded := constructResultWithOverflowTuple Op sum false in
       runFold (constantFoldBinaryWithOverflowBuiltin Op UAddOver) RIE
       = (Some folded, mkFoldState RIE [])
       /\ runFold (constantFoldInstruction Ctx
                     (TupleExtractInst Lx Tx folded 0)) RIE
          = (Some (IntegerLiteralInst (getLoc Op) (BuiltinIntegerType w) sum),
             mkFoldState RIE [])
       /\ (getArguments BI'
           = [IntegerLiteralInst (getLoc Op) (BuiltinIntegerType w) sum;
              IntegerLiteralInst L T Zero] ->
           constantFoldCompare BI' ICMP_SLT = answer BI' 1).
Proof.
  intros HZ HO HkOp HAOp HA answer. subst answer.
  assert (Hchk : isCheckedUnsignedOp (Some Op) = true).
  { unfold isCheckedUnsignedOp, m_One, Arg. unfold getBuiltinKind in HkOp.
    rewrite HAOp. simpl. unfold APInt.eqz. rewrite HO.
    destruct HkOp as [-> | [-> | ->]]; reflexivity. }
  split; [| split].
  - intros Hk. unfold constantFoldCompare, Arg. rewrite Hk, HA.
    cbn -[isCheckedUnsignedOp]. unfold APInt.eqz. rewrite HZ.
    cbn -[isCheckedUnsignedOp].
    match goal with
    | |- (if ?c then _ else _) = _ =>
        replace c with true by (symmetry; exact Hchk)
    end.
    reflexivity.
  - intros Hk. unfold constantFoldCompare, Arg. rewrite Hk, HA.
    cbn -[isCheckedUnsignedOp]. unfold APInt.eqz. rewrite HZ.
    cbn -[isCheckedUnsignedOp].
    match goal with
    | |- (if ?c then _ else _) = _ =>
        replace c with true by (symmetry; exact Hchk)
    end.
    reflexivity.
  - intros La Lb Ta Tb A B w RIE BI' -> -> HwfA HwfB HwA HwB Hw HkU HT Hsum
      sum folded.
    assert (Hfit : APInt.fitsUnsignedb w (APInt.Val A + APInt.Val B) = true).
    { apply fitsUnsignedb_spec. unfold APInt.fitsUnsigned.
      pose proof (pow2_pos (w - 1) ltac:(lia)). lia. }
    assert (Hmk : APInt.make w (APInt.Val A + APInt.Val B) = sum).
    { unfold APInt.make, sum. rewrite Z.mod_small; [reflexivity|].
      pose proof (pow2_pos (w - 1) ltac:(lia)). lia. }
    split; [| split].
    + unfold constantFoldBinaryWithOverflowBuiltin,
        constantFoldBinaryWithOverflowInst, runFold, Arg.
      rewrite HAOp. simpl. unfold APInt.add. rewrite HwA, Hfit, Hmk. simpl.
      unfold bind, hasValue, ret. simpl.
      destruct RIE; reflexivity.
    + subst folded. unfold constructResultWithOverflowTuple. rewrite HT.
      reflexivity.
    + intros HA'. rewrite (compare_literal BI' ICMP_SLT _ _ _ _ _ _ HA').
      unfold constantFoldComparison, APInt.slt.
      assert (Hs0 : APInt.signed Zero = 0).
      { unfold APInt.signed, APInt.isNegative. rewrite HZ.
        rewrite Z.bits_0. reflexivity. }
      assert (Hs1 : APInt.signed sum < 0).
      { assert (Hwfs : APInt.wf sum).
        { unfold APInt.wf, sum; simpl.
          pose proof (pow2_pos (w - 1) ltac:(lia)). lia. }
        unfold APInt.signed.
        rewrite (APInt_isNegative_spec sum Hwfs Hw). simpl.
        destruct (Z.leb_spec (2 ^ (w - 1)) (APInt.Val A + APInt.Val B)); lia. }
      rewrite Hs0. rewrite (proj2 (Z.ltb_lt _ _) Hs1). reflexivity.
Qed.

Lemma checked_unsigned_sign_pattern_witness :
  constantFoldCompare uadd8IsNegative ICMP_SLT
  = Some (IntegerLiteralInst plainLoc (BuiltinIntegerType 1) (APInt.mk 1 0))
  /\ constantFoldCompare
       (builtinInst plainLoc (BuiltinIntegerType 1) ICMP_SLT
          [BuiltinIntegerType 8]
          [IntegerLiteralInst plainLoc (BuiltinIntegerType 8) (APInt.mk 8 200);
           intLit 8 0]) ICMP_SLT
     = Some (IntegerLiteralInst plainLoc (BuiltinIntegerType 1) (APInt.mk 1 1)).
Proof.
  pose proof (checked_unsigned_sign_pattern
    (FP := constAPFloatOps singleNaN opInvalidOp)
    (mkASTContext (Some "Double"%string)) uadd8IsNegative uadd8
    (intLit 8 100) (intLit 8 100) plainLoc plainLoc plainLoc
    (BuiltinIntegerType 8) (BuiltinIntegerType 8) (BuiltinIntegerType 1)
    (APInt.make 8 0) (APInt.make 1 1) eq_refl eq_refl (or_introl eq_refl)
    eq_refl eq_refl) as (Hslt & _ & Horder).
  split; [exact (Hslt eq_refl)|].
  refine (proj2 (proj2
    (Horder plainLoc plainLoc (BuiltinIntegerType 8) (BuiltinIntegerType 8)
       (APInt.make 8 100) (APInt.make 8 100) 8 None
       (builtinInst plainLoc (BuiltinIntegerType 1) ICMP_SLT
          [BuiltinIntegerType 8]
          [IntegerLiteralInst plainLoc (BuiltinIntegerType 8) (APInt.mk 8 200);
           intLit 8 0])
       eq_refl eq_refl (APInt_make_wf 8 100 ltac:(lia))
       (APInt_make_wf 8 100 ltac:(lia)) eq_refl eq_refl ltac:(lia) eq_refl
       eq_refl _)) eq_refl).
  vm_compute. split; [intro H; discriminate H | reflexivity].
Defined.

(** ** Count leading zeros *)

Lemma width_lt_pow2 (w : Z) : 0 <= w -> w < 2 ^ w.
Proof. intros H. apply Z.pow_gt_lin_r; lia. Qed.

(** X8.  [ctlz] of a literal [V] of width [w].  For [V <> 0] it folds,
    silently, to the literal [lz] of the same type with [0 <= lz < w] and
    [2^(w-lz-1) <= V < 2^(w-lz)].  For [V = 0] it folds to the width [w]
    when the second operand is the literal 0, and does not fold when that
    operand is another literal or not a literal. *)
Theorem ctlz_fold (BI : BuiltinInst) (L0 : SILLocation) (T0 : SILType)
  (V : APInt.t) (flag : SILValue) (s : FoldState) :
  getArguments BI = [IntegerLiteralInst L0 T0 V; flag] ->
  APInt.wf V -> 0 < APInt.BitWidth V ->
  let w := APInt.BitWidth V in
  (APInt.Val V <> 0 ->
   exists lz,
     constantFoldIntrinsic BI ctlz s
     = (Some (IntegerLiteralInst (getLoc BI) T0 (APInt.mk w lz)), s)
     /\ 0 <= lz < w
     /\ 2 ^ (w - lz - 1) <= APInt.Val V < 2 ^ (w - lz))
  /\ (APInt.Val V = 0 ->
      constantFoldIntrinsic BI ctlz s
      = (match flag with
         | IntegerLiteralInst _ _ F =>
             if APInt.Val F =? 0
             then Some (IntegerLiteralInst (getLoc BI) T0 (APInt.mk w w))
             else None
         | _ => None
         end, s)).
Proof.
  intros HA [HV0 HV1] Hw w. subst w.
  pose proof (width_lt_pow2 (APInt.BitWidth V) ltac:(lia)) as Hlin.
  unfold constantFoldIntrinsic, Arg. rewrite HA. simpl.
  unfold APInt.eqz. split.
  - intros Hnz. destruct (Z.eqb_spec (APInt.Val V) 0) as [|_]; [lia|].
    assert (Hlog : Z.log2 (APInt.Val V) < APInt.BitWidth V)
      by (apply Z.log2_lt_pow2; lia).
    pose proof (Z.log2_nonneg (APInt.Val V)) as Hl0.
    pose proof (Z.log2_spec (APInt.Val V) ltac:(lia)) as Hspec.
    exists (APInt.countLeadingZeros V).
    unfold APInt.countLeadingZeros, APInt.getActiveBits, APInt.getBitWidth,
      createIntegerLiteral, APInt.make, ret.
    destruct (Z.eqb_spec (APInt.Val V) 0) as [|_]; [lia|].
    rewrite Z.mod_small by lia.
    split; [reflexivity|]. split; [lia|].
    replace (APInt.BitWidth V - (APInt.BitWidth V - (Z.log2 (APInt.Val V) + 1)) - 1)
      with (Z.log2 (APInt.Val V)) by lia.
    replace (APInt.BitWidth V - (APInt.BitWidth V - (Z.log2 (APInt.Val V) + 1)))
      with (Z.succ (Z.log2 (APInt.Val V))) by lia.
    exact Hspec.
  - intros Hz. rewrite Hz. simpl.
    destruct flag; try reflexivity.
    destruct (Z.eqb_spec (APInt.Val Value) 0); simpl; [|reflexivity].
    unfold createIntegerLiteral, APInt.make, APInt.getBitWidth, ret.
    rewrite Z.mod_small by lia. reflexivity.
Qed.

Lemma ctlz_fold_witness :
  exists lz,
    constantFoldIntrinsic
      (mkBuiltinInst plainLoc (BuiltinIntegerType 8) false ctlz
         (mkBuiltinInfo OtherBuiltin [BuiltinIntegerType 8])
         [intLit 8 5; intLit 1 0]) ctlz (mkFoldState None [])
    = (Some (IntegerLiteralInst plainLoc (BuiltinIntegerType 8) (APInt.mk 8 lz)),
       mkFoldState None [])
    /\ 0 <= lz < 8.
Proof.
  destruct (proj1 (ctlz_fold
              (mkBuiltinInst plainLoc (BuiltinIntegerType 8) false ctlz
                 (mkBuiltinInfo OtherBuiltin [BuiltinIntegerType 8])
                 [intLit 8 5; intLit 1 0])
              plainLoc (BuiltinIntegerType 8) (APInt.make 8 5) (intLit 1 0)
              (mkFoldState None []) eq_refl (APInt_make_wf 8 5 ltac:(lia))
              ltac:(vm_compute; reflexivity))
            ltac:(vm_compute; discriminate)) as (lz & H1 & H2 & _).
  exists lz. split; [exact H1 | exact H2].
Defined.

(** ** Who reports an arithmetic overflow *)

(** X9.  The LLVM intrinsics [{s,u}{add,sub,mul}_with_overflow] on two
    literals always fold to the result tuple and never touch the fold state:
    no overflow is reported and the flag is left as it was, also when the
    operation overflows, diagnostics are enabled and the function is a
    specialization. *)
Theorem overflow_intrinsic_folds_silently (BI : BuiltinInst)
  (I : IntrinsicID) (L0 L1 : SILLocation) (T0 T1 : SILType) (x y : APInt.t)
  (rest : list SILValue) (s : FoldState) :
  (exists ID, isCheckedArith ID = true
              /\ I = getLLVMIntrinsicIDForBuiltinWithOverflow ID) ->
  getArguments BI
  = IntegerLiteralInst L0 T0 x :: IntegerLiteralInst L1 T1 y :: rest ->
  constantFoldIntrinsic BI I s
  = (Some (constructResultWithOverflowTuple BI
             (fst (constantFoldBinaryWithOverflow x y I))
             (snd (constantFoldBinaryWithOverflow x y I))), s).
Proof.
  intros [ID [Hk ->]] HA.
  destruct ID; try discriminate; simpl;
    unfold constantFoldBinaryWithOverflowInst, Arg; rewrite HA; simpl;
    unfold bind, hasValue, ret;
    rewrite andb_false_r; reflexivity.
Qed.

Lemma overflow_intrinsic_folds_silently_witness :
  snd (constantFoldIntrinsic
         (mkBuiltinInst plainLoc (overflowTupleType 8) true uadd_with_overflow
            (mkBuiltinInfo OtherBuiltin [BuiltinIntegerType 8])
            [intLit 8 200; intLit 8 100]) uadd_with_overflow
         (mkFoldState (Some false) []))
  = mkFoldState (Some false) [].
Proof.
  exact (f_equal snd
    (overflow_intrinsic_folds_silently
       (mkBuiltinInst plainLoc (overflowTupleType 8) true uadd_with_overflow
          (mkBuiltinInfo OtherBuiltin [BuiltinIntegerType 8])
          [intLit 8 200; intLit 8 100]) uadd_with_overflow
       plainLoc plainLoc (BuiltinIntegerType 8) (BuiltinIntegerType 8)
       (APInt.make 8 200) (APInt.make 8 100) [] (mkFoldState (Some false) [])
       (ex_intro _ UAddOver (conj eq_refl eq_refl)) eq_refl)).
Defined.

(** X10.  A checked arithmetic builtin on two literals emits a diagnostic
    if and only if the flag is present, the operation overflows, the report
    operand is the literal 1 and the function is not a specialization.  It
    then emits exactly one and sets the flag; otherwise the fold state is
    returned unchanged. *)
Theorem checked_arith_reports_iff (BI : BuiltinInst) (ID : BuiltinValueKind)
  (L0 L1 : SILLocation) (T0 T1 : SILType) (x y : APInt.t) (RIE : option bool) :
  isCheckedArith ID = true ->
  Arg BI 0 = Some (IntegerLiteralInst L0 T0 x) ->
  Arg BI 1 = Some (IntegerLiteralInst L1 T1 y) ->
  let overflow :=
    snd (constantFoldBinaryWithOverflow x y
           (getLLVMIntrinsicIDForBuiltinWithOverflow ID)) in
  let reports :=
    present RIE && overflow && m_One (Arg BI 2)
    && negb (isSpecialization BI) in
  let st := snd (runFold (constantFoldBinaryWithOverflowBuiltin BI ID) RIE) in
  (Emitted st <> [] <-> reports = true)
  /\ (reports = true ->
      List.length (Emitted st) = 1%nat /\ ResultsInError st = Some true)
  /\ (reports = false -> st = mkFoldState RIE []).
Proof.
  intros Hk H0 H1 overflow reports st.
  subst st reports overflow.
  unfold constantFoldBinaryWithOverflowBuiltin,
    constantFoldBinaryWithOverflowInst, runFold.
  rewrite H0, H1.
  change (match Arg BI 2 with
          | Some (IntegerLiteralInst _ _ V) => APInt.eqz V 1
          | _ => false
          end) with (m_One (Arg BI 2)).
  destruct (constantFoldBinaryWithOverflow x y _) as [Res ov]. simpl.
  unfold bind, hasValue, ret, diagnose, setResultsInError.
  destruct RIE as [r|]; simpl;
    destruct ov; simpl;
    destruct (m_One (Arg BI 2)); simpl;
    destruct (isSpecialization BI); simpl;
    try destruct (overflowOperator _); simpl;
    repeat split; intros; try congruence; try discriminate; auto.
Qed.

Lemma checked_arith_reports_iff_witness :
  snd (runFold (constantFoldBinaryWithOverflowBuiltin
                  (checkedAdd32 plainLoc true) SAddOver) (Some false))
  = mkFoldState (Some false) [].
Proof.
  exact (proj2 (proj2
    (checked_arith_reports_iff (checkedAdd32 plainLoc true) SAddOver
       plainLoc plainLoc (BuiltinIntegerType 32) (BuiltinIntegerType 32)
       (APInt.make 32 2147483647) (APInt.make 32 1) (Some false)
       eq_refl eq_refl eq_refl)) eq_refl).
Defined.

(** ** Checked conversions that succeed or fail *)

Lemma conversionOverflow_iff_unrepresentable_witness :
  conversionOverflow
    (mkBuiltinInfo SToSCheckedTrunc [BuiltinIntegerType 8; BuiltinIntegerType 4])
    (APInt.make 8 250) = false
  <-> APInt.fitsSigned 4 (APInt.signed (APInt.make 8 250)).
Proof.
  exact (conversionOverflow_iff_unrepresentable
           (mkBuiltinInfo SToSCheckedTrunc
              [BuiltinIntegerType 8; BuiltinIntegerType 4])
           (APInt.make 8 250) 8 4 eq_refl eq_refl
           (APInt_make_wf 8 250 ltac:(lia)) eq_refl ltac:(lia)).
Defined.

(** The value part of a checked truncation that does not overflow. *)
Lemma checkIntegerConversion_value (B : BuiltinInfo) (SrcVal : APInt.t)
  (s d : Z) :
  isCheckedTrunc (ID B) = true ->
  Types B = [BuiltinIntegerType s; BuiltinIntegerType d] ->
  APInt.wf SrcVal -> APInt.BitWidth SrcVal = s -> 0 < d < s ->
  checkIntegerConversion B SrcVal
  = (APInt.trunc SrcVal d, conversionOverflow B SrcVal, BuiltinIntegerType d)
  /\ (conversionOverflow B SrcVal = false ->
      reading (snd (getTypeSignedness B)) (APInt.trunc SrcVal d)
      = reading (fst (getTypeSignedness B)) SrcVal).
Proof.
  intros Hk HT Hwf Hws Hd.
  assert (Hs : 0 < APInt.BitWidth SrcVal) by lia.
  pose proof (APInt_signed_range SrcVal Hwf Hs) as Hsr.
  pose proof (APInt_isNegative_spec SrcVal Hwf Hs) as Hneg.
  pose proof Hwf as [Hv0 Hv1].
  pose proof (pow2_half _ Hs) as Hhs.
  pose proof (pow2_half d ltac:(lia)) as Hhd.
  pose proof (pow2_pos (d - 1) ltac:(lia)) as Hpd.
  assert (Hle : 2 ^ d <= 2 ^ (APInt.BitWidth SrcVal - 1))
    by (apply Z.pow_le_mono_r; lia).
  set (t := APInt.trunc SrcVal d).
  assert (Htw : APInt.wf t) by (apply (APInt_make_wf d); lia).
  assert (Htd : 0 < APInt.BitWidth t) by (simpl; lia).
  pose proof (APInt_signed_range t Htw Htd) as Htr. simpl in Htr.
  pose proof (APInt_isNegative_spec t Htw Htd) as Htneg. simpl in Htneg.
  unfold conversionOverflow, checkIntegerConversion, TypesAt, getTypeSignedness.
  rewrite HT. simpl. subst s. fold t.
  destruct (ID B); try discriminate; simpl; (split; [reflexivity|]);
    unfold APInt.neb, APInt.eqb, reading;
    rewrite negb_false_iff, Z.eqb_eq; intros E.
  - (* SToSCheckedTrunc *)
    rewrite APInt_sext_val in E by (assumption || simpl; lia).
    apply (fitsSigned_unique (APInt.BitWidth SrcVal)); try assumption.
    + apply (fitsSigned_mono d); [lia | assumption].
    + rewrite (APInt_signed_mod SrcVal) by assumption. symmetry. exact E.
  - (* UToUCheckedTrunc *)
    unfold APInt.zext in E; simpl in E. fold t in E. congruence.
  - (* SToUCheckedTrunc *)
    unfold APInt.zext in E; simpl in E.
    assert (APInt.Val SrcVal < 2 ^ d)
      by (rewrite E; apply Z.mod_pos_bound; lia).
    rewrite <- E. symmetry. apply APInt_signed_nonneg; assumption || lia.
  - (* UToSCheckedTrunc *)
    unfold APInt.zext, APInt.trunc in E; simpl in E.
    assert (Hlt : APInt.Val SrcVal < 2 ^ (d - 1))
      by (rewrite E; apply Z.mod_pos_bound; lia).
    assert (Ht : APInt.Val t = APInt.Val SrcVal)
      by (unfold t, APInt.trunc; simpl; apply Z.mod_small; lia).
    rewrite <- Ht. apply APInt_signed_nonneg; try assumption.
    change (APInt.Val t < 2 ^ (d - 1)). rewrite Ht. exact Hlt.
Qed.

(** X12.  A checked truncation of a literal from width [s] to a narrower
    width [d] that does not overflow folds, silently, to the tuple of a
    [d]-bit literal and the 1-bit literal 0, and the [d]-bit literal read
    with the destination's signedness is the same number as the source read
    with the source's signedness. *)
Theorem checked_trunc_fold_preserves_value (BI : BuiltinInst)
  (B : BuiltinInfo) (L : SILLocation) (T : SILType) (SrcVal : APInt.t)
  (s d : Z) (RIE : option bool) :
  isCheckedTrunc (ID B) = true ->
  Types B = [BuiltinIntegerType s; BuiltinIntegerType d] ->
  Arg BI 0 = Some (IntegerLiteralInst L T SrcVal) ->
  getType BI = overflowTupleType d ->
  APInt.wf SrcVal -> APInt.BitWidth SrcVal = s -> 0 < d < s ->
  conversionOverflow B SrcVal = false ->
  exists R,
    runFold (constantFoldAndCheckIntegerConversions BI B) RIE
    = (Some (overflowTuple BI d R (APInt.mk 1 0)), mkFoldState RIE [])
    /\ APInt.BitWidth R = d /\ APInt.wf R
    /\ reading (snd (getTypeSignedness B)) R
       = reading (fst (getTypeSignedness B)) SrcVal.
Proof.
  intros Hk HT HA HTy Hwf Hws Hd Hno.
  destruct (checkIntegerConversion_value B SrcVal s d Hk HT Hwf Hws Hd)
    as [Hc Hv].
  exists (APInt.trunc SrcVal d).
  split; [| split; [reflexivity | split; [apply (APInt_make_wf d); lia|]]].
  - unfold constantFoldAndCheckIntegerConversions, runFold.
    rewrite HA, Hc, Hno.
    unfold overflowTuple, constructResultWithOverflowTuple. rewrite HTy.
    reflexivity.
  - exact (Hv Hno).
Qed.

Lemma checked_trunc_fold_preserves_value_witness :
  exists R,
    runFold (constantFoldAndCheckIntegerConversions
               (builtinInst plainLoc (overflowTupleType 4) SToSCheckedTrunc
                  [BuiltinIntegerType 8; BuiltinIntegerType 4] [intLit 8 250])
               (mkBuiltinInfo SToSCheckedTrunc
                  [BuiltinIntegerType 8; BuiltinIntegerType 4])) None
    = (Some (overflowTuple
               (builtinInst plainLoc (overflowTupleType 4) SToSCheckedTrunc
                  [BuiltinIntegerType 8; BuiltinIntegerType 4] [intLit 8 250])
               4 R (APInt.mk 1 0)), mkFoldState None [])
    /\ APInt.signed R = -6.
Proof.
  destruct (checked_trunc_fold_preserves_value
    (builtinInst plainLoc (overflowTupleType 4) SToSCheckedTrunc
       [BuiltinIntegerType 8; BuiltinIntegerType 4] [intLit 8 250])
    (mkBuiltinInfo SToSCheckedTrunc
       [BuiltinIntegerType 8; BuiltinIntegerType 4])
    plainLoc (BuiltinIntegerType 8) (APInt.make 8 250) 8 4 None
    eq_refl eq_refl eq_refl eq_refl (APInt_make_wf 8 250 ltac:(lia)) eq_refl
    ltac:(lia) eq_refl) as (R & H1 & _ & _ & H2).
  exists R. split; [exact H1 | exact H2].
Defined.

(** An overflowing conversion folds to nothing. *)
Lemma conversion_overflow_refused (BI : BuiltinInst) (B : BuiltinInfo)
  (L : SILLocation) (T : SILType) (SrcVal : APInt.t) (RIE : option bool) :
  Arg BI 0 = Some (IntegerLiteralInst L T SrcVal) ->
  conversionOverflow B SrcVal = true ->
  fst (runFold (constantFoldAndCheckIntegerConversions BI B) RIE) = None.
Proof.
  intros HA Hov. unfold conversionOverflow in Hov.
  unfold constantFoldAndCheckIntegerConversions, runFold. rewrite HA.
  destruct (checkIntegerConversion B SrcVal) as [[R ov] D].
  simpl in Hov. subst ov.
  unfold bind, hasValue, diagnose, setResultsInError, ret.
  destruct RIE; simpl; [|reflexivity].
  destruct (userConversionTypes (getLoc BI)), (getTypeSignedness B).
  reflexivity.
Qed.

(** X13.  The same-width conversions between signed and unsigned
    (SUCheckedConversion, USCheckedConversion) of a literal are refused
    exactly when the signed and the unsigned reading of the literal differ,
    that is when its sign bit is set; otherwise they fold, silently, to the
    tuple of the unchanged value and the 1-bit literal 0. *)
Theorem signedness_conversion_fold (BI : BuiltinInst) (B : BuiltinInfo)
  (L : SILLocation) (T : SILType) (SrcVal : APInt.t) (s : Z)
  (RIE : option bool) :
  isSignednessConversion (ID B) = true ->
  Arg BI 0 = Some (IntegerLiteralInst L T SrcVal) ->
  getType BI = overflowTupleType s ->
  APInt.wf SrcVal -> APInt.BitWidth SrcVal = s -> 0 < s ->
  (fst (runFold (constantFoldAndCheckIntegerConversions BI B) RIE) = None
   <-> APInt.signed SrcVal <> APInt.Val SrcVal)
  /\ (APInt.signed SrcVal = APInt.Val SrcVal ->
      runFold (constantFoldAndCheckIntegerConversions BI B) RIE
      = (Some (overflowTuple BI s SrcVal (APInt.mk 1 0)), mkFoldState RIE [])).
Proof.
  intros Hk HA HTy Hwf Hws Hs.
  assert (Hneg : APInt.isNegative SrcVal = true
                 <-> APInt.signed SrcVal <> APInt.Val SrcVal).
  { unfold APInt.signed.
    pose proof (pow2_pos (APInt.BitWidth SrcVal) ltac:(lia)).
    destruct (APInt.isNegative SrcVal); split; intros; try lia; congruence. }
  assert (Hck : checkIntegerConversion B SrcVal
                = (SrcVal, APInt.isNegative SrcVal, TypesAt B 0)).
  { unfold checkIntegerConversion.
    destruct (ID B); try discriminate; reflexivity. }
  assert (Hok : APInt.isNegative SrcVal = false ->
                runFold (constantFoldAndCheckIntegerConversions BI B) RIE
                = (Some (overflowTuple BI s SrcVal (APInt.mk 1 0)),
                   mkFoldState RIE [])).
  { intros Hn. unfold constantFoldAndCheckIntegerConversions, runFold.
    rewrite HA, Hck, Hn.
    unfold overflowTuple, constructResultWithOverflowTuple. rewrite HTy.
    reflexivity. }
  split.
  - rewrite <- Hneg. destruct (APInt.isNegative SrcVal) eqn:Hn.
    + split; [reflexivity|]. intros _.
      apply (conversion_overflow_refused BI B L T SrcVal RIE HA).
      unfold conversionOverflow. rewrite Hck. reflexivity.
    + rewrite (Hok eq_refl). simpl. split; discriminate.
  - intros E. apply Hok. destruct (APInt.isNegative SrcVal); [|reflexivity].
    exfalso. apply (proj1 Hneg eq_refl). exact E.
Qed.

Lemma signedness_conversion_fold_witness :
  runFold (constantFoldAndCheckIntegerConversions
             (builtinInst plainLoc (overflowTupleType 8) USCheckedConversion
                [BuiltinIntegerType 8] [intLit 8 100])
             (mkBuiltinInfo USCheckedConversion [BuiltinIntegerType 8])) None
  = (Some (overflowTuple
             (builtinInst plainLoc (overflowTupleType 8) USCheckedConversion
                [BuiltinIntegerType 8] [intLit 8 100])
             8 (APInt.make 8 100) (APInt.mk 1 0)), mkFoldState None []).
Proof.
  exact (proj2 (signedness_conversion_fold
    (builtinInst plainLoc (overflowTupleType 8) USCheckedConversion
       [BuiltinIntegerType 8] [intLit 8 100])
    (mkBuiltinInfo USCheckedConversion [BuiltinIntegerType 8])
    plainLoc (BuiltinIntegerType 8) (APInt.make 8 100) 8 None
    eq_refl eq_refl eq_refl (APInt_make_wf 8 100 ltac:(lia)) eq_refl
    ltac:(lia)) eq_refl).
Defined.

(** X14.  A checked conversion of a literal that overflows is never folded.
    With the flag absent nothing is emitted and the flag stays absent; with
    the flag present exactly one diagnostic is emitted and the flag is set.
    That diagnostic is worded for an integer literal exactly when the
    source width is 2048, and is a warning exactly when the instruction has
    no valid source position. *)
Theorem conversion_overflow_outcome (BI : BuiltinInst) (B : BuiltinInfo)
  (L : SILLocation) (T : SILType) (SrcVal : APInt.t) :
  Arg BI 0 = Some (IntegerLiteralInst L T SrcVal) ->
  conversionOverflow B SrcVal = true ->
  runFold (constantFoldAndCheckIntegerConversions BI B) None
  = (None, mkFoldState None [])
  /\ forall flag, exists d,
       runFold (constantFoldAndCheckIntegerConversions BI B) (Some flag)
       = (None, mkFoldState (Some true) [d])
       /\ isLiteralOverflowDiag d = (getGreatestWidth (TypesAt B 0) =? 2048)
       /\ isConversionWarning d = negb (SourceLocValid (getLoc BI)).
Proof.
  intros HA Hov. unfold conversionOverflow in Hov.
  unfold constantFoldAndCheckIntegerConversions, runFold. rewrite HA.
  destruct (checkIntegerConversion B SrcVal) as [[R ov] D].
  simpl in Hov. subst ov.
  split; [reflexivity|].
  intros flag. unfold bind, hasValue, diagnose, setResultsInError, ret. simpl.
  destruct (userConversionTypes (getLoc BI)) as [USrc UDst].
  destruct (getTypeSignedness B) as [SS DS].
  eexists. split; [reflexivity|].
  destruct (SourceLocValid (getLoc BI)); simpl;
    destruct (getGreatestWidth (TypesAt B 0) =? 2048); simpl;
    try (split; reflexivity);
    repeat (break_match; simpl; try (split; reflexivity)).
Qed.

Lemma conversion_overflow_outcome_witness :
  exists d,
    runFold (constantFoldAndCheckIntegerConversions
               (builtinInst plainLoc (overflowTupleType 4) UToUCheckedTrunc
                  [BuiltinIntegerType 8; BuiltinIntegerType 4] [intLit 8 255])
               (mkBuiltinInfo UToUCheckedTrunc
                  [BuiltinIntegerType 8; BuiltinIntegerType 4])) (Some false)
    = (None, mkFoldState (Some true) [d])
    /\ isLiteralOverflowDiag d = false.
Proof.
  destruct (proj2 (conversion_overflow_outcome
    (builtinInst plainLoc (overflowTupleType 4) UToUCheckedTrunc
       [BuiltinIntegerType 8; BuiltinIntegerType 4] [intLit 8 255])
    (mkBuiltinInfo UToUCheckedTrunc
       [BuiltinIntegerType 8; BuiltinIntegerType 4])
    plainLoc (BuiltinIntegerType 8) (APInt.make 8 255) eq_refl eq_refl) false)
    as (d & H1 & H2 & _).
  exists d. split; [exact H1 | exact H2].
Defined.

(** ** Casts compose *)

Lemma APInt_eq (a b : APInt.t) :
  APInt.BitWidth a = APInt.BitWidth b -> APInt.Val a = APInt.Val b -> a = b.
Proof. destruct a, b; simpl; intros -> ->; reflexivity. Qed.

(** X15.  Widening a literal from width [s] to [d > s] with ZExt or SExt
    (or their OrBitCast spellings) and truncating the result back to [s]
    gives the literal again. *)
Theorem cast_extend_then_trunc (val : APInt.t) (s d : Z)
  (Ext Tr : BuiltinValueKind) :
  isZExtKind Ext || isSExtKind Ext = true -> isTruncKind Tr = true ->
  APInt.wf val -> APInt.BitWidth val = s -> 0 < s < d ->
  constantFoldCast
    (constantFoldCast val
       (mkBuiltinInfo Ext [BuiltinIntegerType s; BuiltinIntegerType d]))
    (mkBuiltinInfo Tr [BuiltinIntegerType d; BuiltinIntegerType s])
  = val.
Proof.
  intros HE HT Hwf Hws Hd.
  unfold constantFoldCast, TypesAt. simpl.
  destruct (Z.eqb_spec s d); [lia|]. destruct (Z.eqb_spec d s); [lia|].
  assert (Hgoal : forall e, APInt.BitWidth e = d ->
            (forall i, 0 <= i -> i < s ->
                       Z.testbit (APInt.Val e) i = Z.testbit (APInt.Val val) i) ->
            APInt.trunc e s = val).
  { intros e He Hbits. apply APInt_eq; [simpl; lia|].
    apply Z.bits_inj'. intros i Hi. rewrite APInt_trunc_bits by lia.
    destruct (Z.ltb_spec i s); simpl.
    - apply Hbits; assumption.
    - symmetry. apply APInt_wf_bits_high; assumption || lia. }
  destruct Tr; try discriminate; destruct Ext; try discriminate;
    cbv beta iota; apply Hgoal; try reflexivity; intros i Hi Hlt;
    first [ rewrite APInt_zext_bits by (assumption || lia)
          | rewrite APInt_sext_bits by (assumption || lia) ];
    (destruct (Z.ltb_spec i (APInt.BitWidth val)); [reflexivity | lia]).
Qed.

Lemma cast_extend_then_trunc_witness :
  constantFoldCast
    (constantFoldCast (APInt.make 8 200)
       (mkBuiltinInfo SExt [BuiltinIntegerType 8; BuiltinIntegerType 32]))
    (mkBuiltinInfo Trunc [BuiltinIntegerType 32; BuiltinIntegerType 8])
  = APInt.make 8 200.
Proof.
  exact (cast_extend_then_trunc (APInt.make 8 200) 8 32 SExt Trunc
           eq_refl eq_refl (APInt_make_wf 8 200 ltac:(lia)) eq_refl
           ltac:(lia)).
Defined.

(** ** Quotient and remainder *)

(** X16.  For literals [N] and [D <> 0] of one width, the values the
    division kernel returns satisfy [N = D * q + r]: read signed for SDiv
    and SRem when the quotient fits, read unsigned for UDiv and URem.  SRem
    carries the overflow flag of SDiv, so the remainder of INT_MIN by -1 is
    flagged although the remainder itself is 0. *)
Theorem division_kernel_law (N D : APInt.t) (w : Z) :
  APInt.wf N -> APInt.wf D ->
  APInt.BitWidth N = w -> APInt.BitWidth D = w -> 0 < w ->
  APInt.Val D <> 0 ->
  snd (constantFoldDiv N D SRem) = snd (constantFoldDiv N D SDiv)
  /\ (snd (constantFoldDiv N D SDiv) = false ->
      APInt.signed N
      = APInt.signed D * APInt.signed (fst (constantFoldDiv N D SDiv))
        + APInt.signed (fst (constantFoldDiv N D SRem)))
  /\ APInt.Val N
     = APInt.Val D * APInt.Val (fst (constantFoldDiv N D UDiv))
       + APInt.Val (fst (constantFoldDiv N D URem))
  /\ (APInt.signed N = - 2 ^ (w - 1) -> APInt.signed D = -1 ->
      snd (constantFoldDiv N D SRem) = true
      /\ APInt.Val (fst (constantFoldDiv N D SRem)) = 0).
Proof.
  intros HN HD HwN HwD Hw HD0.
  pose proof (APInt_signed_range D HD ltac:(lia)) as HDr. rewrite HwD in HDr.
  assert (HsD : APInt.signed D <> 0).
  { intros E. pose proof (APInt_signed_mod D HD ltac:(lia)) as Hm.
    rewrite E in Hm. rewrite Z.mod_0_l in Hm; [congruence|].
    pose proof (pow2_pos (APInt.BitWidth D)); lia. }
  simpl. split; [reflexivity|]. split; [| split].
  - intros Hfit. apply negb_false_iff, fitsSignedb_spec in Hfit.
    rewrite HwN in Hfit.
    unfold APInt.sdiv, APInt.srem. rewrite HwN.
    rewrite !APInt_signed_make; try assumption.
    + apply Z.quot_rem'.
    + apply signed_remainder_fits; assumption.
  - apply Z.div_mod. exact HD0.
  - intros EN ED. unfold APInt.srem. rewrite EN, ED.
    split.
    + apply negb_true_iff. apply not_true_iff_false.
      rewrite fitsSignedb_spec, HwN.
      apply (signed_quotient_overflow w); try lia.
      * unfold APInt.fitsSigned.
        pose proof (pow2_pos (w - 1) ltac:(lia)). lia.
      * unfold APInt.fitsSigned.
        pose proof (pow2_pos (w - 1) ltac:(lia)). lia.
    + change (-1) with (- (1)). rewrite Z.rem_opp_r, Z.rem_1_r by lia.
      unfold APInt.make. simpl. apply Z.mod_0_l.
      pose proof (pow2_pos (APInt.BitWidth N)). lia.
Qed.

Lemma division_kernel_law_witness :
  APInt.Val (APInt.make 8 200)
  = APInt.Val (APInt.make 8 7)
    * APInt.Val (fst (constantFoldDiv (APInt.make 8 200) (APInt.make 8 7) UDiv))
    + APInt.Val (fst (constantFoldDiv (APInt.make 8 200) (APInt.make 8 7) URem)).
Proof.
  exact (proj1 (proj2 (proj2
    (division_kernel_law (APInt.make 8 200) (APInt.make 8 7) 8
       (APInt_make_wf 8 200 ltac:(lia)) (APInt_make_wf 8 7 ltac:(lia))
       eq_refl eq_refl ltac:(lia) ltac:(vm_compute; discriminate))))).
Defined.

(** ** Conversions between floats and integers *)

(** X17.  FPToSI and FPToUI of a float literal fold, to the converted
    integer, exactly when the value is not a strictly negative number
    converted to unsigned and the status of the conversion is OK or inexact.
    A diagnostic is emitted, once, exactly when the flag is present and the
    value is such a negative number or the conversion is invalid; the
    negative case is tested first and has its own diagnostic. *)
Theorem foldFPToIntConversion_decision {FP : APFloatOps} (BI : BuiltinInst)
  (B : BuiltinInfo) (L : SILLocation) (T : SILType) (v : APFloat)
  (RIE : option bool) :
  Arg BI 0 = Some (FloatLiteralInst L T v) ->
  let toUnsigned := BuiltinValueKind_beq (ID B) FPToUI in
  let negative :=
    toUnsigned && APFloatM.isNegative v && negb (APFloatM.isZero v) in
  let conv :=
    fp_convertToInteger v (getGreatestWidth (TypesAt B 1)) toUnsigned in
  let r := runFold (foldFPToIntConversion BI B) RIE in
  fst r
  = (if negb negative && ((snd conv =? opOK) || (snd conv =? opInexact))
     then Some (IntegerLiteralInst (getLoc BI) (getType BI) (fst conv))
     else None)
  /\ (present RIE && (negative || hasStatus (snd conv) opInvalidOp) = false ->
      snd r = mkFoldState RIE [])
  /\ (present RIE && (negative || hasStatus (snd conv) opInvalidOp) = true ->
      exists d, snd r = mkFoldState (Some true) [d]
                /\ isFloatToIntError d = true
                /\ isNegativeToUnsignedError d = negative).
Proof.
  intros HA toUnsigned negative conv r.
  subst r. unfold foldFPToIntConversion, runFold. rewrite HA.
  fold toUnsigned. fold negative. fold conv.
  destruct negative.
  - simpl. unfold bind, hasValue, ret, diagnose, setResultsInError.
    destruct RIE; simpl; repeat split; intros; try discriminate;
      eexists; repeat split.
  - destruct conv as [resInt status]. simpl.
    unfold hasStatus, opInvalidOp, opOK, opInexact.
    destruct (Z.eqb_spec status 0) as [-> | H0]; simpl.
    { repeat split; intros; try reflexivity.
      rewrite andb_false_r in H. discriminate. }
    destruct (Z.eqb_spec status 16) as [-> | H16]; simpl.
    { repeat split; intros; try reflexivity.
      rewrite andb_false_r in H. discriminate. }
    destruct (Z.land status 1 =? 0); simpl.
    + repeat split; intros; try reflexivity.
      rewrite andb_false_r in H. discriminate.
    + unfold bind, hasValue, ret, diagnose, setResultsInError.
      destruct RIE; simpl; repeat split; intros; try discriminate;
        eexists; repeat split.
Qed.

Lemma foldFPToIntConversion_decision_witness :
  fst (runFold
         (foldFPToIntConversion (FP := constAPFloatOps singleNaN opInvalidOp)
            (builtinInst plainLoc (BuiltinIntegerType 32) FPToSI
               [BuiltinFloatType IEEE32; BuiltinIntegerType 32]
               [FloatLiteralInst plainLoc (BuiltinFloatType IEEE32) singleNaN])
            (mkBuiltinInfo FPToSI
               [BuiltinFloatType IEEE32; BuiltinIntegerType 32]))
         (Some false))
  = None.
Proof.
  exact (proj1
    (foldFPToIntConversion_decision (FP := constAPFloatOps singleNaN opInvalidOp)
       (builtinInst plainLoc (BuiltinIntegerType 32) FPToSI
          [BuiltinFloatType IEEE32; BuiltinIntegerType 32]
          [FloatLiteralInst plainLoc (BuiltinFloatType IEEE32) singleNaN])
       (mkBuiltinInfo FPToSI [BuiltinFloatType IEEE32; BuiltinIntegerType 32])
       plainLoc (BuiltinFloatType IEEE32) singleNaN (Some false) eq_refl)).
Defined.

(** X18.  IntToFPWithOverflow of an integer literal folds, to the converted
    float, exactly when the conversion does not overflow; an inexact
    conversion still folds.  With the flag present an overflow is always
    reported, also behind an explicit initializer, while an inexact
    conversion is reported only when [maybeExplicit] does not hold; with the
    flag absent nothing is reported. *)
Theorem intToFP_decision {FP : APFloatOps} (Ctx : ASTContext)
  (BI : BuiltinInst) (L : SILLocation) (T : SILType) (SrcVal : APInt.t)
  (RIE : option bool) :
  getIntrinsicInfo BI = not_intrinsic ->
  getBuiltinKind BI = IntToFPWithOverflow ->
  Arg BI 0 = Some (IntegerLiteralInst L T SrcVal) ->
  let conv :=
    fp_convertFromAPInt
      (getAPFloatSemantics (getFPKind (TypesAt (getBuiltinInfo BI) 1)))
      SrcVal true in
  let overflow := hasStatus (snd conv) opOverflow in
  let inexact := hasStatus (snd conv) opInexact in
  let reports :=
    present RIE
    && (overflow || (inexact && negb (maybeExplicitFPCons Ctx BI))) in
  let r := runFold (constantFoldBuiltin Ctx BI) RIE in
  fst r = (if overflow then None
           else Some (FloatLiteralInst (getLoc BI) (getType BI) (fst conv)))
  /\ (reports = false -> snd r = mkFoldState RIE [])
  /\ (reports = true ->
      exists d, snd r = mkFoldState (Some true) [d]
                /\ isIntToFPOverflowError d = overflow
                /\ isIntToFPInexactWarning d = negb overflow).
Proof.
  intros HI Hk HA conv overflow inexact reports r.
  subst r reports. unfold constantFoldBuiltin, runFold.
  unfold getBuiltinKind in Hk. rewrite HI, Hk, HA.
  fold conv. destruct conv as [TruncVal status]. simpl in *.
  fold overflow. fold inexact.
  unfold bind, hasValue, ret, diagnose, setResultsInError, createFloatLiteral.
  destruct overflow, inexact; simpl;
    destruct RIE; simpl;
    try destruct (maybeExplicitFPCons Ctx BI); simpl;
    repeat split; intros; try discriminate; try reflexivity;
    eexists; repeat split.
Qed.

Lemma intToFP_decision_witness :
  fst (runFold
         (constantFoldBuiltin (FP := constAPFloatOps singleOne opInexact)
            (mkASTContext (Some "Double"%string))
            (builtinInst plainLoc (BuiltinFloatType IEEE32) IntToFPWithOverflow
               [BuiltinIntegerType 64; BuiltinFloatType IEEE32]
               [intLit 64 1]))
         (Some false))
  = Some (FloatLiteralInst plainLoc (BuiltinFloatType IEEE32) singleOne).
Proof.
  exact (proj1
    (intToFP_decision (FP := constAPFloatOps singleOne opInexact)
       (mkASTContext (Some "Double"%string))
       (builtinInst plainLoc (BuiltinFloatType IEEE32) IntToFPWithOverflow
          [BuiltinIntegerType 64; BuiltinFloatType IEEE32] [intLit 64 1])
       plainLoc (BuiltinIntegerType 64) (APInt.make 64 1) (Some false)
       eq_refl eq_refl eq_refl)).
Defined.

(** ** One diagnostic per instruction *)

Ltac fold_state_cases :=
  unfold bind, ret, hasValue, diagnose, setResultsInError; simpl;
  repeat (first [ progress (rewrite ?andb_false_r, ?andb_true_r; simpl)
                | match goal with
                  | |- context [(if ?c then _ else _) ?s] => destruct c eqn:?
                  end; simpl
                | break_match; simpl ]).

Lemma fold_state_invariant_intro (st : FoldState) :
  st = mkFoldState None [] \/ st = mkFoldState (Some false) []
  \/ (exists d, st = mkFoldState (Some true) [d]) ->
  (List.length (Emitted st) <= 1)%nat
  /\ (match ResultsInError st with Some true => true | _ => false end = true
      <-> Emitted st <> []).
Proof.
  intros [-> | [-> | [d ->]]]; simpl; split; try lia;
    split; intros; congruence.
Qed.

(** Started with nothing emitted and the flag absent or "false", a fold
    ends with nothing emitted and the flag as it was, or with exactly one
    diagnostic and the flag "true". *)
Lemma constantFoldInstruction_state {FP : APFloatOps} (Ctx : ASTContext)
  (I : SILValue) (RIE : option bool) :
  RIE = None \/ RIE = Some false ->
  let st := snd (runFold (constantFoldInstruction Ctx I) RIE) in
  st = mkFoldState None [] \/ st = mkFoldState (Some false) []
  \/ (exists d, st = mkFoldState (Some true) [d]).
Proof.
  intros HR st. subst st. unfold runFold.
  assert (Hdone : forall (s : FoldState),
            s = mkFoldState RIE [] ->
            s = mkFoldState None [] \/ s = mkFoldState (Some false) []
            \/ (exists d, s = mkFoldState (Some true) [d])).
  { intros s ->. destruct HR as [-> | ->]; auto. }
  destruct I; simpl; try (apply Hdone; reflexivity).
  - (* builtins *)
    unfold constantFoldBuiltin.
    destruct (getIntrinsicInfo BI).
    + destruct (ID (getBuiltinInfo BI)) eqn:Hid;
        unfold constantFoldBinary, constantFoldAndCheckDivision,
          constantFoldBinaryWithOverflowBuiltin,
          constantFoldBinaryWithOverflowInst,
          constantFoldAndCheckIntegerConversions, foldFPTrunc,
          foldFPToIntConversion;
        destruct HR as [-> | ->];
        fold_state_cases;
        first [ left; reflexivity
              | right; left; reflexivity
              | right; right; eexists; reflexivity ].
    + unfold constantFoldIntrinsic. fold_state_cases.
      all: apply Hdone; reflexivity.
    + unfold constantFoldIntrinsic. fold_state_cases.
      all: apply Hdone; reflexivity.
    + unfold constantFoldIntrinsic, constantFoldBinaryWithOverflowInst.
      destruct HR as [-> | ->]; fold_state_cases; auto.
    + unfold constantFoldIntrinsic, constantFoldBinaryWithOverflowInst.
      destruct HR as [-> | ->]; fold_state_cases; auto.
    + unfold constantFoldIntrinsic, constantFoldBinaryWithOverflowInst.
      destruct HR as [-> | ->]; fold_state_cases; auto.
    + unfold constantFoldIntrinsic, constantFoldBinaryWithOverflowInst.
      destruct HR as [-> | ->]; fold_state_cases; auto.
    + unfold constantFoldIntrinsic, constantFoldBinaryWithOverflowInst.
      destruct HR as [-> | ->]; fold_state_cases; auto.
    + unfold constantFoldIntrinsic, constantFoldBinaryWithOverflowInst.
      destruct HR as [-> | ->]; fold_state_cases; auto.
    + apply Hdone; reflexivity.
  - (* tuple_extract *)
    destruct I; simpl; apply Hdone; reflexivity.
  - (* struct_extract *)
    destruct I; simpl; apply Hdone; reflexivity.
  - (* index_addr *)
    destruct I2; simpl; try (apply Hdone; reflexivity).
    destruct (APInt.isNullValue Value); apply Hdone; reflexivity.
Qed.

(** X19.  The driver's step on a user emits at most one diagnostic, and the
    user enters the error set exactly when a diagnostic was emitted for it:
    no instruction is recorded as erroneous without a message, and none is
    diagnosed without being recorded. *)
Theorem foldUser_error_set_iff_diagnosed {FP : APFloatOps} (Ctx : ASTContext)
  (EnableDiagnostics inErrorSet : bool) (User : SILValue) :
  (List.length (diagnostics (foldUser Ctx EnableDiagnostics inErrorSet User))
   <= 1)%nat
  /\ (addedToErrorSet (foldUser Ctx EnableDiagnostics inErrorSet User) = true
      <-> diagnostics (foldUser Ctx EnableDiagnostics inErrorSet User) <> []).
Proof.
  unfold foldUser.
  destruct inErrorSet; [simpl; split; [lia | split; congruence]|].
  destruct (isAggregate User); [simpl; split; [lia | split; congruence]|].
  pose proof (constantFoldInstruction_state Ctx User
                (if EnableDiagnostics then Some false else None)
                ltac:(destruct EnableDiagnostics; auto)) as Hst.
  simpl in Hst.
  destruct (runFold (constantFoldInstruction Ctx User) _) as [C st].
  simpl in *. apply fold_state_invariant_intro. exact Hst.
Qed.

Lemma absent_flag_is_silent_except_shift_witness :
  snd (runFold
         (constantFoldBuiltin (FP := constAPFloatOps singleNaN opInvalidOp)
            (mkASTContext (Some "Double"%string))
            (builtinInst plainLoc (BuiltinIntegerType 32) UDiv
               [BuiltinIntegerType 32] [intLit 32 10; intLit 32 0]))
         None)
  = mkFoldState None [].
Proof.
  exact (absent_flag_is_silent_except_shift
           (FP := constAPFloatOps singleNaN opInvalidOp)
           (mkASTContext (Some "Double"%string))
           (builtinInst plainLoc (BuiltinIntegerType 32) UDiv
              [BuiltinIntegerType 32] [intLit 32 10; intLit 32 0])
           eq_refl).
Defined.

(** ** Lossy underflow when narrowing to single precision *)

(** X20.  For a value [1.sig x 2^e] of a 64-bit or 80-bit format narrowed
    to the 32-bit format: an exponent of -126 or more never underflows, an
    exponent below -149 always does, and in between the conversion is lossy
    exactly when one of the low [-125 - e] bits of the significand, cut down
    to 23 bits, is set.  In particular a significand whose 23 leading bits
    are zero (a power of two among them) is not lossy down to 2^-149. *)
Theorem isLossyUnderflowOf_to_single (srcType : FPKind) (e sig : Z) :
  srcType = IEEE64 \/ srcType = IEEE80 ->
  0 <= sig ->
  let srcSem := getFPSemantics srcType in
  let destSem := getFPSemantics IEEE32 in
  let drop := significandBitWidth srcSem - 23 in
  (-126 <= e -> isLossyUnderflowOf e sig srcSem destSem = false)
  /\ (e < -149 -> isLossyUnderflowOf e sig srcSem destSem = true)
  /\ (-149 <= e < -126 ->
      isLossyUnderflowOf e sig srcSem destSem
      = negb ((sig / 2 ^ drop) mod 2 ^ (-125 - e) =? 0))
  /\ (-149 <= e -> sig < 2 ^ drop ->
      isLossyUnderflowOf e sig srcSem destSem = false).
Proof.
  intros Hsrc Hsig srcSem destSem drop.
  assert (Hmid : -149 <= e < -126 ->
                 isLossyUnderflowOf e sig srcSem destSem
                 = negb ((sig / 2 ^ drop) mod 2 ^ (-125 - e) =? 0)).
  { intros He. unfold isLossyUnderflowOf. subst srcSem destSem drop.
    change (minExponentOf (getFPSemantics IEEE32)) with (-126).
    change (significandBitWidth (getFPSemantics IEEE32)) with 23.
    destruct (Z.leb_spec (-126) e); [lia|].
    destruct (Z.ltb_spec e (-126 - 23)); [lia|].
    assert (Hloss : (-126 - e + 1) mod 2 ^ 32 = -125 - e).
    { rewrite Z.mod_small; [lia|]. change (2 ^ 32) with 4294967296. lia. }
    rewrite Hloss. rewrite Z.shiftl_1_l.
    assert (Hpow : 2 ^ (-125 - e) <= 2 ^ 24)
      by (apply Z.pow_le_mono_r; lia).
    pose proof (pow2_pos (-125 - e) ltac:(lia)) as Hp.
    assert (Hmask : (2 ^ (-125 - e) - 1) mod 2 ^ 32 = Z.ones (-125 - e)).
    { rewrite Z.ones_equiv. rewrite Z.mod_small; [lia|].
      change (2 ^ 24) with 16777216 in Hpow.
      change (2 ^ 32) with 4294967296. lia. }
    rewrite Hmask. rewrite Z.land_ones by lia.
    assert (Hdrop : (significandBitWidth (getFPSemantics srcType) - 23)
                    mod 2 ^ 8
                    = significandBitWidth (getFPSemantics srcType) - 23
                    /\ 0 < significandBitWidth (getFPSemantics srcType) - 23)
      by (destruct Hsrc as [-> | ->]; split; reflexivity).
    destruct Hdrop as [Hd1 Hd2]. rewrite Hd1.
    rewrite (proj2 (Z.ltb_lt _ _) Hd2).
    rewrite Z.shiftr_div_pow2 by lia. reflexivity. }
  split; [| split; [| split]].
  - intros He. unfold isLossyUnderflowOf. subst destSem.
    change (minExponentOf (getFPSemantics IEEE32)) with (-126).
    destruct (Z.leb_spec (-126) e); [reflexivity | lia].
  - intros He. unfold isLossyUnderflowOf. subst destSem.
    change (minExponentOf (getFPSemantics IEEE32)) with (-126).
    change (significandBitWidth (getFPSemantics IEEE32)) with 23.
    destruct (Z.leb_spec (-126) e); [lia|].
    destruct (Z.ltb_spec e (-126 - 23)); [reflexivity | lia].
  - exact Hmid.
  - intros He Hlt.
    destruct (Z.le_gt_cases (-126) e) as [Hge | Hlow].
    + unfold isLossyUnderflowOf. subst destSem.
      change (minExponentOf (getFPSemantics IEEE32)) with (-126).
      destruct (Z.leb_spec (-126) e); [reflexivity | lia].
    + rewrite Hmid by lia.
      rewrite Z.div_small by lia. rewrite Z.mod_0_l; [reflexivity|].
      pose proof (pow2_pos (-125 - e) ltac:(lia)). lia.
Qed.

Lemma isLossyUnderflowOf_to_single_witness :
  isLossyUnderflowOf (-140) 0 (getFPSemantics IEEE64) (getFPSemantics IEEE32)
  = false.
Proof.
  exact (proj2 (proj2 (proj2
    (isLossyUnderflowOf_to_single IEEE64 (-140) 0 (or_introl eq_refl)
       ltac:(lia)))) ltac:(lia) ltac:(vm_compute; reflexivity)).
Defined.

(** ** Float literals in the source *)

Lemma lookThrough_implicit_then_any (e : Expr) :
  forall negative digits ty,
    lookThroughConstructorCalls true e = FloatLiteralExpr negative digits ty ->
    lookThroughConstructorCalls false e = FloatLiteralExpr negative digits ty.
Proof.
  revert e. fix IH 1. intros e negative digits ty.
  destruct e as [kind implicit fn arg ty0 | elts ty0 | n d ty0 | ty0];
    simpl; try (intros H; exact H).
  destruct kind; try (intros H; exact H).
  destruct (negb (getNumArguments arg =? 1)%nat) eqn:Hn.
  - rewrite orb_true_r. simpl. intros H; discriminate H.
  - destruct (negb (isConstructorRefCallExpr fn)) eqn:Hc.
    + rewrite !orb_true_r. intros H; discriminate H.
    + rewrite !orb_false_r. destruct implicit; simpl.
      * destruct arg as [k i f a t | elts t | n d t | t];
          try (intros H; discriminate H).
        destruct elts as [| e0 rest]; [intros H; discriminate H|].
        apply IH.
      * intros H; discriminate H.
Qed.

(** X21.  When a float literal is recognised as written in hex notation,
    its source text can also be recovered, and the recovered text is an
    optional minus sign followed by digits that start with "0x". *)
Theorem hex_literal_has_text (flitLoc : SILLocation) :
  isHexLiteralInSource flitLoc = true ->
  exists negative digits,
    tryExtractLiteralText flitLoc
    = Some ((if negative : bool then "-" else "") ++ digits)%string
    /\ String.prefix "0x" digits = true.
Proof.
  unfold isHexLiteralInSource, tryExtractLiteralText.
  destruct (ASTNode flitLoc) as [expr|]; [| discriminate].
  destruct (lookThroughConstructorCalls true expr) eqn:E; try discriminate.
  intros Hp. apply lookThrough_implicit_then_any in E. rewrite E.
  exists negative, digits. split; [reflexivity | exact Hp].
Qed.

Lemma hex_literal_has_text_witness :
  exists negative digits,
    tryExtractLiteralText
      (mkLoc (Some (ApplyExpr CallExprKind true
                      (ApplyExpr ConstructorRefCallExprKind true
                         (OtherExpr Int32) (OtherExpr Int32) Int32)
                      (TupleExpr [FloatLiteralExpr true "0x1p-150"
                                    (BuiltinFloatType IEEE80)]
                                 (TupleType [BuiltinFloatType IEEE80]))
                      (NominalType "Float")))
             true)
    = Some ((if negative : bool then "-" else "") ++ digits)%string
    /\ String.prefix "0x" digits = true.
Proof.
  exact (hex_literal_has_text
           (mkLoc (Some (ApplyExpr CallExprKind true
                           (ApplyExpr ConstructorRefCallExprKind true
                              (OtherExpr Int32) (OtherExpr Int32) Int32)
                           (TupleExpr [FloatLiteralExpr true "0x1p-150"
                                         (BuiltinFloatType IEEE80)]
                                      (TupleType [BuiltinFloatType IEEE80]))
                           (NominalType "Float")))
                  true)
           eq_refl).
Defined.
